(** * And64InlineHook: relocating AArch64 prologue instructions

    A shallow embedding of [And64InlineHook.cpp]: the fix-up context
    ([struct context]), the four instruction rewriters
    ([__fix_branch_imm], [__fix_cond_comp_test_branch], [__fix_loadlit],
    [__fix_pcreladdr]), the driver [__fix_instructions] and the installer
    [A64HookFunctionV].

    Pointers are byte addresses in [Z]; a [uint32_t *] is a 4-aligned
    address.  32-bit words are [Z] values reduced modulo [2^32] wherever the
    source computes in [uint32_t]; the conversions between [int32_t],
    [uint32_t] and [int64_t] that the C++ expressions perform are written
    out with [u32], [s32], [u64] and [s64]. *)

From Stdlib Require Import ZArith Lia List String Bool.
From stdpp Require Import base list.
Local Open Scope Z_scope.

Ltac Zify.zify_post_hook ::= Z.div_mod_to_equations.

(** ** Machine integers *)

Definition u32 (z : Z) : Z := z mod 2 ^ 32.
Definition s32 (z : Z) : Z :=
  let w := u32 z in if w <? 2 ^ 31 then w else w - 2 ^ 32.
Definition u64 (z : Z) : Z := z mod 2 ^ 64.
Definition s64 (z : Z) : Z :=
  let w := u64 z in if w <? 2 ^ 63 then w else w - 2 ^ 64.

(** [x << n] and [~x] on [uint32_t]. *)
Definition shl32 (x n : Z) : Z := u32 (Z.shiftl x n).
Definition not32 (x : Z) : Z := Z.lxor (u32 x) 0xffffffff.

(** ** Tunables and macros *)

Definition A64_MAX_INSTRUCTIONS : Z := 5.
Definition A64_MAX_REFERENCES : Z := A64_MAX_INSTRUCTIONS * 2.
Definition A64_NOP : Z := 0xd503201f.
Definition __page_size : Z := 4096.

(** [__align_up] and [__align_down] on [uintptr_t]. *)
Definition __align_up (x n : Z) : Z := Z.land (u64 (x + (n - 1))) (u64 (Z.lnot (n - 1))).
Definition __align_down (x n : Z) : Z := Z.land x (u64 (- n)).
Definition __page_align (n : Z) : Z := __align_up (u64 n) __page_size.
Definition __ptr_align (x : Z) : Z := __align_down (u64 x) __page_size.

(** ** Memory: 32-bit words at byte addresses *)

Definition memory := Z -> Z.

Definition load (m : memory) (a : Z) : Z := u32 (m a).
Definition store (m : memory) (a w : Z) : memory :=
  fun x => if x =? a then u32 w else m x.

(** [memcpy(dst, &v, 8)] for an [int64_t v], little-endian. *)
Definition store64 (m : memory) (a v : Z) : memory :=
  store (store m a v) (a + 4) (Z.shiftr v 32).

(** [memcpy(dst, src, 4 * n)]: the source words are read from the memory
    [m0] as it was when the copy began.  On ranges that overlap, where the
    C library's [memcpy] is undefined, this may differ from what the
    source does. *)
Fixpoint memcpy_words (m0 m : memory) (dst src : Z) (n : nat) : memory :=
  match n with
  | O => m
  | S k => memcpy_words m0 (store m dst (load m0 src)) (dst + 4) (src + 4) k
  end.

(** ** The platform log ([__android_log_print])

    [A64_LOGE] always prints; [A64_LOGI] prints in builds without
    [NDEBUG], which is the configuration embedded here. *)

Inductive log_level := ANDROID_LOG_INFO | ANDROID_LOG_ERROR.

Record log_entry := LogEntry { lvl : log_level; fmt : string; args : list Z }.

Definition A64_LOGE (f : string) (a : list Z) (l : list log_entry) : list log_entry :=
  l ++ [LogEntry ANDROID_LOG_ERROR f a].
Definition A64_LOGI (f : string) (a : list Z) (l : list log_entry) : list log_entry :=
  l ++ [LogEntry ANDROID_LOG_INFO f a].

(** The log of a build with [NDEBUG] defined.  There [A64_LOGI] expands
    to [((void)0)]; the code never reads the log, so such a build leaves
    the log of the embedded one without its [ANDROID_LOG_INFO] lines. *)
Definition is_error (e : log_entry) : bool :=
  match lvl e with ANDROID_LOG_ERROR => true | ANDROID_LOG_INFO => false end.
Definition ndebug_log (l : list log_entry) : list log_entry := List.filter is_error l.

(** ** The fix-up context ([struct context]) *)

(** [fix_info]: a deferred fix-up.  [bp = 0] is the [NULL] that marks a
    free slot. *)
Record fix_info := FixInfo { bp : Z; ls : Z; ad : Z }.

(** [insns_info]: the union [insu]/[ins]/[insp] is the single address
    [insp]; [fmap] is the array of [A64_MAX_REFERENCES] slots. *)
Record insns_info := InsnsInfo { insp : Z; fmap : list fix_info }.

Record context := Context { basep : Z; endp : Z; dat : list insns_info }.

Definition zero_fix_info : fix_info := FixInfo 0 0 0.
Definition zero_insns_info : insns_info :=
  InsnsInfo 0 (replicate (Z.to_nat A64_MAX_REFERENCES) zero_fix_info).

(** [dat[idx]].  An index outside the array is undefined behaviour in the
    source; here such a read yields the zeroed record and such a write is
    dropped. *)
Definition dat_at (c : context) (idx : Z) : insns_info :=
  if idx <? 0 then zero_insns_info
  else default zero_insns_info (dat c !! Z.to_nat idx).

Definition dat_alter (f : insns_info -> insns_info) (idx : Z) (c : context) : context :=
  if idx <? 0 then c
  else Context (basep c) (endp c) (alter f (Z.to_nat idx) (dat c)).

Definition is_in_fixing_range (c : context) (absolute_addr : Z) : bool :=
  (basep c <=? absolute_addr) && (absolute_addr <? endp c).

(** The division is by [sizeof(uint32_t)], a [size_t]: it is unsigned. *)
Definition get_ref_ins_index (c : context) (absolute_addr : Z) : Z :=
  s64 (u64 (absolute_addr - basep c) / 4).

Definition set_insp (v : Z) (d : insns_info) : insns_info := InsnsInfo v (fmap d).

Definition get_and_set_current_index (c : context) (inp outp : Z) : Z * context :=
  let current_idx := get_ref_ins_index c inp in
  (current_idx, dat_alter (set_insp outp) current_idx c).

Definition reset_current_ins (c : context) (idx outp : Z) : context :=
  dat_alter (set_insp outp) idx c.

(** The first free slot takes the record; a full array drops it. *)
Fixpoint fmap_insert (f : fix_info) (fm : list fix_info) : list fix_info :=
  match fm with
  | [] => []
  | g :: rest => if bp g =? 0 then f :: rest else g :: fmap_insert f rest
  end.

Definition insert_fix_map (c : context) (idx b l a : Z) : context :=
  dat_alter (fun d => InsnsInfo (insp d) (fmap_insert (FixInfo b l a) (fmap d))) idx c.

(** The bits ORed into the word at [b]:
    [((int32_t(target - b) >> 2) << ls) & ad]. *)
Definition fix_value (target b l a : Z) : Z :=
  Z.land (u32 (Z.shiftl (Z.shiftr (s32 (target - b)) 2) l)) a.

(** The loop of [process_fix_map] over one [fmap], stopping at the first
    free slot. *)
Fixpoint fmap_process (target : Z) (fm : list fix_info) (m : memory)
  : list fix_info * memory :=
  match fm with
  | [] => ([], m)
  | f :: rest =>
      if bp f =? 0 then (fm, m)
      else
        let m1 := store m (bp f) (Z.lor (load m (bp f)) (fix_value target (bp f) (ls f) (ad f))) in
        let '(rest', m2) := fmap_process target rest m1 in
        (FixInfo 0 (ls f) (ad f) :: rest', m2)
  end.

Definition process_fix_map (c : context) (idx : Z) (m : memory) : context * memory :=
  let d := dat_at c idx in
  let '(fm, m') := fmap_process (insp d) (fmap d) m in
  (dat_alter (fun d => InsnsInfo (insp d) fm) idx c, m').

(** ** The relocator's state

    [inp] and [outp] are the two cursors the rewriters advance through
    their [instruction] arguments. *)

Record state := State {
  inp : Z;
  outp : Z;
  ctx : context;
  mem : memory;
  log : list log_entry
}.

Definition with_ctx (c : context) (s : state) : state :=
  State (inp s) (outp s) c (mem s) (log s).
Definition with_mem (m : memory) (s : state) : state :=
  State (inp s) (outp s) (ctx s) m (log s).
Definition with_log (l : list log_entry) (s : state) : state :=
  State (inp s) (outp s) (ctx s) (mem s) l.

(** Store [w] into word [k] after the output cursor. *)
Definition poke (k w : Z) (s : state) : state :=
  with_mem (store (mem s) (outp s + 4 * k) w) s.
(** Copy the eight bytes of [v] to word [k] after the output cursor. *)
Definition poke64 (k v : Z) (s : state) : state :=
  with_mem (store64 (mem s) (outp s + 4 * k) v) s.
(** Advance the output cursor by [n] words; advance the input cursor by one. *)
Definition advance_out (n : Z) (s : state) : state :=
  State (inp s) (outp s + 4 * n) (ctx s) (mem s) (log s).
Definition advance_in (s : state) : state :=
  State (inp s + 4) (outp s) (ctx s) (mem s) (log s).

Definition begin_ins (s : state) : Z * state :=
  let '(idx, c) := get_and_set_current_index (ctx s) (inp s) (outp s) in
  (idx, with_ctx c s).

(** Emit one [A64_NOP], step over it and [reset_current_ins] to the new cursor. *)
Definition nop_realign (current_idx : Z) (s : state) : state :=
  let s := advance_out 1 (poke 0 A64_NOP s) in
  with_ctx (reset_current_ins (ctx s) current_idx (outp s)) s.

Definition defer (ref_idx l a : Z) (s : state) : state :=
  with_ctx (insert_fix_map (ctx s) ref_idx (outp s) l a) s.

Definition resolve (current_idx : Z) (s : state) : state :=
  let '(c, m) := process_fix_map (ctx s) current_idx (mem s) in
  with_mem m (with_ctx c s).

(** ** Rewriters

    Each rewriter returns [true] and the advanced state when it recognises
    the word under the input cursor, [false] and the untouched state
    otherwise. *)

(** [__fix_branch_imm]: [B] and [BL]. *)
Definition __fix_branch_imm (s : state) : bool * state :=
  let mbits := 6 in
  let mask := 0xfc000000 in
  let rmask := 0x03ffffff in
  let op_b := 0x14000000 in
  let op_bl := 0x94000000 in
  let ins := load (mem s) (inp s) in
  let opc := Z.land ins mask in
  if (opc =? op_b) || (opc =? op_bl) then
    let '(current_idx, s) := begin_ins s in
    let absolute_addr := inp s + Z.shiftr (s32 (shl32 ins mbits)) (mbits - 2) in
    let new_pc_offset := Z.shiftr (absolute_addr - outp s) 2 in
    let special_fix_type := is_in_fixing_range (ctx s) absolute_addr in
    let s :=
      if negb special_fix_type && (Z.shiftr rmask 1 <=? Z.abs new_pc_offset) then
        let b_aligned := Z.land (outp s + 4 * 2) 7 =? 0 in
        if opc =? op_b then
          let s := if negb b_aligned then nop_realign current_idx s else s in
          let s := poke 0 0x58000051 s in
          let s := poke 1 0xd61f0220 s in
          let s := poke64 2 absolute_addr s in
          advance_out 4 s
        else
          let s := if b_aligned then nop_realign current_idx s else s in
          let s := poke 0 0x58000071 s in
          let s := poke 1 0x1000009e s in
          let s := poke 2 0xd61f0220 s in
          let s := poke64 3 absolute_addr s in
          advance_out 5 s
      else
        let '(new_pc_offset, s) :=
          if special_fix_type then
            let ref_idx := get_ref_ins_index (ctx s) absolute_addr in
            if ref_idx <=? current_idx then
              (Z.shiftr (insp (dat_at (ctx s) ref_idx) - outp s) 2, s)
            else (0, defer ref_idx 0 rmask s)
          else (new_pc_offset, s) in
        let s := poke 0 (Z.lor opc (Z.land new_pc_offset (not32 mask))) s in
        advance_out 1 s in
    let s := advance_in s in
    (true, resolve current_idx s)
  else (false, s).

(** [__builtin_clz] on a non-zero [uint32_t]. *)
Definition clz32 (x : Z) : Z := 31 - Z.log2 x.

(** The recognition part of [__fix_cond_comp_test_branch]: the low-field
    mask of the matched family, if any. *)
Definition cond_branch_lmask (ins : Z) : option Z :=
  let lmask01 := 0xff00001f in
  let mask0 := 0xff000010 in
  let op_bc := 0x54000000 in
  let mask1 := 0x7f000000 in
  let op_cbz := 0x34000000 in
  let op_cbnz := 0x35000000 in
  let lmask2 := 0xfff8001f in
  let mask2 := 0x7f000000 in
  let op_tbz := 0x36000000 in
  let op_tbnz := 0x37000000 in
  if negb (Z.land ins mask0 =? op_bc) then
    let opc := Z.land ins mask1 in
    if negb (opc =? op_cbz) && negb (opc =? op_cbnz) then
      let opc := Z.land ins mask2 in
      if negb (opc =? op_tbz) && negb (opc =? op_tbnz) then None
      else Some lmask2
    else Some lmask01
  else Some lmask01.

(** [__fix_cond_comp_test_branch]: [B.cond], [CBZ]/[CBNZ], [TBZ]/[TBNZ]. *)
Definition __fix_cond_comp_test_branch (s : state) : bool * state :=
  let lsb := 5 in
  let ins := load (mem s) (inp s) in
  match cond_branch_lmask ins with
  | None => (false, s)
  | Some lmask =>
    let msb := clz32 (not32 lmask) in
    let '(current_idx, s) := begin_ins s in
    let absolute_addr :=
      inp s + Z.shiftr (s32 (shl32 (Z.land ins (not32 lmask)) msb)) (lsb - 2 + msb) in
    let new_pc_offset := Z.shiftr (absolute_addr - outp s) 2 in
    let special_fix_type := is_in_fixing_range (ctx s) absolute_addr in
    let s :=
      if negb special_fix_type
         && (Z.shiftr (not32 lmask) (lsb + 1) <=? Z.abs new_pc_offset) then
        let s := if negb (Z.land (outp s + 4 * 4) 7 =? 0)
                 then nop_realign current_idx s else s in
        let s := poke 0 (Z.lor (Z.land (shl32 (Z.shiftr 8 2) lsb) (not32 lmask))
                               (Z.land ins lmask)) s in
        let s := poke 1 0x14000005 s in
        let s := poke 2 0x58000051 s in
        let s := poke 3 0xd61f0220 s in
        let s := poke64 4 absolute_addr s in
        advance_out 6 s
      else
        let '(new_pc_offset, s) :=
          if special_fix_type then
            let ref_idx := get_ref_ins_index (ctx s) absolute_addr in
            if ref_idx <=? current_idx then
              (Z.shiftr (insp (dat_at (ctx s) ref_idx) - outp s) 2, s)
            else (0, defer ref_idx lsb (not32 lmask) s)
          else (new_pc_offset, s) in
        let s := poke 0 (Z.lor (Z.land (u32 (Z.shiftl new_pc_offset lsb)) (not32 lmask))
                               (Z.land ins lmask)) s in
        advance_out 1 s in
    let s := advance_in s in
    (true, resolve current_idx s)
  end.

(** The two NOP-padding loops of [__fix_loadlit].  Each iteration costs one
    unit of [fuel]; [None] is a loop that has not ended when the fuel is
    spent. *)
Fixpoint pad_literal (fuel : nat) (faligned : Z) (s : state) : option state :=
  if Z.land (outp s + 4 * 2) faligned =? 0 then Some s
  else match fuel with
       | O => None
       | S fuel' => pad_literal fuel' faligned (advance_out 1 (poke 0 A64_NOP s))
       end.

Fixpoint pad_offset (fuel : nat) (faligned absolute_addr : Z) (s : state) : option state :=
  if Z.land (Z.shiftr (absolute_addr - outp s) 2) faligned =? 0 then Some s
  else match fuel with
       | O => None
       | S fuel' => pad_offset fuel' faligned absolute_addr (advance_out 1 (poke 0 A64_NOP s))
       end.

(** The recognition part of [__fix_loadlit] after the [PRFM] test: the
    opcode mask of the matched form and its alignment mask [faligned]. *)
Definition loadlit_form (ins : Z) : option (Z * Z) :=
  let mask_30 := 0x40000000 in
  let mask_31 := 0x80000000 in
  let mask_ldr := 0xbf000000 in
  let op_ldr := 0x18000000 in
  let mask_ldrv := 0x3f000000 in
  let op_ldrv := 0x1c000000 in
  let mask_ldrsw := 0xff000000 in
  let op_ldrsw := 0x98000000 in
  let faligned := if negb (Z.land ins mask_30 =? 0) then 7 else 3 in
  if negb (Z.land ins mask_ldr =? op_ldr) then
    let faligned :=
      if negb (faligned =? 7)
      then (if negb (Z.land ins mask_31 =? 0) then 15 else 3)
      else faligned in
    if negb (Z.land ins mask_ldrv =? op_ldrv) then
      if negb (Z.land ins mask_ldrsw =? op_ldrsw) then None
      else Some (mask_ldrsw, 7)
    else Some (mask_ldrv, faligned)
  else Some (mask_ldr, faligned).

(** [__fix_loadlit]: [LDR] (literal), [LDRSW] (literal), [PRFM] (literal). *)
Definition __fix_loadlit (fuel : nat) (s : state) : option (bool * state) :=
  let ins := load (mem s) (inp s) in
  if Z.land ins 0xff000000 =? 0xd8000000 then
    let '(current_idx, s) := begin_ins s in
    let s := resolve current_idx s in
    Some (true, advance_in s)
  else
    let msb := 8 in
    let lsb := 5 in
    let lmask := 0xff00001f in
    match loadlit_form ins with
    | None => Some (false, s)
    | Some (mask, faligned) =>
      let '(current_idx, s) := begin_ins s in
      let absolute_addr :=
        inp s + Z.land (u32 (Z.shiftr (s32 (shl32 ins msb)) (msb + lsb - 2))) (not32 3) in
      let new_pc_offset := Z.shiftr (absolute_addr - outp s) 2 in
      let special_fix_type := is_in_fixing_range (ctx s) absolute_addr in
      let padded :=
        if special_fix_type
           || (Z.shiftr (not32 lmask) (lsb + 1)
               <=? Z.abs new_pc_offset + (faligned + 1 - 4) / 4) then
          match pad_literal fuel faligned s with
          | None => None
          | Some s =>
            let s := with_ctx (reset_current_ins (ctx s) current_idx (outp s)) s in
            let ns := (faligned + 1) / 4 in
            let s := poke 0 (Z.lor (Z.land (shl32 (Z.shiftr 8 2) lsb) (not32 mask))
                                   (Z.land ins lmask)) s in
            let s := poke 1 (0x14000001 + ns) s in
            let s := with_mem (memcpy_words (mem s) (mem s) (outp s + 4 * 2)
                                            absolute_addr (Z.to_nat ns)) s in
            Some (advance_out (2 + ns) s)
          end
        else
          let faligned := Z.shiftr faligned 2 in
          match pad_offset fuel faligned absolute_addr s with
          | None => None
          | Some s =>
            let new_pc_offset := Z.shiftr (absolute_addr - outp s) 2 in
            let s := with_ctx (reset_current_ins (ctx s) current_idx (outp s)) s in
            let s := poke 0 (Z.lor (Z.land (u32 (Z.shiftl new_pc_offset lsb)) (not32 mask))
                                   (Z.land ins lmask)) s in
            Some (advance_out 1 s)
          end in
      match padded with
      | None => None
      | Some s =>
        let s := advance_in s in
        Some (true, resolve current_idx s)
      end
    end.

(** The literal-load replacement shared by [ADR] (out of range) and [ADRP]:
    an optional NOP, [LDR Xd, #8], [B #12] and the 8-byte address. *)
Definition emit_ldr_literal (current_idx ins absolute_addr : Z) (s : state) : state :=
  let lsb := 5 in
  let mask := 0x9f000000 in
  let rmask := 0x0000001f in
  let s := if negb (Z.land (outp s + 4 * 2) 7 =? 0)
           then nop_realign current_idx s else s in
  let s := poke 0 (Z.lor (Z.lor 0x58000000 (Z.land (shl32 (Z.shiftr 8 2) lsb) (not32 mask)))
                         (Z.land ins rmask)) s in
  let s := poke 1 0x14000003 s in
  let s := poke64 2 absolute_addr s in
  advance_out 4 s.

(** The address [ADRP] computes in the source: the shift by 12 is done in
    [uint32_t]. *)
Definition adrp_target (pc ins : Z) : Z :=
  let msb := 8 in
  let lsb := 5 in
  let lsb_bytes := Z.shiftr (shl32 ins 1) 30 in
  Z.land pc (Z.lnot 0xfff)
  + shl32 (Z.lor (Z.land (u32 (Z.shiftr (s32 (shl32 ins msb)) (msb + lsb - 2))) (not32 3))
                 lsb_bytes) 12.

(** [__fix_pcreladdr]: [ADR] and [ADRP]. *)
Definition __fix_pcreladdr (s : state) : bool * state :=
  let msb := 8 in
  let lsb := 5 in
  let mask := 0x9f000000 in
  let lmask := 0xff00001f in
  let fmask := 0x00ffffff in
  let max_val := 0x001fffff in
  let op_adr := 0x10000000 in
  let op_adrp := 0x90000000 in
  let ins := load (mem s) (inp s) in
  if Z.land ins mask =? op_adr then
    let '(current_idx, s) := begin_ins s in
    let lsb_bytes := Z.shiftr (shl32 ins 1) 30 in
    let absolute_addr :=
      inp s + Z.lor (Z.land (u32 (Z.shiftr (s32 (shl32 ins msb)) (msb + lsb - 2))) (not32 3))
                    lsb_bytes in
    let new_pc_offset := absolute_addr - outp s in
    let special_fix_type := is_in_fixing_range (ctx s) absolute_addr in
    let s :=
      if negb special_fix_type && (Z.shiftr max_val 1 <=? Z.abs new_pc_offset) then
        emit_ldr_literal current_idx ins absolute_addr s
      else
        let '(new_pc_offset, s) :=
          if special_fix_type then
            let ref_idx :=
              get_ref_ins_index (ctx s) (s64 (Z.land (u64 absolute_addr) (u64 (Z.lnot 3)))) in
            if ref_idx <=? current_idx then
              (insp (dat_at (ctx s) ref_idx) - outp s, s)
            else (0, defer ref_idx lsb fmask s)
          else (new_pc_offset, s) in
        let s := poke 0 (Z.lor (Z.land (u32 (Z.shiftl new_pc_offset (lsb - 2))) fmask)
                               (Z.land ins lmask)) s in
        advance_out 1 s in
    let s := resolve current_idx s in
    (true, advance_in s)
  else if Z.land ins mask =? op_adrp then
    let '(current_idx, s) := begin_ins s in
    let absolute_addr := adrp_target (inp s) ins in
    let s := with_log (A64_LOGI "ins = 0x%.8X, pc = %p, abs_addr = %p"
                                [ins; inp s; absolute_addr] (log s)) s in
    let s :=
      if is_in_fixing_range (ctx s) absolute_addr then
        let ref_idx := get_ref_ins_index (ctx s) absolute_addr in
        let s := if current_idx <? ref_idx
                 then with_log (A64_LOGE "ref_idx must be less than or equal to current_idx!"
                                         [] (log s)) s
                 else s in
        let s := with_log (A64_LOGI "What is the correct way to fix this?" [] (log s)) s in
        advance_out 1 (poke 0 ins s)
      else emit_ldr_literal current_idx ins absolute_addr s in
    let s := resolve current_idx s in
    (true, advance_in s)
  else (false, s).

(** ** The driver [__fix_instructions] *)

(** One turn of the [while (--count >= 0)] loop. *)
Definition fix_one (fuel : nat) (s : state) : option state :=
  let '(done, s) := __fix_branch_imm s in
  if done then Some s else
  let '(done, s) := __fix_cond_comp_test_branch s in
  if done then Some s else
  match __fix_loadlit fuel s with
  | None => None
  | Some (true, s) => Some s
  | Some (false, s) =>
    let '(done, s) := __fix_pcreladdr s in
    if done then Some s else
    let '(current_idx, s) := begin_ins s in
    let s := resolve current_idx s in
    let s := poke 0 (load (mem s) (inp s)) s in
    Some (advance_in (advance_out 1 s))
  end.

Fixpoint fix_loop (fuel : nat) (count : nat) (s : state) : option state :=
  match count with
  | O => Some s
  | S count' =>
    match fix_one fuel s with
    | None => None
    | Some s => fix_loop fuel count' s
    end
  end.

(** The jump back to the first instruction that was not displaced. *)
Definition tail_jump (s : state) : state :=
  let mask := 0x03ffffff in
  let callback := inp s in
  let pc_offset := Z.shiftr (callback - outp s) 2 in
  if Z.shiftr mask 1 <=? Z.abs pc_offset then
    let s := if negb (Z.land (outp s + 4 * 2) 7 =? 0)
             then advance_out 1 (poke 0 A64_NOP s) else s in
    let s := poke 0 0x58000051 s in
    let s := poke 1 0xd61f0220 s in
    let s := poke64 2 callback s in
    advance_out 4 s
  else
    let s := poke 0 (Z.lor 0x14000000 (Z.land pc_offset mask)) s in
    advance_out 1 s.

Definition init_context (inp count : Z) : context :=
  Context inp (inp + 4 * count)
          (replicate (Z.to_nat A64_MAX_INSTRUCTIONS) zero_insns_info).

(** [__fix_instructions(inp, count, outp)] run on memory [m] with log [l].
    The result is the final state of the local cursors and context together
    with the memory; [__flush_cache] does not change any of them. *)
Definition __fix_instructions (fuel : nat) (m : memory) (l : list log_entry)
    (inp0 count outp0 : Z) : option state :=
  let l := if A64_MAX_INSTRUCTIONS <? count
           then A64_LOGE "too many fixing instructions!" [] l else l in
  let s := State inp0 outp0 (init_context inp0 count) m l in
  match fix_loop fuel (Z.to_nat count) s with
  | None => None
  | Some s => Some (tail_jump s)
  end.

(** ** The installer [A64HookFunctionV] *)

Section Installer.

(** The platform's [mprotect(addr, len, prot)] result, [0] or [-1], and
    the [errno] it leaves. *)
Variable mprotect : Z -> Z -> Z -> Z.
Variable errno : Z.

Definition PROT_RWX : Z := 7.

Definition __make_rwx (p n : Z) : Z :=
  mprotect (__ptr_align p)
           (if negb (__page_align (u64 p + n) =? __page_align (u64 p))
            then __page_align n + __page_size else __page_align n)
           PROT_RWX.

(** What a call leaves behind: the returned pointer ([0] is [NULL]), the
    memory and the log. *)
Record hook_result := HookResult {
  ret : Z;
  hmem : memory;
  hlog : list log_entry
}.

(** The [if (trampoline) { ... }] block: the size precheck and the call
    of the relocator. *)
Inductive backup_result :=
| BackupTooSmall (l : list log_entry)
| BackupDone (m : memory) (l : list log_entry)
| BackupDiverges.

Definition backup_instructions (fuel : nat) (m : memory) (l : list log_entry)
    (original count trampoline rwx_size : Z) : backup_result :=
  if negb (trampoline =? 0) then
    if rwx_size <? count * 10 then
      BackupTooSmall
        (A64_LOGE "rwx size is too small to hold %u bytes backup instructions!"
                  [count * 10] l)
    else
      match __fix_instructions fuel m l original count trampoline with
      | None => BackupDiverges
      | Some s => BackupDone (mem s) (log s)
      end
  else BackupDone m l.

(** In the short patch the compare-and-swap expects the word it has just
    read, so in this sequential embedding it always stores. *)
Definition A64HookFunctionV (fuel : nat) (m : memory) (l : list log_entry)
    (symbol replace rwx rwx_size : Z) : option hook_result :=
  let mask := 0x03ffffff in
  let trampoline := rwx in
  let original := symbol in
  let pc_offset := Z.shiftr (replace - symbol) 2 in
  if Z.shiftr mask 1 <=? Z.abs pc_offset then
    let count := if negb (Z.land (original + 4 * 2) 7 =? 0) then 5 else 4 in
    match backup_instructions fuel m l original count trampoline rwx_size with
    | BackupTooSmall l => Some (HookResult 0 m l)
    | BackupDiverges => None
    | BackupDone m l =>
      if __make_rwx original (5 * 4) =? 0 then
        let '(original, m) :=
          if count =? 5 then (original + 4, store m original A64_NOP)
          else (original, m) in
        let m := store m original 0x58000051 in
        let m := store m (original + 4) 0xd61f0220 in
        let m := store64 m (original + 4 * 2) replace in
        Some (HookResult trampoline m
                (A64_LOGI "inline hook %p->%p successfully! %zu bytes overwritten"
                          [symbol; replace; 5 * 4] l))
      else
        Some (HookResult 0 m
                (A64_LOGE "mprotect failed with errno = %d, p = %p, size = %zu"
                          [errno; original; 5 * 4] l))
    end
  else
    match backup_instructions fuel m l original 1 trampoline rwx_size with
    | BackupTooSmall l => Some (HookResult 0 m l)
    | BackupDiverges => None
    | BackupDone m l =>
      if __make_rwx original (1 * 4) =? 0 then
        let m := store m original (Z.lor 0x14000000 (Z.land pc_offset mask)) in
        Some (HookResult trampoline m
                (A64_LOGI "inline hook %p->%p successfully! %zu bytes overwritten"
                          [symbol; replace; 1 * 4] l))
      else
        Some (HookResult 0 m
                (A64_LOGE "mprotect failed with errno = %d, p = %p, size = %zu"
                          [errno; original; 1 * 4] l))
    end.

End Installer.

(** ** The trampoline pool and [A64HookFunction] *)

Definition A64_MAX_BACKUPS : Z := 256.

(** [__sync_add_and_fetch(p, 1)] on an [int32_t]: the new value, wrapping. *)
Definition __atomic_increase (v : Z) : Z := s32 (v + 1).

Section Api.

Variable mprotect : Z -> Z -> Z -> Z.
Variable errno : Z.

(** The address of the static array [__insns_pool]. *)
Variable pool : Z.

(** [__insns_pool[i]]: a row of [A64_MAX_INSTRUCTIONS * 10] words. *)
Definition __insns_pool (i : Z) : Z := pool + i * (A64_MAX_INSTRUCTIONS * 10 * 4).

(** [FastAllocateTrampoline], on the value [index] of its static counter
    [__index] (initially [-1]): the returned pointer, the new counter and
    the log.  The embedding is sequential: the increment is one step. *)
Definition FastAllocateTrampoline (index : Z) (l : list log_entry)
  : Z * Z * list log_entry :=
  let i := __atomic_increase index in
  if (0 <=? i) && (i <? A64_MAX_BACKUPS) then (__insns_pool i, i, l)
  else (0, i, A64_LOGE "failed to allocate trampoline!" [] l).

(** What a call of [A64HookFunction] leaves behind: the pool counter, the
    memory and the log. *)
Record api_result := ApiResult {
  aindex : Z;
  amem : memory;
  alog : list log_entry
}.

(** [A64HookFunction(symbol, replace, result)].  [*result] is a pointer,
    stored as eight bytes at [result]; the value of the preliminary
    [__make_rwx(symbol, 5 * sizeof(size_t))] is discarded. *)
Definition A64HookFunction (fuel : nat) (index : Z) (m : memory) (l : list log_entry)
    (symbol replace result : Z) : option api_result :=
  let trampoline := 0 in
  let '(trampoline, index, m, l, failed) :=
    if negb (result =? 0) then
      let '(trampoline, index, l) := FastAllocateTrampoline index l in
      (trampoline, index, store64 m result trampoline, l, trampoline =? 0)
    else (trampoline, index, m, l, false) in
  if failed then Some (ApiResult index m l)
  else
    let _ := __make_rwx mprotect symbol (5 * 8) in
    match A64HookFunctionV mprotect errno fuel m l symbol replace trampoline
                           (A64_MAX_INSTRUCTIONS * 10) with
    | None => None
    | Some r =>
      let m := if (ret r =? 0) && negb (result =? 0)
               then store64 (hmem r) result 0 else hmem r in
      Some (ApiResult index m (hlog r))
    end.

End Api.

(** ** Specification vocabulary *)

(** A pending list is drained when every slot is free. *)
Definition drained (fm : list fix_info) : Prop := Forall (fun f => bp f = 0) fm.

(** The used slots of an [fmap] come first: [insert_fix_map] fills the first
    free slot and [process_fix_map] stops at it. *)
Fixpoint prefix_ok (fm : list fix_info) : Prop :=
  match fm with
  | [] => True
  | f :: rest => if bp f =? 0 then drained rest else prefix_ok rest
  end.

(** What [process_fix_map] leaves of an [fmap]. *)
Fixpoint fmap_clear (fm : list fix_info) : list fix_info :=
  match fm with
  | [] => []
  | f :: rest => if bp f =? 0 then fm else FixInfo 0 (ls f) (ad f) :: fmap_clear rest
  end.

Definition drain (c : context) (idx : Z) : context :=
  dat_alter (fun d => InsnsInfo (insp d) (fmap_clear (fmap d))) idx c.

(** Every used slot patches a word in [[lo, hi)]. *)
Definition slots_in (lo hi : Z) (fm : list fix_info) : Prop :=
  Forall (fun f => bp f = 0 \/ lo <= bp f < hi) fm.

(** The number of deferred fix-ups waiting for instruction [j]. *)
Definition pending_count (c : context) (j : Z) : nat :=
  length (filter (fun f => bp f ≠ 0) (fmap (dat_at c j))).

(** [a] is patched by a fix-up waiting for instruction [i]. *)
Definition pending_bp (c : context) (i a : Z) : Prop :=
  exists f, f ∈ fmap (dat_at c i) /\ bp f ≠ 0 /\ a = bp f.

(** Two contexts with the same window and the same pending lists. *)
Definition same_pending (c c' : context) : Prop :=
  basep c' = basep c /\ endp c' = endp c /\ length (dat c') = length (dat c)
  /\ forall j, fmap (dat_at c' j) = fmap (dat_at c j).

(** What rewriting instruction [i] of a window of [n] instructions may do
    to the pending lists before it resolves its own: nothing, or file one
    fix-up, for the word at [b], against a later instruction [j] of the
    window (an index past the array files nothing). *)
Inductive deferral (n i : Z) (c : context) : option (Z * Z) -> context -> Prop :=
| deferral_none c' :
    same_pending c c' -> deferral n i c None c'
| deferral_one c1 j b l a :
    same_pending c c1 -> i < j ->
    j < n \/ Z.of_nat (length (dat c)) <= j ->
    deferral n i c (Some (j, b)) (insert_fix_map c1 j b l a).

(** The invariant of the context between two instructions of a window of
    [n]: all pending lists are well-formed and patch words of [[lo, hi)],
    and those of the instructions before [i] and of the records past the
    window are drained. *)
Definition ctx_inv (lo hi n i : Z) (c : context) : Prop :=
  forall j, prefix_ok (fmap (dat_at c j))
            /\ slots_in lo hi (fmap (dat_at c j))
            /\ (j < i \/ n <= j -> drained (fmap (dat_at c j))).

(** [m'] differs from [m] at most at the addresses in [P]. *)
Definition touched_only (P : Z -> Prop) (m m' : memory) : Prop :=
  forall a, ~ P a -> m' a = m a.

(** The alignment credit of the size bound: an output cursor at 12 modulo
    16 is the one place from which a 16-byte literal needs three NOPs. *)
Definition phi (o : Z) : Z := if o mod 16 =? 12 then 1 else 0.

(** The state of the relocator before instruction [i] of a window of [n]
    instructions at [base], writing from [lo]. *)
Record window_inv (lo base n i : Z) (s : state) : Prop := WindowInv {
  wi_inp : inp s = base + 4 * i;
  wi_base : basep (ctx s) = base;
  wi_end : endp (ctx s) = base + 4 * n;
  wi_idx : 0 <= i <= n;
  wi_n : n <= A64_MAX_INSTRUCTIONS;
  wi_range : 0 <= base < 2 ^ 62;
  wi_len : Z.of_nat (length (dat (ctx s))) = A64_MAX_INSTRUCTIONS;
  wi_lo : lo <= outp s;
  wi_align : outp s mod 4 = 0;
  wi_ctx : ctx_inv lo (outp s) n i (ctx s)
}.

(** What one turn of the loop does from [s] to [s'] while rewriting
    instruction [i] of a window of [n]. *)
Record step_ok (n i : Z) (s s' : state) : Prop := StepOk {
  so_inp : inp s' = inp s + 4;
  so_out : outp s <= outp s';
  so_min : outp s < outp s' \/ Z.land (load (mem s) (inp s)) 0xff000000 = 0xd8000000;
  so_align : outp s' mod 4 = 0;
  so_pot : outp s' - outp s + 4 * phi (outp s') <= 32 + 4 * phi (outp s);
  so_defer : exists d c_pre,
      deferral n i (ctx s) d c_pre /\ ctx s' = drain c_pre i
      /\ match d with
         | Some (_, b) => b = outp s /\ outp s < outp s'
         | None => True
         end;
  so_frame : touched_only (fun a => outp s <= a < outp s' \/ pending_bp (ctx s) i a)
                          (mem s) (mem s')
}.

(** ** Vocabulary of the claims *)

(** *** Decoded targets and emitted words *)

(** The target of a [B]/[BL] at [pc], as [__fix_branch_imm] decodes it. *)
Definition branch_target (pc ins : Z) : Z :=
  pc + Z.shiftr (s32 (shl32 ins 6)) (6 - 2).

(** The target of a conditional branch at [pc] with low-field mask
    [lmask], as [__fix_cond_comp_test_branch] decodes it. *)
Definition cond_branch_target (pc ins lmask : Z) : Z :=
  pc + Z.shiftr (s32 (shl32 (Z.land ins (not32 lmask)) (clz32 (not32 lmask))))
                (5 - 2 + clz32 (not32 lmask)).

(** The target of an [ADR] at [pc], as [__fix_pcreladdr] decodes it. *)
Definition adr_target (pc ins : Z) : Z :=
  pc + Z.lor (Z.land (u32 (Z.shiftr (s32 (shl32 ins 8)) (8 + 5 - 2))) (not32 3))
             (Z.shiftr (shl32 ins 1) 30).

(** The immediate fields of a word: [imm19] in bits 5 to 23 and the two
    bits [immlo] of [ADR]/[ADRP] in bits 29 and 30. *)
Definition imm19 (ins : Z) : Z := Z.land (Z.shiftr ins 5) 0x7ffff.
Definition immlo (ins : Z) : Z := Z.land (Z.shiftr ins 29) 3.

(** The signed values of the immediate fields. *)
Definition simm19 (ins : Z) : Z :=
  if imm19 ins <? 2 ^ 18 then imm19 ins else imm19 ins - 2 ^ 19.
Definition simm21 (ins : Z) : Z :=
  if imm19 ins <? 2 ^ 18 then 4 * imm19 ins + immlo ins
  else 4 * imm19 ins + immlo ins - 2 ^ 21.

(** The addresses that [LDR] (literal), [ADR] and [ADRP] at [pc] compute
    from their sign-extended immediates, as the comments of
    [__fix_loadlit] and [__fix_pcreladdr] describe the instructions: the
    PC plus four times the signed 19-bit offset, the PC plus the signed
    21-bit offset, and [(PC & ~0xFFF) + SignExtend(imm, 21) << 12]. *)
Definition literal_address (pc ins : Z) : Z := pc + 4 * simm19 ins.
Definition adr_address (pc ins : Z) : Z := pc + simm21 ins.
Definition adrp_address (pc ins : Z) : Z := 4096 * (pc / 4096) + 4096 * simm21 ins.

(** The words the rewriters emit for a byte displacement [disp] that is
    known at once. *)
Definition branch_word (opc disp : Z) : Z :=
  Z.lor opc (Z.land (Z.shiftr disp 2) 0x03ffffff).
Definition cond_branch_word (ins lmask disp : Z) : Z :=
  Z.lor (Z.land (u32 (Z.shiftl (Z.shiftr disp 2) 5)) (not32 lmask)) (Z.land ins lmask).
Definition adr_word (ins disp : Z) : Z :=
  Z.lor (Z.land (u32 (Z.shiftl disp (5 - 2))) 0x00ffffff) (Z.land ins 0xff00001f).

(** What the source logs for an [ADRP] whose target is inside the window:
    the decoded operands, an error if the target is a later instruction,
    and the open question. *)
Definition adrp_in_window_log (c : context) (pc ins : Z) (l : list log_entry)
  : list log_entry :=
  let absolute_addr := adrp_target pc ins in
  let l := A64_LOGI "ins = 0x%.8X, pc = %p, abs_addr = %p" [ins; pc; absolute_addr] l in
  let l := if get_ref_ins_index c pc <? get_ref_ins_index c absolute_addr
           then A64_LOGE "ref_idx must be less than or equal to current_idx!" [] l
           else l in
  A64_LOGI "What is the correct way to fix this?" [] l.

(** *** References into the window *)

(** Rewriting instruction [i] from [s] to [s'] resolved a reference to the
    instruction of index [j <= i] at once: one word is emitted, computed
    from the recorded output address of [j] (the cursor itself when
    [j = i]), and no pending list grows. *)
Definition resolved_at_once (i : Z) (s s' : state) (j : Z) (word : Z -> Z) : Prop :=
  j <= i ->
  outp s' = outp s + 4
  /\ load (mem s') (outp s)
     = word ((if j =? i then outp s else insp (dat_at (ctx s) j)) - outp s)
  /\ forall k, (pending_count (ctx s') k <= pending_count (ctx s) k)%nat.

(** One turn of the loop on a reference into the window, for the three
    families that can refer to an instruction: [B]/[BL], the conditional
    branches and [ADR] (with a non-negative offset). *)
Definition backward_references_resolved (i : Z) (s s' : state) : Prop :=
  let ins := load (mem s) (inp s) in
  (Z.land ins 0xfc000000 = 0x14000000 \/ Z.land ins 0xfc000000 = 0x94000000 ->
   is_in_fixing_range (ctx s) (branch_target (inp s) ins) = true ->
   resolved_at_once i s s'
     (get_ref_ins_index (ctx s) (branch_target (inp s) ins))
     (branch_word (Z.land ins 0xfc000000)))
  /\ (forall lmask,
      cond_branch_lmask ins = Some lmask ->
      is_in_fixing_range (ctx s) (cond_branch_target (inp s) ins lmask) = true ->
      resolved_at_once i s s'
        (get_ref_ins_index (ctx s) (cond_branch_target (inp s) ins lmask))
        (cond_branch_word ins lmask))
  /\ (Z.land ins 0x9f000000 = 0x10000000 ->
      0 <= simm21 ins ->
      is_in_fixing_range (ctx s) (adr_address (inp s) ins) = true ->
      resolved_at_once i s s'
        (get_ref_ins_index (ctx s)
           (s64 (Z.land (u64 (adr_address (inp s) ins)) (u64 (Z.lnot 3)))))
        (adr_word ins)).

(** A run of the relocator on [count] instructions at [base], writing from
    [out]: each turn of the loop, on instruction [k], returns and changes
    the pending lists in one of two ways before draining [pending[k]]: not
    at all, or by one fix-up filed against an instruction [j > k] for the
    word at the cursor; references to an instruction [j <= k] are resolved
    at once; and at the end every pending list is drained. *)
Definition pending_discipline (fuel : nat) (m : memory) (l : list log_entry)
    (base count out : Z) : Prop :=
  (forall (k : nat) s,
      Z.of_nat k < count ->
      fix_loop fuel k (State base out (init_context base count) m l) = Some s ->
      exists s',
        fix_one fuel s = Some s'
        /\ (exists d c_pre,
              deferral count (Z.of_nat k) (ctx s) d c_pre
              /\ ctx s' = drain c_pre (Z.of_nat k)
              /\ match d with
                 | Some (j, b) => Z.of_nat k < j /\ b = outp s
                 | None => True
                 end)
        /\ backward_references_resolved (Z.of_nat k) s s')
  /\ (exists s',
        __fix_instructions fuel m l base count out = Some s'
        /\ forall j, drained (fmap (dat_at (ctx s') j))).

(** *** The installer *)

(** The installer's choice between the long patch and the one-word
    patch, the number of displaced instructions and the length it asks
    [mprotect] for. *)
Definition long_patch (symbol replace : Z) : bool :=
  Z.shiftr 0x03ffffff 1 <=? Z.abs (Z.shiftr (replace - symbol) 2).

Definition displaced_count (symbol replace : Z) : Z :=
  if long_patch symbol replace
  then (if negb (Z.land (symbol + 4 * 2) 7 =? 0) then 5 else 4)
  else 1.

Definition patch_bytes (symbol replace : Z) : Z :=
  if long_patch symbol replace then 5 * 4 else 1 * 4.

(** The diverting prologue is in place at [symbol]. *)
Definition prologue_installed (symbol replace : Z) (m : memory) : Prop :=
  if long_patch symbol replace then
    let o := if displaced_count symbol replace =? 5 then symbol + 4 else symbol in
    (o ≠ symbol -> load m symbol = A64_NOP)
    /\ load m o = 0x58000051
    /\ load m (o + 4) = 0xd61f0220
    /\ load m (o + 8) = u32 replace
    /\ load m (o + 12) = u32 (Z.shiftr replace 32)
  else
    load m symbol = Z.lor 0x14000000 (Z.land (Z.shiftr (replace - symbol) 2) 0x03ffffff).

(** *** Sample code *)

(** [LDR Q0, #0x100] at [0x10000000]. *)
Definition ldr_q_memory : memory :=
  fun a => if a =? 0x10000000 then 0x9c000800 else 0.

(** [PRFM PLDL1KEEP, #8] at [0x10000000]. *)
Definition prfm_memory : memory :=
  fun a => if a =? 0x10000000 then 0xd8000040 else 0.

(** [B +12] at [0x10000000]. *)
Definition b_forward_memory : memory :=
  fun a => if a =? 0x10000000 then 0x14000003 else 0.

(** [BL +4] at [0x10000000]. *)
Definition bl_memory : memory :=
  fun a => if a =? 0x10000000 then 0x94000001 else 0.

(** [B.EQ +4; NOP] at [0x10000000]: the first instruction branches to the
    second. *)
Definition bcond_memory : memory :=
  fun a => if a =? 0x10000000 then 0x54000020
           else if a =? 0x10000004 then A64_NOP else 0.

(** [ADRP X0, #0x1000; ADD X0, X0, #1] at [0x10000000]: the page base one
    page further is outside any window at that address. *)
Definition adrp_memory : memory :=
  fun a => if a =? 0x10000000 then 0xb0000000
           else if a =? 0x10000004 then 0x91000400 else 0.

(** [ADRP X0, #0] at the page-aligned [0x10000000]: its page base is its
    own address. *)
Definition adrp_self_memory : memory :=
  fun a => if a =? 0x10000000 then 0x90000000 else 0.

(** [B +8; ADD X0, X0, #1; B -8] at [0x1000]: the first instruction refers
    forward to the third, the third backward to the first. *)
Definition loop_memory : memory :=
  fun a => if a =? 0x1000 then 0x14000002
           else if a =? 0x1004 then 0x91000400
           else if a =? 0x1008 then 0x17fffffe else 0.

(** [ADD X0, X0, #1; RET] at [0x1000]. *)
Definition add_ret_memory : memory :=
  fun a => if a =? 0x1000 then 0x91000400
           else if a =? 0x1004 then 0xd65f03c0 else 0.

(** [BL +0x100; STP X29, X30, [SP, #-16]!; MOV X29, SP; SUB SP, SP, #16]
    at [0x10000000]. *)
Definition bl_prologue_memory : memory :=
  fun a => if a =? 0x10000000 then 0x94000040
           else if a =? 0x10000004 then 0xa9bf7bfd
           else if a =? 0x10000008 then 0x910003fd
           else if a =? 0x1000000c then 0xd10043ff else 0.

(** [ADRP X1, #-0x1000] at [0x10000000]: the page before. *)
Definition adrp_back_memory : memory :=
  fun a => if a =? 0x10000000 then 0xf0ffffe1 else 0.

(** [NOP; ADR X2, #-4; ADD X0, X0, #1; RET] at [0x10000000]: the second
    instruction refers back to the first. *)
Definition adr_back_memory : memory :=
  fun a => if a =? 0x10000000 then A64_NOP
           else if a =? 0x10000004 then 0x10ffffe2
           else if a =? 0x10000008 then 0x91000400
           else if a =? 0x1000000c then 0xd65f03c0 else 0.

(** ** Vocabulary of the further properties *)

(** The eight bytes at [a], as [LDR Xt] reads them. *)
Definition load64 (m : memory) (a : Z) : Z := load m a + 2 ^ 32 * load m (a + 4).

(** The address of the literal of an [LDR]/[LDRSW] (literal) at [pc], as
    [__fix_loadlit] decodes it. *)
Definition loadlit_target (pc ins : Z) : Z :=
  pc + Z.land (u32 (Z.shiftr (s32 (shl32 ins 8)) (8 + 5 - 2))) (not32 3).

(** The word [__fix_loadlit] emits for a literal within reach, [disp] bytes
    away, of a form with opcode mask [mask]. *)
Definition loadlit_word (ins mask disp : Z) : Z :=
  Z.lor (Z.land (u32 (Z.shiftl (Z.shiftr disp 2) 5)) (not32 mask)) (Z.land ins 0xff00001f).

(** The opcode tests of the four rewriters, together: [false] for a word
    none of them recognises. *)
Definition pc_relative (ins : Z) : bool :=
  (Z.land ins 0xfc000000 =? 0x14000000) || (Z.land ins 0xfc000000 =? 0x94000000)
  || match cond_branch_lmask ins with Some _ => true | None => false end
  || (Z.land ins 0xff000000 =? 0xd8000000)
  || match loadlit_form ins with Some _ => true | None => false end
  || (Z.land ins 0x9f000000 =? 0x10000000) || (Z.land ins 0x9f000000 =? 0x90000000).

(** The words of [[a, b)] are [NOP]s. *)
Definition nops_between (m : memory) (a b : Z) : Prop :=
  forall x, a <= x < b -> x mod 4 = 0 -> load m x = A64_NOP.

(** [LDR W0, #0x100] at [0x10000000]. *)
Definition ldr_w_memory : memory :=
  fun a => if a =? 0x10000000 then 0x18000800 else 0.

(** [ADR X0, #0x1001] at [0x10000000]: an odd target. *)
Definition adr_odd_memory : memory :=
  fun a => if a =? 0x10000000 then 0x30008000 else 0.

(** A context whose pending lists are all full. *)
Definition full_context : context :=
  Context 0x1000 0x1014
    (replicate 5 (InsnsInfo 0 (replicate 10 (FixInfo 0x2000 0 0x03ffffff)))).

(** The state of the loop after [k] words that no rewriter recognises:
    they have been copied in order and nothing is pending. *)
Definition copied (m : memory) (base out k : Z) (s : state) : Prop :=
  inp s = base + 4 * k /\ outp s = out + 4 * k
  /\ basep (ctx s) = base
  /\ Z.of_nat (length (dat (ctx s))) = A64_MAX_INSTRUCTIONS
  /\ (forall j, drained (fmap (dat_at (ctx s) j)))
  /\ (forall a, ~ (out <= a < out + 4 * k) -> mem s a = m a)
  /\ (forall j, 0 <= j < k -> load (mem s) (out + 4 * j) = load m (base + 4 * j))
  /\ (forall j, 0 <= j < k -> insp (dat_at (ctx s) j) = out + 4 * j).

(** What one turn of the loop does, in detail: the context before the
    pending list of instruction [i] is drained, the effect on the words
    below the cursor, and the output address recorded for [i]. *)
Definition step_detail (n i : Z) (s s' : state) : Prop :=
  exists d c_pre,
    deferral n i (ctx s) d c_pre
    /\ ctx s' = drain c_pre i
    /\ match d with
       | Some (_, b) => b = outp s /\ outp s < outp s'
       | None => True
       end
    /\ (forall a, a < outp s -> mem s' a = (process_fix_map c_pre i (mem s)).2 a)
    /\ outp s <= insp (dat_at c_pre i) <= outp s'
    /\ (outp s < outp s' -> insp (dat_at c_pre i) < outp s')
    /\ insp (dat_at c_pre i) mod 4 = 0
    /\ (forall j, j ≠ i -> insp (dat_at c_pre j) = insp (dat_at (ctx s) j)).

(** No slot of [fm] patches the word at [a]. *)
Definition quiet (a : Z) (fm : list fix_info) : Prop :=
  Forall (fun f => bp f ≠ a) fm.

(** Among the used slots of [fm], exactly one patches the word at [a]; it
    has shift [l] and mask [mk]. *)
Definition awaits (a l mk : Z) (fm : list fix_info) : Prop :=
  exists pre post, fm = pre ++ FixInfo a l mk :: post
    /\ Forall (fun f => bp f ≠ 0 /\ bp f ≠ a) pre
    /\ quiet a post.

(** After [i] instructions no pending list holds more than [i] fix-ups,
    and every list has its [A64_MAX_REFERENCES] slots. *)
Definition cap (i : Z) (c : context) : Prop :=
  forall t, Z.of_nat (pending_count c t) <= i
            /\ length (fmap (dat_at c t)) = Z.to_nat A64_MAX_REFERENCES.

(** The near path of a rewriter on a reference from instruction [i] to
    instruction [j] of the window: one word is emitted at the cursor.  A
    target at or before [i] gives [word] of the displacement to its
    recorded address; a later one gives [w0] and files a fix-up with shift
    [l] and mask [mk] for that word. *)
Definition reference_shape (i j l mk w0 : Z) (word : Z -> Z) (s s' : state) : Prop :=
  exists c1,
    outp s' = outp s + 4
    /\ same_pending (ctx s) c1
    /\ (forall t, insp (dat_at c1 t) = if t =? i then outp s else insp (dat_at (ctx s) t))
    /\ if j <=? i then
         ctx s' = drain c1 i
         /\ load (mem s') (outp s) = word (insp (dat_at c1 j) - outp s)
       else
         ctx s' = drain (insert_fix_map c1 j (outp s) l mk) i
         /\ load (mem s') (outp s) = w0.

(** The word emitted for the reference of instruction [k] to instruction
    [j], seen before instruction [i > k]: once [j] has its output address
    the word is final and no pending list mentions it; until then it is
    [w0] and exactly one fix-up, in the list of [j], waits for it. *)
Definition tracked (k j l mk w0 : Z) (word : Z -> Z) (i : Z) (s : state) : Prop :=
  let a := insp (dat_at (ctx s) k) in
  let t := insp (dat_at (ctx s) j) in
  0 < a < outp s
  /\ if (j <=? k) || (j <? i) then
       (forall u, quiet a (fmap (dat_at (ctx s) u)))
       /\ (k < j -> a < t)
       /\ load (mem s) a = (if j <=? k then word (t - a)
                            else u32 (Z.lor w0 (fix_value t a l mk)))
     else
       load (mem s) a = w0
       /\ awaits a l mk (fmap (dat_at (ctx s) j))
       /\ forall u, u ≠ j -> quiet a (fmap (dat_at (ctx s) u)).

(** The instructions before [i] have their output addresses, in the
    written part of the buffer. *)
Definition settled (lo i : Z) (s : state) : Prop :=
  forall t, 0 <= t < i ->
    lo <= insp (dat_at (ctx s) t) <= outp s /\ insp (dat_at (ctx s) t) mod 4 = 0.

(** The state of the relocator before instruction [i], with the word of
    the reference of [k] to [j] tracked. *)
Definition reference_inv (m : memory) (base n out k j l mk w0 : Z) (word : Z -> Z)
    (i : Z) (s : state) : Prop :=
  window_inv out base n i s
  /\ outp s - out + 4 * phi (outp s) <= 32 * i + 4 * phi out
  /\ touched_only (fun a => out <= a < outp s) m (mem s)
  /\ cap i (ctx s)
  /\ settled out i s
  /\ (k < i -> tracked k j l mk w0 word i s).

(** ** Arithmetic *)

Lemma land_7 x : Z.land x 7 = x mod 8.
Proof. change 7 with (Z.ones 3). by rewrite Z.land_ones. Qed.

Lemma land_3 x : Z.land x 3 = x mod 4.
Proof. change 3 with (Z.ones 2). by rewrite Z.land_ones. Qed.

Lemma land_15 x : Z.land x 15 = x mod 16.
Proof. change 15 with (Z.ones 4). by rewrite Z.land_ones. Qed.

Lemma land_1 x : Z.land x 1 = x mod 2.
Proof. change 1 with (Z.ones 1). by rewrite Z.land_ones. Qed.

Lemma shiftr_2 x : Z.shiftr x 2 = x / 4.
Proof. by rewrite Z.shiftr_div_pow2. Qed.

Lemma get_ref_ins_index_small c a :
  0 <= a - basep c < 2 ^ 63 -> get_ref_ins_index c a = (a - basep c) / 4.
Proof.
  intros H. unfold get_ref_ins_index, s64, u64.
  rewrite (Z.mod_small (a - basep c)) by lia.
  rewrite (Z.mod_small ((a - basep c) / 4)) by lia.
  destruct (Z.ltb_spec ((a - basep c) / 4) (2 ^ 63)); lia.
Qed.

(** ** The context operations *)

Lemma dat_at_alter f idx c j :
  dat_at (dat_alter f idx c) j =
  if decide (j = idx /\ 0 <= idx < Z.of_nat (length (dat c)))
  then f (dat_at c j) else dat_at c j.
Proof.
  unfold dat_at, dat_alter.
  destruct (Z.ltb_spec idx 0), (Z.ltb_spec j 0); case_decide; try lia; try done.
  - destruct_and!; subst. simpl. rewrite list_lookup_alter_eq.
    destruct (lookup_lt_is_Some_2 (dat c) (Z.to_nat idx)) as [x ->]; [lia|done].
  - simpl. destruct (decide (j = idx)) as [->|].
    + rewrite list_lookup_alter_eq.
      rewrite (proj2 (lookup_ge_None (dat c) (Z.to_nat idx))); [done|lia].
    + rewrite list_lookup_alter_ne; [done|lia].
Qed.

Lemma dat_alter_base f idx c :
  basep (dat_alter f idx c) = basep c /\ endp (dat_alter f idx c) = endp c
  /\ length (dat (dat_alter f idx c)) = length (dat c).
Proof.
  unfold dat_alter. destruct (idx <? 0); simpl; by rewrite ?length_alter.
Qed.

Lemma same_pending_refl c : same_pending c c.
Proof. by repeat split. Qed.

Lemma same_pending_trans c1 c2 c3 :
  same_pending c1 c2 -> same_pending c2 c3 -> same_pending c1 c3.
Proof.
  intros (?&?&?&Ha) (?&?&?&Hb). repeat split; congruence.
Qed.

Lemma same_pending_set_insp c v idx : same_pending c (dat_alter (set_insp v) idx c).
Proof.
  destruct (dat_alter_base (set_insp v) idx c) as (?&?&?).
  repeat split; try done. intros j. rewrite dat_at_alter. by case_decide.
Qed.

Lemma fmap_process_fst target fm m : (fmap_process target fm m).1 = fmap_clear fm.
Proof.
  revert m. induction fm as [|f rest IH]; intros m; simpl; [done|].
  destruct (bp f =? 0); [done|].
  specialize (IH (store m (bp f)
    (Z.lor (load m (bp f)) (fix_value target (bp f) (ls f) (ad f))))).
  destruct (fmap_process _ rest _). simpl in *. by rewrite IH.
Qed.

Lemma process_fix_map_fst c idx m : (process_fix_map c idx m).1 = drain c idx.
Proof.
  unfold process_fix_map, drain.
  pose proof (fmap_process_fst (insp (dat_at c idx)) (fmap (dat_at c idx)) m) as H.
  destruct (fmap_process _ _ _) as [fm m']. simpl in *. subst fm.
  unfold dat_alter. destruct (Z.ltb_spec idx 0); [done|]. f_equal.
  apply list_alter_ext; [|done..]. intros d Hd. unfold dat_at.
  destruct (Z.ltb_spec idx 0); [lia|]. by rewrite Hd.
Qed.

Lemma fmap_clear_drained fm : prefix_ok fm -> drained (fmap_clear fm).
Proof.
  induction fm as [|f rest IH]; simpl; intros H; [constructor|].
  destruct (Z.eqb_spec (bp f) 0).
  - by constructor.
  - constructor; [done|by apply IH].
Qed.

Lemma drained_prefix_ok fm : drained fm -> prefix_ok fm.
Proof.
  induction 1 as [|f rest Hf Hrest IH]; simpl; [done|].
  by destruct (Z.eqb_spec (bp f) 0).
Qed.

Lemma drained_slots_in lo hi fm : drained fm -> slots_in lo hi fm.
Proof. intros H. eapply Forall_impl; [exact H|]. by left. Qed.

Lemma fmap_insert_prefix_ok f fm : prefix_ok fm -> prefix_ok (fmap_insert f fm).
Proof.
  induction fm as [|g rest IH]; simpl; [done|].
  destruct (Z.eqb_spec (bp g) 0); intros H; simpl.
  - destruct (bp f =? 0); [done|by apply drained_prefix_ok].
  - destruct (Z.eqb_spec (bp g) 0); [lia|by apply IH].
Qed.

Lemma fmap_insert_slots_in lo hi f fm :
  bp f = 0 \/ lo <= bp f < hi -> slots_in lo hi fm -> slots_in lo hi (fmap_insert f fm).
Proof.
  intros Hf. induction 1 as [|g rest Hg Hrest IH]; simpl; [constructor|].
  destruct (bp g =? 0); by constructor.
Qed.

Lemma slots_in_mono lo hi hi' fm : hi <= hi' -> slots_in lo hi fm -> slots_in lo hi' fm.
Proof.
  intros ? H. eapply Forall_impl; [exact H|].
  intros f [?|?]; [by left|right; lia].
Qed.

Lemma dat_at_oob c j :
  ~ (0 <= j < Z.of_nat (length (dat c))) -> dat_at c j = zero_insns_info.
Proof.
  intros H. unfold dat_at. destruct (Z.ltb_spec j 0); [done|].
  rewrite (proj2 (lookup_ge_None (dat c) (Z.to_nat j))); [done|lia].
Qed.

Lemma fmap_dat_at_drain c i j :
  fmap (dat_at (drain c i) j) =
  if decide (j = i) then fmap_clear (fmap (dat_at c j)) else fmap (dat_at c j).
Proof.
  unfold drain. rewrite dat_at_alter. repeat case_decide; try done; try lia.
  subst j. rewrite dat_at_oob by lia. reflexivity.
Qed.

Lemma fmap_dat_at_insert c k b l a j :
  fmap (dat_at (insert_fix_map c k b l a) j) =
  if decide (j = k /\ 0 <= k < Z.of_nat (length (dat c)))
  then fmap_insert (FixInfo b l a) (fmap (dat_at c j)) else fmap (dat_at c j).
Proof. unfold insert_fix_map. rewrite dat_at_alter. by case_decide. Qed.

Lemma drain_base c i :
  basep (drain c i) = basep c /\ endp (drain c i) = endp c
  /\ length (dat (drain c i)) = length (dat c).
Proof. apply dat_alter_base. Qed.

Lemma deferral_base n i c d c' :
  deferral n i c d c' ->
  basep c' = basep c /\ endp c' = endp c /\ length (dat c') = length (dat c).
Proof.
  destruct 1 as [c' (?&?&?&_)|c1 j b l a (?&?&?&_) _ _]; [done|].
  unfold insert_fix_map. destruct (dat_alter_base
    (fun d => InsnsInfo (insp d) (fmap_insert (FixInfo b l a) (fmap d))) j c1)
    as (?&?&?).
  repeat split; congruence.
Qed.

(** The pending lists after a deferral: unchanged at and before [i]. *)
Lemma deferral_fmap_le n i c d c' j :
  deferral n i c d c' -> j <= i -> fmap (dat_at c' j) = fmap (dat_at c j).
Proof.
  destruct 1 as [c' (_&_&_&H)|c1 k b l a (_&_&_&H) Hk _]; intros Hj; [done|].
  rewrite fmap_dat_at_insert. case_decide; [lia|done].
Qed.

(** ... and at the records past the window. *)
Lemma deferral_fmap_ge n i c d c' j :
  deferral n i c d c' -> n <= j -> fmap (dat_at c' j) = fmap (dat_at c j).
Proof.
  destruct 1 as [c' (_&_&_&H)|c1 k b l a (_&_&Hl&H) Hk Hn]; intros Hj; [done|].
  rewrite fmap_dat_at_insert. case_decide; [lia|done].
Qed.

Lemma ctx_inv_step lo hi hi' n i c d c_pre :
  ctx_inv lo hi n i c -> deferral n i c d c_pre -> hi <= hi' -> i < n ->
  match d with Some (_, b) => lo <= b < hi' | None => True end ->
  ctx_inv lo hi' n (i + 1) (drain c_pre i).
Proof.
  intros Hinv Hd Hhi Hin Hb j. rewrite fmap_dat_at_drain.
  assert (prefix_ok (fmap (dat_at c_pre j))
          /\ slots_in lo hi' (fmap (dat_at c_pre j))) as [Hp Hs].
  { destruct Hd as [c' (_&_&_&H)|c1 k b l a (_&_&_&H) Hk Hkn].
    - rewrite H. destruct (Hinv j) as (?&?&_). eauto using slots_in_mono.
    - rewrite fmap_dat_at_insert, H. destruct (Hinv j) as (?&?&_).
      case_decide; [|by eauto using slots_in_mono].
      split; [by apply fmap_insert_prefix_ok|].
      apply fmap_insert_slots_in; [by right|by eauto using slots_in_mono]. }
  case_decide as Hji.
  - pose proof (fmap_clear_drained _ Hp) as Hdr.
    split; [by apply drained_prefix_ok|]. split; [by apply drained_slots_in|done].
  - split; [done|]. split; [done|]. intros [Hlt|Hge].
    + rewrite (deferral_fmap_le n i c d c_pre j Hd) by lia.
      apply (Hinv j). lia.
    + rewrite (deferral_fmap_ge n i c d c_pre j Hd) by lia.
      apply (Hinv j). lia.
Qed.

(** ** Memory frames *)

Lemma touched_only_refl P m : touched_only P m m.
Proof. by intros a _. Qed.

Lemma touched_only_trans P m1 m2 m3 :
  touched_only P m1 m2 -> touched_only P m2 m3 -> touched_only P m1 m3.
Proof. intros H1 H2 a Ha. by rewrite H2, H1. Qed.

Lemma touched_only_mono (P Q : Z -> Prop) m m' :
  (forall a, P a -> Q a) -> touched_only P m m' -> touched_only Q m m'.
Proof. intros HPQ H a Ha. apply H. auto. Qed.

Lemma touched_only_store (P : Z -> Prop) m a w : P a -> touched_only P m (store m a w).
Proof.
  intros Ha x Hx. unfold store. destruct (Z.eqb_spec x a); [by subst|done].
Qed.

Lemma touched_only_store64 (P : Z -> Prop) m a v :
  P a -> P (a + 4) -> touched_only P m (store64 m a v).
Proof.
  intros ??. unfold store64.
  eapply touched_only_trans; by apply touched_only_store.
Qed.

Lemma touched_only_memcpy m0 m dst src n :
  touched_only (fun a => dst <= a < dst + 4 * Z.of_nat n) m (memcpy_words m0 m dst src n).
Proof.
  revert m dst src. induction n as [|n IH]; intros m dst src; simpl memcpy_words.
  - apply touched_only_refl.
  - eapply touched_only_trans;
      [|eapply touched_only_mono; [|apply IH]; cbv beta; lia].
    apply touched_only_store. cbv beta. lia.
Qed.

Lemma touched_only_fmap_process target fm m :
  touched_only (fun a => exists f, f ∈ fm /\ bp f ≠ 0 /\ a = bp f)
               m (fmap_process target fm m).2.
Proof.
  revert m. induction fm as [|f rest IH]; intros m; simpl; [apply touched_only_refl|].
  destruct (Z.eqb_spec (bp f) 0); [apply touched_only_refl|].
  specialize (IH (store m (bp f)
    (Z.lor (load m (bp f)) (fix_value target (bp f) (ls f) (ad f))))).
  destruct (fmap_process _ rest _) as [rest' m2]. simpl in *.
  eapply touched_only_trans;
    [|eapply touched_only_mono; [|exact IH];
      intros a (g&?&?&?); exists g; split; [by right|done]].
  apply touched_only_store. exists f. split; [left|done].
Qed.

Lemma touched_only_process_fix_map c idx m :
  touched_only (pending_bp c idx) m (process_fix_map c idx m).2.
Proof.
  unfold process_fix_map, pending_bp.
  pose proof (touched_only_fmap_process (insp (dat_at c idx)) (fmap (dat_at c idx)) m) as H.
  by destruct (fmap_process _ _ _).
Qed.

(** ** The state operations *)

Lemma resolve_eq idx s :
  resolve idx s =
  State (inp s) (outp s) (drain (ctx s) idx)
        (process_fix_map (ctx s) idx (mem s)).2 (log s).
Proof.
  unfold resolve. rewrite <- process_fix_map_fst with (m := mem s).
  by destruct (process_fix_map _ _ _).
Qed.

Lemma window_current_idx lo base n i s :
  window_inv lo base n i s -> get_ref_ins_index (ctx s) (inp s) = i.
Proof.
  intros [Hinp Hbase _ Hidx Hn _ _ _ _ _]. unfold A64_MAX_INSTRUCTIONS in Hn.
  rewrite get_ref_ins_index_small; rewrite Hinp, Hbase; lia.
Qed.

Lemma pending_bp_deferral n i c d c' a :
  deferral n i c d c' -> pending_bp c' i a -> pending_bp c i a.
Proof.
  intros Hd. unfold pending_bp. by rewrite (deferral_fmap_le n i c d c' i Hd) by lia.
Qed.

Lemma touched_only_resolve (P : Z -> Prop) n i c d c' m :
  deferral n i c d c' -> (forall a, pending_bp c i a -> P a) ->
  touched_only P m (process_fix_map c' i m).2.
Proof.
  intros Hd HP. eapply touched_only_mono; [|apply touched_only_process_fix_map].
  intros a Ha. apply HP. by eapply pending_bp_deferral.
Qed.

(** ** Indices of targets inside the window *)

Lemma is_in_fixing_range_dat_alter f idx c a :
  is_in_fixing_range (dat_alter f idx c) a = is_in_fixing_range c a.
Proof.
  unfold is_in_fixing_range. by destruct (dat_alter_base f idx c) as (-> & -> & _).
Qed.

Lemma get_ref_ins_index_dat_alter f idx c a :
  get_ref_ins_index (dat_alter f idx c) a = get_ref_ins_index c a.
Proof.
  unfold get_ref_ins_index. by destruct (dat_alter_base f idx c) as (-> & _).
Qed.

Lemma ref_index_in_window c a n base :
  basep c = base -> endp c = base + 4 * n -> n <= A64_MAX_INSTRUCTIONS ->
  is_in_fixing_range c a = true ->
  get_ref_ins_index c a < n.
Proof.
  unfold is_in_fixing_range, A64_MAX_INSTRUCTIONS. intros Hb He Hn Hin.
  apply andb_true_iff in Hin as [H1%Z.leb_le H2%Z.ltb_lt].
  rewrite get_ref_ins_index_small; lia.
Qed.

(** [a & ~3ull] read back as [int64_t]. *)
Lemma align_down_4 a :
  0 <= a < 2 ^ 63 -> s64 (Z.land (u64 a) (u64 (Z.lnot 3))) = 4 * (a / 4).
Proof.
  intros Ha. unfold u64 at 1. rewrite (Z.mod_small a) by lia.
  assert (Z.land a (u64 (Z.lnot 3)) = 4 * (a / 4)) as ->.
  { unfold u64. rewrite <- (Z.land_ones (Z.lnot 3) 64) by lia.
    rewrite Z.land_assoc, (Z.land_comm a), <- Z.land_assoc.
    rewrite (Z.land_ones a 64), (Z.mod_small a) by lia.
    rewrite Z.land_comm, <- Z.ldiff_land.
    change 3 with (Z.ones 2). rewrite Z.ldiff_ones_r by lia.
    rewrite Z.shiftr_div_pow2, Z.shiftl_mul_pow2 by lia. lia. }
  unfold s64, u64. rewrite Z.mod_small by lia.
  destruct (Z.ltb_spec (4 * (a / 4)) (2 ^ 63)); lia.
Qed.

(** The index [ADR] derives from a target in the window is in the window
    or, for an unaligned window, far past the array. *)
Lemma adr_ref_index_in_window c a n base :
  basep c = base -> endp c = base + 4 * n -> n <= A64_MAX_INSTRUCTIONS ->
  0 <= base < 2 ^ 62 ->
  is_in_fixing_range c a = true ->
  let j := get_ref_ins_index c (s64 (Z.land (u64 a) (u64 (Z.lnot 3)))) in
  j < n \/ A64_MAX_INSTRUCTIONS <= j.
Proof.
  unfold is_in_fixing_range, A64_MAX_INSTRUCTIONS. intros Hb He Hn Hr Hin.
  apply andb_true_iff in Hin as [H1%Z.leb_le H2%Z.ltb_lt].
  rewrite align_down_4 by lia. cbv zeta.
  destruct (Z.le_gt_cases base (4 * (a / 4))).
  - left. rewrite get_ref_ins_index_small; lia.
  - right. unfold get_ref_ins_index, s64, u64. rewrite Hb.
    change (2 ^ 64) with 18446744073709551616.
    change (2 ^ 63) with 9223372036854775808.
    change (2 ^ 62) with 4611686018427387904 in Hr.
    match goal with
    | |- context [?x <? ?y] => destruct (Z.ltb_spec x y)
    end; lia.
Qed.

(** ** Proof automation for the rewriters *)

Ltac same_pending_tac :=
  repeat (eapply same_pending_trans; [|apply same_pending_set_insp]);
  apply same_pending_refl.

Ltac bool_to_prop :=
  repeat match goal with
  | H : negb _ = true |- _ => apply negb_true_iff in H
  | H : negb _ = false |- _ => apply negb_false_iff in H
  | H : _ && _ = true |- _ => apply andb_true_iff in H; destruct H
  | H : _ || _ = false |- _ => apply orb_false_iff in H; destruct H
  | H : (_ =? _) = true |- _ => apply Z.eqb_eq in H
  | H : (_ =? _) = false |- _ => apply Z.eqb_neq in H
  | H : (_ <=? _) = true |- _ => apply Z.leb_le in H
  | H : (_ <=? _) = false |- _ => apply Z.leb_gt in H
  | H : (_ <? _) = true |- _ => apply Z.ltb_lt in H
  | H : (_ <? _) = false |- _ => apply Z.ltb_ge in H
  end.

Ltac state_simpl :=
  rewrite ?resolve_eq;
  cbv beta iota zeta delta [advance_in advance_out poke poke64 nop_realign defer
    with_mem with_ctx with_log reset_current_ins inp outp ctx mem log].

Ltac frame_tac :=
  lazymatch goal with
  | |- touched_only _ ?m ?m => apply touched_only_refl
  | H : touched_only _ ?m ?m1 |- touched_only _ ?m ?m1 =>
      eapply touched_only_mono; [|exact H]; cbv beta; intros; left; lia
  | |- touched_only _ _ (store _ _ _) =>
      eapply touched_only_trans;
      [|apply touched_only_store; cbv beta; left; lia]; frame_tac
  | |- touched_only _ _ (store64 _ _ _) =>
      eapply touched_only_trans;
      [|apply touched_only_store64; cbv beta; left; lia]; frame_tac
  | |- touched_only _ _ (memcpy_words _ _ _ _ _) =>
      eapply touched_only_trans;
      [|eapply touched_only_mono; [|apply touched_only_memcpy];
        cbv beta; intros; left; lia]; frame_tac
  end.

(** The facts of a window, about a state given by its fields. *)
Ltac window_facts Hw :=
  pose proof (wi_base _ _ _ _ _ Hw);
  pose proof (wi_end _ _ _ _ _ Hw);
  pose proof (wi_n _ _ _ _ _ Hw);
  pose proof (wi_range _ _ _ _ _ Hw);
  pose proof (wi_len _ _ _ _ _ Hw);
  pose proof (wi_align _ _ _ _ _ Hw);
  cbn [inp outp ctx mem log] in *.

(** Find the deferral a rewritten state went through. *)
Ltac find_deferral n i out :=
  match goal with
  | |- step_ok _ _ (State _ _ ?c0 _ _) (State _ _ (drain ?c _) _ _) =>
      let d := fresh "Hdef" in
      first
        [ assert (deferral n i c0 None c) as d
            by (apply deferral_none; same_pending_tac)
        | eassert (deferral n i c0 (Some (_, out)) c) as d
            by (apply deferral_one;
                [ same_pending_tac
                | lia
                | first
                    [ left; eapply ref_index_in_window; first [eassumption|reflexivity]
                    | match goal with
                      | Hlen : Z.of_nat (length (dat _)) = A64_MAX_INSTRUCTIONS |- _ =>
                          rewrite Hlen
                      end;
                      eapply adr_ref_index_in_window; first [eassumption|reflexivity] ] ]) ]
  end.

Ltac step_ok_tac :=
  constructor; cbn [inp outp ctx mem log];
  try lia;
  try (left; lia);
  try (right; assumption);
  try (unfold phi; repeat case_match; bool_to_prop; lia);
  try (eexists _, _; split; [eassumption|split; [reflexivity|first [exact I|lia]]]);
  try (eapply touched_only_trans;
       [|eapply touched_only_resolve; [eassumption|by right]]; frame_tac).

(** ** One rewriter, one step *)

Lemma fix_branch_imm_step lo base n i s s' :
  window_inv lo base n i s -> i < n ->
  __fix_branch_imm s = (true, s') -> step_ok n i s s'.
Proof.
  intros Hw Hi Hrun.
  pose proof (window_current_idx _ _ _ _ _ Hw) as Hidx.
  destruct s as [pc out c m l]. window_facts Hw.
  unfold __fix_branch_imm, begin_ins, get_and_set_current_index in Hrun.
  cbn [inp outp ctx mem log] in Hrun.
  rewrite Hidx in Hrun. clear Hidx.
  cbv zeta in Hrun. cbn [with_ctx inp outp ctx mem log] in Hrun.
  rewrite ?land_7, ?is_in_fixing_range_dat_alter, ?get_ref_ins_index_dat_alter in Hrun.
  repeat case_match; simplify_eq; bool_to_prop.
  all: state_simpl; find_deferral n i out; step_ok_tac.
Qed.

Lemma fix_cond_comp_test_branch_step lo base n i s s' :
  window_inv lo base n i s -> i < n ->
  __fix_cond_comp_test_branch s = (true, s') -> step_ok n i s s'.
Proof.
  intros Hw Hi Hrun.
  pose proof (window_current_idx _ _ _ _ _ Hw) as Hidx.
  destruct s as [pc out c m l]. window_facts Hw.
  unfold __fix_cond_comp_test_branch, begin_ins, get_and_set_current_index in Hrun.
  cbn [inp outp ctx mem log] in Hrun.
  destruct (cond_branch_lmask (load m pc)) as [lmask|]; [|done].
  rewrite Hidx in Hrun. clear Hidx.
  cbv zeta in Hrun. cbn [with_ctx inp outp ctx mem log] in Hrun.
  rewrite ?land_7, ?is_in_fixing_range_dat_alter, ?get_ref_ins_index_dat_alter in Hrun.
  repeat case_match; simplify_eq; bool_to_prop.
  all: state_simpl; find_deferral n i out; step_ok_tac.
Qed.

Lemma fix_pcreladdr_step lo base n i s s' :
  window_inv lo base n i s -> i < n ->
  __fix_pcreladdr s = (true, s') -> step_ok n i s s'.
Proof.
  intros Hw Hi Hrun.
  pose proof (window_current_idx _ _ _ _ _ Hw) as Hidx.
  destruct s as [pc out c m l]. window_facts Hw.
  unfold __fix_pcreladdr, emit_ldr_literal, begin_ins,
    get_and_set_current_index in Hrun.
  cbn [inp outp ctx mem log] in Hrun.
  rewrite Hidx in Hrun. clear Hidx.
  cbv zeta in Hrun. cbn [with_ctx with_log inp outp ctx mem log] in Hrun.
  rewrite ?land_7, ?is_in_fixing_range_dat_alter, ?get_ref_ins_index_dat_alter in Hrun.
  repeat case_match; simplify_eq; bool_to_prop.
  all: state_simpl; find_deferral n i out; step_ok_tac.
Qed.

(** The padding loops end within three NOPs. *)

Lemma pad_literal_unfold fuel fa s :
  pad_literal fuel fa s =
  if Z.land (outp s + 4 * 2) fa =? 0 then Some s
  else match fuel with
       | O => None
       | S fuel' => pad_literal fuel' fa (advance_out 1 (poke 0 A64_NOP s))
       end.
Proof. by destruct fuel. Qed.

Lemma pad_offset_unfold fuel fa absolute_addr s :
  pad_offset fuel fa absolute_addr s =
  if Z.land (Z.shiftr (absolute_addr - outp s) 2) fa =? 0 then Some s
  else match fuel with
       | O => None
       | S fuel' => pad_offset fuel' fa absolute_addr (advance_out 1 (poke 0 A64_NOP s))
       end.
Proof. by destruct fuel. Qed.

Ltac pad_tac :=
  eexists _, _; split; [reflexivity|];
  split; [lia|]; split; [lia|]; split; [lia|]; frame_tac.

Lemma pad_literal_spec fuel fa pc out c m l :
  (3 <= fuel)%nat -> out mod 4 = 0 -> fa = 3 \/ fa = 7 \/ fa = 15 ->
  exists out1 m1,
    pad_literal fuel fa (State pc out c m l) = Some (State pc out1 c m1 l)
    /\ out <= out1 < out + fa + 1 /\ (out1 + 4 * 2) mod (fa + 1) = 0
    /\ out1 mod 4 = 0
    /\ touched_only (fun a => out <= a < out1 \/ False) m m1.
Proof.
  intros Hfuel Hal Hfa.
  destruct fuel as [|[|[|fuel]]]; [lia..|].
  do 4 (rewrite pad_literal_unfold; state_simpl).
  destruct Hfa as [->|[->| ->]]; rewrite ?land_3, ?land_7, ?land_15.
  all: repeat case_match; bool_to_prop; try lia.
  all: pad_tac.
Qed.

Lemma pad_offset_spec fuel fa absolute_addr pc out c m l :
  (3 <= fuel)%nat -> fa = 0 \/ fa = 1 \/ fa = 3 ->
  exists out1 m1,
    pad_offset fuel fa absolute_addr (State pc out c m l) = Some (State pc out1 c m1 l)
    /\ out <= out1 <= out + 4 * fa
    /\ (out1 - out) mod 4 = 0
    /\ touched_only (fun a => out <= a < out1 \/ False) m m1.
Proof.
  intros Hfuel Hfa.
  destruct fuel as [|[|[|fuel]]]; [lia..|].
  do 4 (rewrite pad_offset_unfold; state_simpl).
  rewrite !shiftr_2.
  destruct Hfa as [->|[->| ->]]; rewrite ?Z.land_0_r, ?land_1, ?land_3.
  all: repeat case_match; bool_to_prop; try lia.
  all: eexists _, _; split; [reflexivity|]; split; [lia|]; split; [lia|]; frame_tac.
Qed.

Lemma loadlit_form_aligned ins mask fa :
  loadlit_form ins = Some (mask, fa) -> fa = 3 \/ fa = 7 \/ fa = 15.
Proof.
  unfold loadlit_form. cbv zeta. intros H.
  repeat case_match; simplify_eq; auto.
Qed.

Lemma with_ctx_State c' pc out c m l :
  with_ctx c' (State pc out c m l) = State pc out c' m l.
Proof. reflexivity. Qed.

Lemma fix_loadlit_step lo base n i s fuel :
  window_inv lo base n i s -> i < n -> (3 <= fuel)%nat ->
  exists r, __fix_loadlit fuel s = Some r
            /\ (r.1 = false -> r.2 = s)
            /\ (r.1 = true -> step_ok n i s r.2).
Proof.
  intros Hw Hi Hfuel.
  pose proof (window_current_idx _ _ _ _ _ Hw) as Hidx.
  destruct s as [pc out c m l]. window_facts Hw.
  unfold __fix_loadlit, begin_ins, get_and_set_current_index.
  cbn [inp outp ctx mem log].
  rewrite Hidx. clear Hidx.
  cbv zeta. cbn [with_ctx inp outp ctx mem log].
  destruct (Z.eqb_spec (Z.land (load m pc) 4278190080) 3623878656).
  { eexists; split; [reflexivity|]. split; [done|]. intros _. cbn [fst snd].
    state_simpl. find_deferral n i out. step_ok_tac. }
  destruct (loadlit_form (load m pc)) as [[mask fa]|] eqn:Hform.
  2: { eexists; split; [reflexivity|]. split; [done|]. done. }
  pose proof (loadlit_form_aligned _ _ _ Hform) as Hfa.
  rewrite !with_ctx_State.
  match goal with |- context [if ?b then _ else _] => destruct b end.
  - destruct (pad_literal_spec fuel fa pc out (dat_alter (set_insp out) i c) m l)
      as (out1 & m1 & -> & Hout1 & Hmod & Hal1 & Hfr); [done..|].
    eexists; split; [reflexivity|]. split; [done|]. intros _. cbn [fst snd].
    state_simpl. find_deferral n i out.
    destruct Hfa as [->|[->| ->]]; change ((3 + 1) / 4) with 1 in *;
      change ((7 + 1) / 4) with 2 in *; change ((15 + 1) / 4) with 4 in *.
    all: step_ok_tac.
  - assert (Z.shiftr fa 2 = 0 \/ Z.shiftr fa 2 = 1 \/ Z.shiftr fa 2 = 3) as Hfa'
      by (destruct Hfa as [->|[->| ->]]; auto).
    destruct (pad_offset_spec fuel (Z.shiftr fa 2)
                (pc + Z.land (u32 (Z.shiftr (s32 (shl32 (load m pc) 8)) (8 + 5 - 2)))
                             (not32 3))
                pc out (dat_alter (set_insp out) i c) m l)
      as (out1 & m1 & -> & Hout1 & Hmod & Hfr); [done..|].
    eexists; split; [reflexivity|]. split; [done|]. intros _. cbn [fst snd].
    state_simpl. find_deferral n i out.
    destruct Hfa as [->|[->| ->]]; change (Z.shiftr 3 2) with 0 in *;
      change (Z.shiftr 7 2) with 1 in *; change (Z.shiftr 15 2) with 3 in *.
    all: step_ok_tac.
Qed.

Lemma fix_branch_imm_false s s1 : __fix_branch_imm s = (false, s1) -> s1 = s.
Proof.
  unfold __fix_branch_imm, begin_ins, get_and_set_current_index. cbv zeta.
  intros H. repeat case_match; by simplify_eq.
Qed.

Lemma fix_cond_comp_test_branch_false s s1 :
  __fix_cond_comp_test_branch s = (false, s1) -> s1 = s.
Proof.
  unfold __fix_cond_comp_test_branch, begin_ins, get_and_set_current_index.
  cbv zeta. intros H. repeat case_match; by simplify_eq.
Qed.

Lemma fix_pcreladdr_false s s1 : __fix_pcreladdr s = (false, s1) -> s1 = s.
Proof.
  unfold __fix_pcreladdr, begin_ins, get_and_set_current_index. cbv zeta.
  intros H. repeat case_match; by simplify_eq.
Qed.

(** One turn of the driver's loop returns and is a step. *)
Lemma fix_one_step lo base n i s fuel :
  window_inv lo base n i s -> i < n -> (3 <= fuel)%nat ->
  exists s', fix_one fuel s = Some s' /\ step_ok n i s s'.
Proof.
  intros Hw Hi Hfuel. unfold fix_one.
  destruct (__fix_branch_imm s) as [[] s1] eqn:H1.
  { eauto using fix_branch_imm_step. }
  apply fix_branch_imm_false in H1 as ->.
  destruct (__fix_cond_comp_test_branch s) as [[] s2] eqn:H2.
  { eauto using fix_cond_comp_test_branch_step. }
  apply fix_cond_comp_test_branch_false in H2 as ->.
  destruct (fix_loadlit_step lo base n i s fuel Hw Hi Hfuel)
    as ([[] s3] & -> & Hf & Ht); simpl in *.
  { eauto. }
  rewrite (Hf eq_refl).
  destruct (__fix_pcreladdr s) as [[] s4] eqn:H4.
  { eauto using fix_pcreladdr_step. }
  apply fix_pcreladdr_false in H4 as ->.
  eexists; split; [reflexivity|].
  pose proof (window_current_idx _ _ _ _ _ Hw) as Hidx.
  destruct s as [pc out c m l]. window_facts Hw.
  unfold begin_ins, get_and_set_current_index. cbn [inp outp ctx mem log].
  rewrite Hidx. state_simpl. find_deferral n i out.
  constructor; cbn [inp outp ctx mem log]; try lia.
  - unfold phi; repeat case_match; bool_to_prop; lia.
  - eexists _, _; split; [eassumption|split; [reflexivity|exact I]].
  - eapply touched_only_trans; [|apply touched_only_store; cbv beta; left; lia].
    eapply touched_only_resolve; [eassumption|by right].
Qed.

(** ** The driver *)

Lemma pending_bp_in_range lo hi n i c j a :
  ctx_inv lo hi n i c -> pending_bp c j a -> lo <= a < hi.
Proof.
  intros Hinv (f & Hf & Hbp & ->). destruct (Hinv j) as (_ & Hs & _).
  unfold slots_in in Hs. rewrite Forall_forall in Hs.
  destruct (Hs f Hf); [done|lia].
Qed.

Lemma step_window lo base n i s s' :
  window_inv lo base n i s -> i < n -> step_ok n i s s' ->
  window_inv lo base n (i + 1) s'.
Proof.
  intros [Hinp Hbase Hend Hidx Hn Hr Hlen Hlo Hal Hctx] Hi
         [Hinp' Hout _ Hal' _ (d & c_pre & Hd & Hc & Hb) _].
  destruct (deferral_base _ _ _ _ _ Hd) as (Hb1 & He1 & Hl1).
  destruct (drain_base c_pre i) as (Hb2 & He2 & Hl2).
  constructor; rewrite ?Hc; try lia; try congruence.
  eapply ctx_inv_step; [exact Hctx|exact Hd|lia|lia|].
  destruct d as [[j b]|]; [lia|done].
Qed.

Lemma step_frame lo base n i s s' :
  window_inv lo base n i s -> step_ok n i s s' ->
  touched_only (fun a => lo <= a < outp s') (mem s) (mem s').
Proof.
  intros Hw Hs. eapply touched_only_mono; [|apply (so_frame _ _ _ _ Hs)].
  pose proof (wi_lo _ _ _ _ _ Hw). pose proof (so_out _ _ _ _ Hs).
  intros a [?|Hp]; [lia|].
  pose proof (pending_bp_in_range _ _ _ _ _ _ _ (wi_ctx _ _ _ _ _ Hw) Hp). lia.
Qed.

(** The loop over [k] instructions from instruction [i]: it returns, keeps
    the invariant, writes only output words and spends at most eight words
    per instruction, up to the alignment credit. *)
Lemma fix_loop_spec lo base n fuel (k : nat) :
  (3 <= fuel)%nat ->
  forall i s, window_inv lo base n i s -> i + Z.of_nat k <= n ->
  exists s', fix_loop fuel k s = Some s'
    /\ window_inv lo base n (i + Z.of_nat k) s'
    /\ outp s <= outp s'
    /\ outp s' - outp s + 4 * phi (outp s') <= 32 * Z.of_nat k + 4 * phi (outp s)
    /\ touched_only (fun a => lo <= a < outp s') (mem s) (mem s').
Proof.
  intros Hfuel. induction k as [|k IH]; intros i s Hw Hk.
  - exists s. simpl. replace (i + Z.of_nat 0) with i by lia.
    split; [done|]. split; [done|]. split; [lia|]. split; [lia|].
    apply touched_only_refl.
  - destruct (fix_one_step lo base n i s fuel Hw) as (s1 & H1 & Hs1); [lia|done|].
    pose proof (step_window _ _ _ _ _ _ Hw ltac:(lia) Hs1) as Hw1.
    destruct (IH (i + 1) s1 Hw1) as (s' & H2 & Hw' & Hout & Hpot & Hfr); [lia|].
    exists s'. simpl. rewrite H1, H2.
    pose proof (so_out _ _ _ _ Hs1). pose proof (so_pot _ _ _ _ Hs1).
    replace (i + Z.of_nat (S k)) with (i + 1 + Z.of_nat k) by lia.
    split; [done|]. split; [done|]. split; [lia|]. split; [lia|].
    eapply touched_only_trans; [|exact Hfr].
    eapply touched_only_mono; [|exact (step_frame _ _ _ _ _ _ Hw Hs1)].
    cbv beta. lia.
Qed.

Lemma tail_jump_spec s :
  outp s mod 4 = 0 ->
  inp (tail_jump s) = inp s /\ ctx (tail_jump s) = ctx s /\ log (tail_jump s) = log s
  /\ outp s + 4 <= outp (tail_jump s) <= outp s + 20
  /\ touched_only (fun a => outp s <= a < outp (tail_jump s) \/ False)
                  (mem s) (mem (tail_jump s)).
Proof.
  intros Hal. destruct s as [pc out c m l]. unfold tail_jump. cbv zeta.
  cbn [inp outp ctx mem log]. rewrite land_7.
  repeat case_match; bool_to_prop; state_simpl.
  all: repeat split; try lia; frame_tac.
Qed.

Lemma ctx_inv_init lo hi n i base count : ctx_inv lo hi n i (init_context base count).
Proof.
  intros j.
  assert (drained (fmap (dat_at (init_context base count) j))) as Hd.
  { unfold dat_at, init_context. cbn [dat].
    destruct (j <? 0); [by repeat constructor|].
    destruct (replicate _ zero_insns_info !! Z.to_nat j) as [d|] eqn:Hl; simpl.
    - apply lookup_replicate in Hl as [-> _]. by repeat constructor.
    - by repeat constructor. }
  eauto using drained_prefix_ok, drained_slots_in.
Qed.

Lemma window_inv_init base count out m l :
  0 <= count <= A64_MAX_INSTRUCTIONS -> 0 <= base < 2 ^ 62 -> out mod 4 = 0 ->
  window_inv out base count 0 (State base out (init_context base count) m l).
Proof.
  intros Hc Hb Hal. constructor; cbn [inp outp ctx mem log]; try done; try lia.
  apply ctx_inv_init.
Qed.

(** The relocator returns, leaves every pending list drained, writes only
    into [[outp0, outp)] and emits at most [8 * count + 6] words. *)
Lemma fix_instructions_spec fuel m l base count out :
  (3 <= fuel)%nat -> 0 <= count <= A64_MAX_INSTRUCTIONS ->
  0 <= base < 2 ^ 62 -> out mod 4 = 0 ->
  exists s', __fix_instructions fuel m l base count out = Some s'
    /\ inp s' = base + 4 * count
    /\ (forall j, drained (fmap (dat_at (ctx s') j)))
    /\ out + 4 <= outp s' <= out + 4 * (8 * count + 6)
    /\ touched_only (fun a => out <= a < outp s') m (mem s').
Proof.
  intros Hfuel Hc Hb Hal. unfold __fix_instructions.
  destruct (Z.ltb_spec A64_MAX_INSTRUCTIONS count); [lia|].
  pose proof (window_inv_init base count out m l Hc Hb Hal) as Hw.
  destruct (fix_loop_spec out base count fuel (Z.to_nat count) Hfuel 0 _ Hw)
    as (s1 & -> & Hw1 & Hout & Hpot & Hfr); [lia|].
  cbn [inp outp ctx mem log] in *.
  destruct (tail_jump_spec s1 (wi_align _ _ _ _ _ Hw1)) as (Hinp & Hctx & _ & Ht & Hft).
  eexists; split; [reflexivity|]. rewrite Hctx, Hinp.
  split.
  { rewrite (wi_inp _ _ _ _ _ Hw1). lia. }
  split.
  { intros j. destruct (wi_ctx _ _ _ _ _ Hw1 j) as (_ & _ & Hd). apply Hd. lia. }
  split.
  { unfold phi in Hpot. repeat case_match; lia. }
  eapply touched_only_trans.
  - eapply touched_only_mono; [|exact Hfr]. cbv beta. lia.
  - eapply touched_only_mono; [|exact Hft]. cbv beta. lia.
Qed.

(** ** Reading the emitted words back *)

Lemma u32_small x : 0 <= x < 2 ^ 32 -> u32 x = x.
Proof. apply Z.mod_small. Qed.

Lemma load_range m a : 0 <= load m a < 2 ^ 32.
Proof. unfold load, u32. by apply Z.mod_pos_bound. Qed.

Lemma load_store_eq m a a' w : a' = a -> load (store m a w) a' = u32 w.
Proof.
  intros ->. unfold load, store. rewrite Z.eqb_refl. unfold u32.
  by rewrite Z.mod_mod.
Qed.

Lemma load_store_ne m a a' w : a' ≠ a -> load (store m a w) a' = load m a'.
Proof.
  intros H. unfold load, store. by destruct (Z.eqb_spec a' a).
Qed.

Lemma lor_range a b k :
  0 <= k -> 0 <= a < 2 ^ k -> 0 <= b < 2 ^ k -> 0 <= Z.lor a b < 2 ^ k.
Proof.
  intros Hk Ha Hb.
  assert (Z.lor a b = Z.lor a b mod 2 ^ k) as ->.
  { rewrite <- Z.land_ones, Z.land_lor_distr_l, !Z.land_ones by lia.
    by rewrite !Z.mod_small by lia. }
  apply Z.mod_pos_bound. by apply Z.pow_pos_nonneg.
Qed.

Lemma land_range a b k :
  0 <= k -> 0 <= a < 2 ^ k -> 0 <= Z.land a b < 2 ^ k.
Proof.
  intros Hk Ha.
  assert (Z.land a b = Z.land a b mod 2 ^ k) as ->.
  { rewrite <- (Z.land_ones (Z.land a b)) by lia.
    rewrite <- Z.land_assoc, (Z.land_comm b), Z.land_assoc, (Z.land_ones a) by lia.
    by rewrite Z.mod_small. }
  apply Z.mod_pos_bound. by apply Z.pow_pos_nonneg.
Qed.

Lemma load_after_resolve lo hi n i c c' m a :
  ctx_inv lo hi n i c -> same_pending c c' -> hi <= a ->
  load (process_fix_map c' i m).2 a = load m a.
Proof.
  intros Hinv Hsp Ha. unfold load. f_equal.
  apply (touched_only_resolve (fun a => lo <= a < hi) n i c None c' m).
  - by apply deferral_none.
  - intros b Hb. by eapply pending_bp_in_range.
  - lia.
Qed.

Lemma insp_dat_at_drain c i j : insp (dat_at (drain c i) j) = insp (dat_at c j).
Proof. unfold drain. rewrite dat_at_alter. by case_decide. Qed.

Lemma dat_at_set_insp v i c j :
  0 <= i < Z.of_nat (length (dat c)) ->
  insp (dat_at (dat_alter (set_insp v) i c) j) = if j =? i then v else insp (dat_at c j).
Proof.
  intros Hi. rewrite dat_at_alter.
  destruct (Z.eqb_spec j i); case_decide; try done; lia.
Qed.

Lemma land_range_mask26 x : 0 <= Z.land x 0x03ffffff < 2 ^ 32.
Proof.
  change 0x03ffffff with (Z.ones 26). rewrite Z.land_ones by lia.
  pose proof (Z.mod_pos_bound x (2 ^ 26) eq_refl). lia.
Qed.

Ltac load_tac :=
  unfold store64;
  repeat first [rewrite load_store_eq by lia | rewrite load_store_ne by lia].

(** ** Each word is recognised by at most one rewriter *)

Lemma land_compat x m1 v1 m2 v2 :
  Z.land x m1 = v1 -> Z.land x m2 = v2 -> Z.land v1 m2 = Z.land v2 m1.
Proof.
  intros <- <-. by rewrite <- !Z.land_assoc, (Z.land_comm m1 m2).
Qed.

(** Two masked opcode tests on one word that cannot both succeed. *)
Ltac opcode_clash :=
  match goal with
  | H1 : Z.land ?x ?m1 = ?v1, H2 : Z.land ?x ?m2 = ?v2 |- _ =>
      let Hc := fresh in
      pose proof (land_compat _ _ _ _ _ H1 H2) as Hc;
      vm_compute in Hc; discriminate Hc
  end.

Ltac bool_cases :=
  repeat match goal with
  | H : _ && _ = false |- _ => apply andb_false_iff in H; destruct H
  | H : _ || _ = true |- _ => apply orb_true_iff in H; destruct H
  end;
  bool_to_prop.

Lemma fix_branch_imm_skips s :
  Z.land (load (mem s) (inp s)) 0xfc000000 ≠ 0x14000000 ->
  Z.land (load (mem s) (inp s)) 0xfc000000 ≠ 0x94000000 ->
  __fix_branch_imm s = (false, s).
Proof.
  intros H1 H2. unfold __fix_branch_imm. cbv zeta.
  destruct (Z.eqb_spec (Z.land (load (mem s) (inp s)) 4227858432) 335544320); [done|].
  by destruct (Z.eqb_spec (Z.land (load (mem s) (inp s)) 4227858432) 2483027968).
Qed.

Lemma fix_cond_comp_test_branch_skips s :
  cond_branch_lmask (load (mem s) (inp s)) = None ->
  __fix_cond_comp_test_branch s = (false, s).
Proof. intros H. unfold __fix_cond_comp_test_branch. cbv zeta. by rewrite H. Qed.

Lemma fix_loadlit_skips fuel s :
  Z.land (load (mem s) (inp s)) 0xff000000 ≠ 0xd8000000 ->
  loadlit_form (load (mem s) (inp s)) = None ->
  __fix_loadlit fuel s = Some (false, s).
Proof.
  intros H1 H2. unfold __fix_loadlit. cbv zeta. rewrite H2.
  by destruct (Z.eqb_spec (Z.land (load (mem s) (inp s)) 4278190080) 3623878656).
Qed.

Lemma cond_branch_not_branch_imm ins lmask :
  cond_branch_lmask ins = Some lmask ->
  Z.land ins 0xfc000000 ≠ 0x14000000 /\ Z.land ins 0xfc000000 ≠ 0x94000000.
Proof.
  unfold cond_branch_lmask. cbv zeta. intros H.
  repeat case_match; simplify_eq; bool_cases.
  all: split; intros Hb; opcode_clash.
Qed.

Lemma adr_not_branch_imm ins :
  Z.land ins 0x9f000000 = 0x10000000 ->
  Z.land ins 0xfc000000 ≠ 0x14000000 /\ Z.land ins 0xfc000000 ≠ 0x94000000.
Proof. intros H. split; intros Hb; opcode_clash. Qed.

Lemma adr_not_cond_branch ins :
  Z.land ins 0x9f000000 = 0x10000000 -> cond_branch_lmask ins = None.
Proof.
  intros H. unfold cond_branch_lmask. cbv zeta.
  repeat case_match; simplify_eq; bool_cases; try done; opcode_clash.
Qed.

Lemma adr_not_loadlit ins :
  Z.land ins 0x9f000000 = 0x10000000 ->
  Z.land ins 0xff000000 ≠ 0xd8000000 /\ loadlit_form ins = None.
Proof.
  intros H. split; [intros Hb; opcode_clash|].
  unfold loadlit_form. cbv zeta.
  repeat case_match; simplify_eq; bool_cases; try done; opcode_clash.
Qed.

(** Which rewriter a turn of the loop hands the word to. *)
Lemma fix_one_branch_imm fuel s s' :
  __fix_branch_imm s = (true, s') -> fix_one fuel s = Some s'.
Proof. intros H. unfold fix_one. by rewrite H. Qed.

Lemma fix_one_cond_branch fuel s s' lmask :
  cond_branch_lmask (load (mem s) (inp s)) = Some lmask ->
  __fix_cond_comp_test_branch s = (true, s') -> fix_one fuel s = Some s'.
Proof.
  intros Hl H. unfold fix_one.
  destruct (cond_branch_not_branch_imm _ _ Hl) as [H1 H2].
  by rewrite (fix_branch_imm_skips s H1 H2), H.
Qed.

Lemma fix_one_adr fuel s s' :
  Z.land (load (mem s) (inp s)) 0x9f000000 = 0x10000000 ->
  __fix_pcreladdr s = (true, s') -> fix_one fuel s = Some s'.
Proof.
  intros Ha H. unfold fix_one.
  destruct (adr_not_branch_imm _ Ha) as [H1 H2].
  destruct (adr_not_loadlit _ Ha) as [H3 H4].
  rewrite (fix_branch_imm_skips s H1 H2).
  rewrite (fix_cond_comp_test_branch_skips s (adr_not_cond_branch _ Ha)).
  by rewrite (fix_loadlit_skips fuel s H3 H4), H.
Qed.

(** ** Bit fields as arithmetic *)

Lemma lor_disjoint a b : Z.land a b = 0 -> Z.lor a b = a + b.
Proof. intros H. rewrite Z.add_nocarry_lxor by done. by rewrite Z.lxor_lor. Qed.

Lemma land_mask x a b :
  0 <= a <= b -> Z.land x (2 ^ b - 2 ^ a) = x mod 2 ^ b - x mod 2 ^ a.
Proof.
  intros Hab.
  assert (0 < 2 ^ a) by (apply Z.pow_pos_nonneg; lia).
  assert (2 ^ a <= 2 ^ b) by (apply Z.pow_le_mono_r; lia).
  assert (Z.ldiff (Z.ones a) (Z.ones b) = 0) as Hld.
  { rewrite Z.ldiff_ones_r by lia. rewrite Z.shiftr_div_pow2 by lia.
    rewrite Z.div_small; [apply Z.shiftl_0_l|]. rewrite Z.ones_equiv. lia. }
  assert (2 ^ b - 2 ^ a = Z.ldiff (Z.ones b) (Z.ones a)) as ->.
  { rewrite <- (Z.sub_nocarry_ldiff _ _ Hld). rewrite !Z.ones_equiv. lia. }
  rewrite Z.ldiff_land, Z.land_assoc, <- Z.ldiff_land, Z.land_ones by lia.
  rewrite Z.ldiff_ones_r, Z.shiftr_div_pow2, Z.shiftl_mul_pow2 by lia.
  assert ((x mod 2 ^ b) mod 2 ^ a = x mod 2 ^ a) as <-.
  { replace b with (a + (b - a)) by lia. rewrite Z.pow_add_r by lia.
    rewrite Z.rem_mul_r by (try apply Z.pow_pos_nonneg; lia).
    rewrite Z.mul_comm, Z.mod_add by lia. by rewrite Z.mod_mod by lia. }
  pose proof (Z.div_mod (x mod 2 ^ b) (2 ^ a)). lia.
Qed.

Lemma branch_round_trip pc opc d :
  opc = 0x14000000 \/ opc = 0x94000000 -> d mod 4 = 0 -> - 2 ^ 27 <= d < 2 ^ 27 ->
  branch_target pc (branch_word opc d) = pc + d
  /\ Z.land (branch_word opc d) 0xfc000000 = opc.
Proof.
  intros Hopc Hd Hr. unfold branch_target, branch_word.
  change 0x03ffffff with (Z.ones 26). rewrite Z.land_ones by lia.
  rewrite lor_disjoint.
  2:{ rewrite <- (Z.land_ones _ 26) by lia. rewrite Z.land_comm, <- Z.land_assoc.
      destruct Hopc as [-> | ->]; by rewrite Z.land_0_r. }
  change 0xfc000000 with (2 ^ 32 - 2 ^ 26). rewrite land_mask by lia.
  unfold shl32, s32, u32. rewrite Z.shiftl_mul_pow2, !Z.shiftr_div_pow2 by lia.
  change (2 ^ (6 - 2)) with 16. change (2 ^ 2) with 4. change (2 ^ 6) with 64.
  change (2 ^ 26) with 67108864. change (2 ^ 32) with 4294967296.
  change (2 ^ 31) with 2147483648. change (2 ^ 27) with 134217728 in Hr.
  destruct Hopc as [-> | ->]; case_match; bool_to_prop; lia.
Qed.

Ltac pow_consts :=
  change (2 ^ 2) with 4 in *; change (2 ^ 3) with 8 in *;
  change (2 ^ 5) with 32 in *; change (2 ^ 6) with 64 in *;
  change (2 ^ 12) with 4096 in *;
  change (2 ^ 13) with 8192 in *; change (2 ^ 15) with 32768 in *;
  change (2 ^ 18) with 262144 in *; change (2 ^ 19) with 524288 in *;
  change (2 ^ 20) with 1048576 in *; change (2 ^ 21) with 2097152 in *;
  change (2 ^ 24) with 16777216 in *; change (2 ^ 25) with 33554432 in *;
  change (2 ^ 26) with 67108864 in *; change (2 ^ 27) with 134217728 in *;
  change (2 ^ 29) with 536870912 in *; change (2 ^ 30) with 1073741824 in *;
  change (2 ^ 31) with 2147483648 in *; change (2 ^ 32) with 4294967296 in *;
  change (2 ^ 62) with 4611686018427387904 in *;
  change (2 ^ 63) with 9223372036854775808 in *;
  change (2 ^ 64) with 18446744073709551616 in *.

(** Shifts and masks as arithmetic. *)
Ltac to_arith :=
  unfold shl32, s32, u32, u64 in *;
  rewrite ?Z.shiftl_mul_pow2, ?Z.shiftr_div_pow2 in * by lia;
  pow_consts.

Lemma land_lor_mask a b m1 m2 x :
  Z.land m1 m2 = 0 ->
  Z.land (Z.lor (Z.land a m1) (Z.land b m2)) x
  = Z.lor (Z.land a (Z.land m1 x)) (Z.land b (Z.land m2 x)).
Proof. intros _. by rewrite Z.land_lor_distr_l, <- !Z.land_assoc. Qed.

Lemma cond_branch_round_trip pc ins lmask d :
  0 <= ins < 2 ^ 32 -> d mod 4 = 0 ->
  (lmask = 0xff00001f /\ - 2 ^ 20 <= d < 2 ^ 20)
  \/ (lmask = 0xfff8001f /\ - 2 ^ 15 <= d < 2 ^ 15) ->
  cond_branch_target pc (cond_branch_word ins lmask d) lmask = pc + d
  /\ Z.land (cond_branch_word ins lmask d) lmask = Z.land ins lmask.
Proof.
  intros Hins Hd Hl. unfold cond_branch_target, cond_branch_word.
  rewrite !land_lor_mask by (destruct Hl as [[-> _]|[-> _]]; reflexivity).
  destruct Hl as [[-> Hr]|[-> Hr]].
  - change (clz32 (not32 4278190111)) with 8.
    change (Z.land (not32 4278190111) (not32 4278190111)) with (2 ^ 24 - 2 ^ 5).
    change (Z.land 4278190111 (not32 4278190111)) with 0.
    change (Z.land (not32 4278190111) 4278190111) with 0.
    change (Z.land 4278190111 4278190111) with 4278190111.
    rewrite !Z.land_0_r, Z.lor_0_r, Z.lor_0_l. split; [|done].
    rewrite land_mask by lia. to_arith. change (2 ^ 8) with 256.
    change (2 ^ (5 - 2 + 8)) with 2048.
    case_match; bool_to_prop; lia.
  - change (clz32 (not32 4294443039)) with 13.
    change (Z.land (not32 4294443039) (not32 4294443039)) with (2 ^ 19 - 2 ^ 5).
    change (Z.land 4294443039 (not32 4294443039)) with 0.
    change (Z.land (not32 4294443039) 4294443039) with 0.
    change (Z.land 4294443039 4294443039) with 4294443039.
    rewrite !Z.land_0_r, Z.lor_0_r, Z.lor_0_l. split; [|done].
    rewrite land_mask by lia. to_arith.
    change (2 ^ (5 - 2 + 13)) with 65536.
    case_match; bool_to_prop; lia.
Qed.

Lemma imm19_arith ins : imm19 ins = (ins / 32) mod 524288.
Proof.
  unfold imm19. change 0x7ffff with (Z.ones 19).
  by rewrite Z.land_ones, Z.shiftr_div_pow2 by lia.
Qed.

Lemma immlo_arith ins : immlo ins = (ins / 536870912) mod 4.
Proof.
  unfold immlo. change 3 with (Z.ones 2).
  by rewrite Z.land_ones, Z.shiftr_div_pow2 by lia.
Qed.

Lemma land_not32_3 x : Z.land x (not32 3) = x mod 4294967296 - x mod 4.
Proof. change (not32 3) with (2 ^ 32 - 2 ^ 2). by rewrite land_mask by lia. Qed.

Lemma loadlit_target_arith pc ins :
  0 <= ins < 2 ^ 32 ->
  loadlit_target pc ins = pc + 4 * simm19 ins + (if simm19 ins <? 0 then 2 ^ 32 else 0).
Proof.
  intros Hins. unfold loadlit_target, simm19. rewrite imm19_arith, land_not32_3.
  to_arith. change (2 ^ 8) with 256. change (2 ^ (8 + 5 - 2)) with 2048.
  repeat case_match; bool_to_prop; lia.
Qed.

Lemma adr_offset_arith ins :
  0 <= ins < 2 ^ 32 ->
  Z.lor (Z.land (u32 (Z.shiftr (s32 (shl32 ins 8)) (8 + 5 - 2))) (not32 3))
        (Z.shiftr (shl32 ins 1) 30)
  = simm21 ins + (if simm21 ins <? 0 then 2 ^ 32 else 0).
Proof.
  intros Hins. rewrite lor_disjoint.
  2:{ rewrite Z.land_comm, Z.land_assoc.
      assert (Z.land (Z.shiftr (shl32 ins 1) 30) (u32 (Z.shiftr (s32 (shl32 ins 8)) (8 + 5 - 2)))
              = Z.land (u32 (Z.shiftr (s32 (shl32 ins 8)) (8 + 5 - 2))) (Z.shiftr (shl32 ins 1) 30))
        as -> by apply Z.land_comm.
      rewrite <- Z.land_assoc.
      assert (Z.land (Z.shiftr (shl32 ins 1) 30) (not32 3) = 0) as ->; [|apply Z.land_0_r].
      rewrite land_not32_3. to_arith. lia. }
  unfold simm21. rewrite imm19_arith, immlo_arith, land_not32_3.
  to_arith. change (2 ^ 8) with 256. change (2 ^ (8 + 5 - 2)) with 2048.
  change (2 ^ 1) with 2.
  repeat case_match; bool_to_prop; lia.
Qed.

Lemma adr_target_arith pc ins :
  0 <= ins < 2 ^ 32 ->
  adr_target pc ins = pc + simm21 ins + (if simm21 ins <? 0 then 2 ^ 32 else 0).
Proof. intros Hins. unfold adr_target. rewrite adr_offset_arith by done. lia. Qed.

Lemma simm21_range ins : - 2 ^ 20 <= simm21 ins < 2 ^ 20.
Proof.
  unfold simm21. rewrite imm19_arith, immlo_arith. pow_consts.
  case_match; bool_to_prop; lia.
Qed.

Lemma adrp_target_arith pc ins :
  0 <= ins < 2 ^ 32 ->
  adrp_target pc ins
  = 4096 * (pc / 4096) + 4096 * simm21 ins + (if simm21 ins <? 0 then 2 ^ 32 else 0).
Proof.
  intros Hins. unfold adrp_target. cbv zeta. rewrite adr_offset_arith by done.
  assert (Z.land pc (Z.lnot 4095) = 4096 * (pc / 4096)) as ->.
  { rewrite <- Z.ldiff_land. change 4095 with (Z.ones 12).
    rewrite Z.ldiff_ones_r, Z.shiftr_div_pow2, Z.shiftl_mul_pow2 by lia. pow_consts. lia. }
  pose proof (simm21_range ins). unfold shl32, u32.
  rewrite Z.shiftl_mul_pow2 by lia. pow_consts.
  case_match; bool_to_prop; lia.
Qed.

(** The decoders are relative to the address of the instruction. *)
Lemma branch_target_rel pc ins : branch_target pc ins = pc + branch_target 0 ins.
Proof. unfold branch_target. lia. Qed.

Lemma cond_branch_target_rel pc ins lmask :
  cond_branch_target pc ins lmask = pc + cond_branch_target 0 ins lmask.
Proof. unfold cond_branch_target. lia. Qed.

Lemma loadlit_target_rel pc ins : loadlit_target pc ins = pc + loadlit_target 0 ins.
Proof. unfold loadlit_target. lia. Qed.

Lemma adr_target_rel pc ins : adr_target pc ins = pc + adr_target 0 ins.
Proof. unfold adr_target. lia. Qed.

Lemma lor_low x y k :
  0 <= k -> x mod 2 ^ k = 0 -> 0 <= y < 2 ^ k -> Z.lor x y = x + y.
Proof.
  intros Hk Hx Hy. apply lor_disjoint.
  rewrite <- (Z.mod_small y (2 ^ k)) by done.
  rewrite <- (Z.land_ones y k) by done.
  rewrite (Z.land_comm y), Z.land_assoc, Z.land_ones, Hx by done.
  apply Z.land_0_l.
Qed.

Lemma land_lmask ins :
  Z.land ins 0xff00001f = ins mod 2 ^ 32 - ins mod 2 ^ 24 + ins mod 2 ^ 5.
Proof.
  change 0xff00001f with (Z.lor (2 ^ 32 - 2 ^ 24) (Z.ones 5)).
  rewrite Z.land_lor_distr_r, land_mask, Z.land_ones by lia.
  apply (lor_low _ _ 5); [lia| |apply Z.mod_pos_bound; lia].
  pow_consts. lia.
Qed.

(** The literal load of the inline form: the original opcode and register
    with the offset 8. *)
Lemma loadlit_word8 ins mask :
  mask = 0xbf000000 \/ mask = 0x3f000000 \/ mask = 0xff000000 ->
  let w := Z.lor (Z.land (shl32 (Z.shiftr 8 2) 5) (not32 mask)) (Z.land ins 0xff00001f) in
  0 <= w < 2 ^ 32
  /\ Z.land w 0xff00001f = Z.land ins 0xff00001f
  /\ loadlit_target 0 w = 8.
Proof.
  intros Hm. cbv zeta.
  assert (Z.land (shl32 (Z.shiftr 8 2) 5) (not32 mask) = 64) as ->
    by (destruct Hm as [->|[->| ->]]; reflexivity).
  split; [|split].
  - apply lor_range; [lia|lia|]. rewrite land_lmask. pow_consts. lia.
  - rewrite Z.land_lor_distr_l, <- Z.land_assoc.
    change (Z.land 64 4278190111) with 0.
    change (Z.land 4278190111 4278190111) with 4278190111. by rewrite Z.lor_0_l.
  - rewrite lor_disjoint.
    2:{ rewrite (Z.land_comm ins), Z.land_assoc. apply Z.land_0_l. }
    unfold loadlit_target. rewrite land_lmask, land_not32_3. to_arith.
    change (2 ^ 8) with 256. change (2 ^ (8 + 5 - 2)) with 2048.
    case_match; bool_to_prop; lia.
Qed.

Lemma land_low24 x mask :
  mask = 0xbf000000 \/ mask = 0x3f000000 \/ mask = 0xff000000 ->
  0 <= x < 2 ^ 24 -> Z.land x (not32 mask) = x.
Proof.
  intros Hm Hx. rewrite <- (Z.mod_small x (2 ^ 24)) at 1 by done.
  rewrite <- Z.land_ones, <- Z.land_assoc by lia.
  assert (Z.land (Z.ones 24) (not32 mask) = Z.ones 24) as ->
    by (destruct Hm as [->|[->| ->]]; reflexivity).
  rewrite Z.land_ones by lia. by apply Z.mod_small.
Qed.

(** The re-encoded literal load for a literal [d] bytes after the new
    position. *)
Lemma loadlit_word_forward ins mask d :
  mask = 0xbf000000 \/ mask = 0x3f000000 \/ mask = 0xff000000 ->
  0 <= d < 2 ^ 20 -> d mod 4 = 0 ->
  0 <= loadlit_word ins mask d < 2 ^ 32
  /\ Z.land (loadlit_word ins mask d) 0xff00001f = Z.land ins 0xff00001f
  /\ loadlit_target 0 (loadlit_word ins mask d) = d.
Proof.
  intros Hm Hd Hd4. unfold loadlit_word.
  assert (u32 (Z.shiftl (Z.shiftr d 2) 5) = 8 * d) as ->.
  { to_arith. lia. }
  rewrite (land_low24 _ _ Hm) by (pow_consts; lia).
  assert (Z.land (8 * d) 0xff00001f = 0) as Hdisj.
  { rewrite land_lmask. pow_consts. lia. }
  split; [|split].
  - apply lor_range; [lia|pow_consts; lia|]. rewrite land_lmask. pow_consts. lia.
  - rewrite Z.land_lor_distr_l, Hdisj, Z.lor_0_l, <- Z.land_assoc.
    by change (Z.land 4278190111 4278190111) with 4278190111.
  - rewrite lor_disjoint.
    2:{ rewrite (Z.land_comm ins), Z.land_assoc, Hdisj. apply Z.land_0_l. }
    unfold loadlit_target. rewrite land_lmask, land_not32_3. to_arith.
    change (2 ^ 8) with 256. change (2 ^ (8 + 5 - 2)) with 2048.
    case_match; bool_to_prop; lia.
Qed.

Lemma lor_absorb b q : Z.lor b (Z.land q b) = b.
Proof.
  apply Z.bits_inj'. intros k Hk. rewrite Z.lor_spec, Z.land_spec.
  destruct (Z.testbit b k), (Z.testbit q k); done.
Qed.

(** The re-encoded literal load for a literal [d] bytes before the new
    position: the sign bits of the offset spill into the size bits that the
    opcode mask leaves out. *)
Lemma loadlit_word_backward ins mask d :
  mask = 0xbf000000 \/ mask = 0x3f000000 \/ mask = 0xff000000 ->
  - 2 ^ 20 <= d < 0 ->
  let b := Z.land (not32 mask) 0xc0000000 in
  Z.land (loadlit_word ins mask d) b = b.
Proof.
  intros Hm Hd b. unfold loadlit_word.
  rewrite Z.land_lor_distr_l, <- !Z.land_assoc.
  assert (Z.land (not32 mask) b = b) as ->
    by (subst b; destruct Hm as [->|[->| ->]]; reflexivity).
  assert (Z.land (u32 (Z.shiftl (Z.shiftr d 2) 5)) b = b) as ->.
  { subst b. destruct Hm as [->|[->| ->]].
    - change (Z.land (not32 3204448256) 3221225472) with (2 ^ 31 - 2 ^ 30).
      rewrite land_mask by lia. to_arith. lia.
    - change (Z.land (not32 1056964608) 3221225472) with (2 ^ 32 - 2 ^ 30).
      rewrite land_mask by lia. to_arith. lia.
    - apply Z.land_0_r. }
  rewrite Z.land_assoc. apply lor_absorb.
Qed.

(** ** The code's decoding and the addressed location *)

Lemma simm19_range ins : - 2 ^ 18 <= simm19 ins < 2 ^ 18.
Proof.
  unfold simm19. rewrite imm19_arith. pow_consts. case_match; bool_to_prop; lia.
Qed.

Lemma loadlit_target_nonneg pc ins :
  0 <= ins < 2 ^ 32 -> 0 <= simm19 ins -> loadlit_target pc ins = literal_address pc ins.
Proof.
  intros Hins Hs. rewrite loadlit_target_arith by done. unfold literal_address.
  destruct (Z.ltb_spec (simm19 ins) 0); lia.
Qed.

Lemma adr_target_nonneg pc ins :
  0 <= ins < 2 ^ 32 -> 0 <= simm21 ins -> adr_target pc ins = adr_address pc ins.
Proof.
  intros Hins Hs. rewrite adr_target_arith by done. unfold adr_address.
  destruct (Z.ltb_spec (simm21 ins) 0); lia.
Qed.

Lemma adrp_target_nonneg pc ins :
  0 <= ins < 2 ^ 32 -> 0 <= simm21 ins -> adrp_target pc ins = adrp_address pc ins.
Proof.
  intros Hins Hs. rewrite adrp_target_arith by done. unfold adrp_address.
  destruct (Z.ltb_spec (simm21 ins) 0); lia.
Qed.

(** A word whose decoded literal is a little above it has a non-negative
    immediate, so the decoded address is the one it addresses. *)
Lemma literal_address_forward pc w d :
  0 <= w < 2 ^ 32 -> 0 <= d < 2 ^ 31 -> loadlit_target pc w = pc + d ->
  literal_address pc w = pc + d.
Proof.
  intros Hw Hd. rewrite loadlit_target_arith by done. unfold literal_address.
  pose proof (simm19_range w) as Hr. revert Hd Hr. pow_consts.
  destruct (Z.ltb_spec (simm19 w) 0); lia.
Qed.

(** * The claims *)

(** ** C1: the size of the trampoline *)

(** For the one-instruction window [LDR Q0, #0x100] at [0x10000000] and a
    buffer at [0x80000000], the relocator writes two NOPs, the six-word
    inline literal and a four-word tail jump, 48 bytes, more than
    [1 * 10 * 4]. *)
Lemma relocator_output_exceeds_ten_words :
  exists s',
    __fix_instructions 3 ldr_q_memory [] 0x10000000 1 0x80000000 = Some s'
    /\ outp s' - 0x80000000 = 48
    /\ ~ (outp s' - 0x80000000 <= 1 * 10 * 4)
    /\ map (load (mem s')) [0x80000000; 0x80000004; 0x80000008; 0x8000000c;
                            0x80000020; 0x80000024; 0x80000028; 0x8000002c]
       = [A64_NOP; A64_NOP; 0x9c000040; 0x14000005;
          0x58000051; 0xd61f0220; 0x10000004; 0].
Proof.
  eexists. split; [vm_compute; reflexivity|].
  cbn [outp mem]. split; [reflexivity|]. split; [lia|]. vm_compute. reflexivity.
Qed.

(** C1 on the code: hooking [LDR Q0, #0x100] at [0x10000000] with a
    replacement within reach displaces [N = 1] instruction.  A buffer at
    [0x80000000] with [rwx_size = 40 = N * 10 * 4] passes the precheck and
    is returned, yet the relocator has written 12 words into it: two NOPs,
    the six-word inline literal and a four-word jump back, whose last two
    words lie past the end of the 40 bytes. *)
Theorem hook_overruns_ten_word_buffer :
  displaced_count 0x10000000 0x10001000 = 1
  /\ (exists s',
        __fix_instructions 3 ldr_q_memory [] 0x10000000 1 0x80000000 = Some s'
        /\ outp s' - 0x80000000 = 48)
  /\ exists r,
       A64HookFunctionV (fun _ _ _ => 0) 0 3 ldr_q_memory []
                        0x10000000 0x10001000 0x80000000 40 = Some r
       /\ ret r = 0x80000000
       /\ map (load ldr_q_memory) [0x80000000 + 40; 0x80000000 + 44] = [0; 0]
       /\ map (load (hmem r))
              [0x80000000; 0x80000004; 0x80000008; 0x8000000c;
               0x80000020; 0x80000024; 0x80000000 + 40]
          = [A64_NOP; A64_NOP; 0x9c000040; 0x14000005;
             0x58000051; 0xd61f0220; 0x10000004]
       /\ load64 (hmem r) (0x80000000 + 40) = 0x10000000 + 4.
Proof.
  split; [reflexivity|]. split.
  { eexists. split; [vm_compute; reflexivity|]. reflexivity. }
  eexists. split; [vm_compute; reflexivity|]. cbn [ret hmem].
  split; [reflexivity|]. by vm_compute.
Qed.

(** X29: for every window of [count] instructions, [1 <= count <= 5],
    relocated into a word-aligned buffer, the relocator returns, writes only
    the words between the start of the buffer and its final cursor, and the
    total output (rewritten instructions, alignment NOPs, inline literals
    and the tail jump) is at most [8 * count + 6] words; this is within
    [count * 10 * 4] bytes as soon as [count >= 3], so for the long patch. *)
Theorem relocator_output_bound fuel m l base count out :
  (3 <= fuel)%nat -> 1 <= count <= A64_MAX_INSTRUCTIONS ->
  0 <= base < 2 ^ 62 -> out mod 4 = 0 ->
  exists s',
    __fix_instructions fuel m l base count out = Some s'
    /\ inp s' = base + 4 * count
    /\ out < outp s' <= out + 4 * (8 * count + 6)
    /\ (3 <= count -> outp s' - out <= count * 10 * 4)
    /\ touched_only (fun a => out <= a < outp s') m (mem s').
Proof.
  intros Hfuel Hc Hb Hal.
  destruct (fix_instructions_spec fuel m l base count out)
    as (s' & Hrun & Hinp & _ & Hout & Hfr); [done|lia|done..|].
  exists s'. repeat split; try done; lia.
Qed.

Lemma relocator_output_bound_witness :
  exists s',
    __fix_instructions 3 ldr_q_memory [] 0x10000000 4 0x80000000 = Some s'
    /\ inp s' = 0x10000000 + 4 * 4
    /\ 0x80000000 < outp s' <= 0x80000000 + 4 * (8 * 4 + 6)
    /\ (3 <= 4 -> outp s' - 0x80000000 <= 4 * 10 * 4)
    /\ touched_only (fun a => 0x80000000 <= a < outp s') ldr_q_memory (mem s').
Proof.
  apply (relocator_output_bound 3 ldr_q_memory [] 0x10000000 4 0x80000000);
    [lia|unfold A64_MAX_INSTRUCTIONS; lia|lia|reflexivity].
Defined.

(** ** C2: the size precheck *)

(** The precheck compares [rwx_size] with [count * 10], not with
    [count * 10 * 4]. *)
Lemma backup_precheck fuel m l original count trampoline rwx_size :
  trampoline ≠ 0 ->
  (rwx_size < count * 10 ->
   exists l', backup_instructions fuel m l original count trampoline rwx_size
              = BackupTooSmall l')
  /\ (count * 10 <= rwx_size ->
      forall l', backup_instructions fuel m l original count trampoline rwx_size
                 ≠ BackupTooSmall l').
Proof.
  intros Ht. unfold backup_instructions.
  destruct (Z.eqb_spec trampoline 0); [done|]. simpl negb. cbv iota.
  destruct (Z.ltb_spec rwx_size (count * 10)); split; intros ?; try lia; eauto.
  intros l'. by destruct (__fix_instructions _ _ _ _ _ _).
Qed.

(** C2 on the code: a 40-byte buffer for a long patch of [N = 4]
    instructions, a quarter of [N * 10 * 4 = 160] bytes, passes the
    precheck; the hook is installed, the buffer address is returned and
    the relocator has written 14 words, past the end of the buffer. *)
Theorem hook_accepts_undersized_buffer :
  displaced_count 0x10000000 0x20000000 = 4
  /\ 40 < 4 * 10 * 4
  /\ exists r,
       A64HookFunctionV (fun _ _ _ => 0) 0 3 bl_prologue_memory []
                        0x10000000 0x20000000 0x30000000 40 = Some r
       /\ ret r = 0x30000000
       /\ prologue_installed 0x10000000 0x20000000 (hmem r)
       /\ load bl_prologue_memory (0x30000000 + 40) = 0
       /\ load (hmem r) (0x30000000 + 40) = 0x58000051
       /\ load (hmem r) (0x30000000 + 52) = 0.
Proof.
  split; [reflexivity|]. split; [lia|].
  eexists. split; [vm_compute; reflexivity|]. cbn [ret hmem].
  split; [reflexivity|]. split; [by vm_compute|]. by vm_compute.
Qed.

(** ** C3: [mprotect] fails *)

(** C3, as stated, fails for the output buffer: the relocator runs before
    [mprotect] is called, so when [mprotect] fails the call returns null
    with the target untouched but with the trampoline already written
    into the caller's buffer. *)
Lemma mprotect_failure_leaves_trampoline_written :
  exists r,
    A64HookFunctionV (fun _ _ _ => -1) 13 3 add_ret_memory [] 0x1000 0x1100 0x2000 40
    = Some r
    /\ ret r = 0
    /\ load (hmem r) 0x1000 = load add_ret_memory 0x1000
    /\ load add_ret_memory 0x2000 = 0
    /\ load (hmem r) 0x2000 = 0x91000400
    /\ load (hmem r) 0x2004 = 0x17fffc00
    /\ ~ (forall a, 0x2000 <= a < 0x2000 + 40 -> hmem r a = add_ret_memory a).
Proof.
  eexists. split; [vm_compute; reflexivity|]. cbn [ret hmem].
  repeat (split; [reflexivity|]).
  intros H. specialize (H 0x2000 ltac:(lia)). vm_compute in H. discriminate H.
Qed.

(** C3, amended: when [mprotect] on the target fails, [A64HookFunctionV]
    returns null and does not write the diverting prologue.  With a null
    buffer, or one that the size precheck refuses, the memory is
    unchanged.  With a buffer that passes the precheck the memory is
    exactly what the relocator, which has run before [mprotect] is called,
    has left: the trampoline is in the buffer, within [8 * N + 6] words of
    its start; each of the first [N] words of the hooked function that
    lies outside that range is unchanged. *)
Theorem hook_mprotect_failure mprotect errno fuel m l symbol replace rwx rwx_size :
  (3 <= fuel)%nat -> 0 <= symbol < 2 ^ 62 -> rwx mod 4 = 0 ->
  __make_rwx mprotect symbol (patch_bytes symbol replace) ≠ 0 ->
  let N := displaced_count symbol replace in
  exists r,
    A64HookFunctionV mprotect errno fuel m l symbol replace rwx rwx_size = Some r
    /\ ret r = 0
    /\ (rwx = 0 \/ rwx_size < 10 * N -> hmem r = m)
    /\ (rwx ≠ 0 -> 10 * N <= rwx_size ->
        exists s',
          __fix_instructions fuel m l symbol N rwx = Some s'
          /\ hmem r = mem s'
          /\ rwx + 4 <= outp s' <= rwx + 4 * (8 * N + 6))
    /\ touched_only (fun a => rwx ≠ 0 /\ rwx <= a < rwx + 4 * (8 * N + 6)) m (hmem r)
    /\ (forall k, 0 <= k < N ->
          rwx = 0 \/ symbol + 4 * k < rwx \/ rwx + 4 * (8 * N + 6) <= symbol + 4 * k ->
          load (hmem r) (symbol + 4 * k) = load m (symbol + 4 * k)).
Proof.
  intros Hfuel Hsym Hal Hmp N.
  assert (1 <= N <= A64_MAX_INSTRUCTIONS) as HN.
  { subst N. unfold displaced_count, A64_MAX_INSTRUCTIONS. repeat case_match; lia. }
  destruct (fix_instructions_spec fuel m l symbol N rwx)
    as (s' & Hrun & _ & _ & Hout & Hfr); [done|lia|done|done|].
  assert (exists r,
    A64HookFunctionV mprotect errno fuel m l symbol replace rwx rwx_size = Some r
    /\ ret r = 0
    /\ hmem r = if (rwx =? 0) || (rwx_size <? N * 10) then m else mem s')
    as (r & Hr & Hret & Hmem).
  { revert Hmp Hrun. subst N.
    unfold patch_bytes, displaced_count, long_patch.
    unfold A64HookFunctionV, backup_instructions. cbv zeta. rewrite land_7.
    intros Hmp Hrun. apply Z.eqb_neq in Hmp.
    destruct (Z.leb_spec (Z.shiftr 67108863 1) (Z.abs (Z.shiftr (replace - symbol) 2)));
      rewrite Hmp; destruct (Z.eqb_spec rwx 0) as [->|Hrwx]; simpl negb; cbv iota;
      cbn [orb]; try (eexists; split; [reflexivity|]; split; reflexivity).
    all: destruct (rwx_size <? _);
      [eexists; split; [reflexivity|]; split; reflexivity|].
    all: rewrite Hrun; eexists; split; [reflexivity|]; split; reflexivity. }
  exists r. split; [done|]. split; [done|].
  assert (touched_only (fun a => rwx ≠ 0 /\ rwx <= a < rwx + 4 * (8 * N + 6)) m (hmem r))
    as Hframe.
  { rewrite Hmem. destruct (Z.eqb_spec rwx 0); cbn [orb]; [apply touched_only_refl|].
    destruct (rwx_size <? N * 10); [apply touched_only_refl|].
    eapply touched_only_mono; [|exact Hfr]. cbv beta. lia. }
  split; [|split; [|split; [done|]]].
  - rewrite Hmem. intros [->|Hsmall]; [done|].
    destruct (Z.ltb_spec rwx_size (N * 10)); [|lia]. by rewrite orb_true_r.
  - intros Hrwx Hsize. exists s'. split; [done|]. split; [|lia].
    rewrite Hmem. destruct (Z.eqb_spec rwx 0); [done|].
    destruct (Z.ltb_spec rwx_size (N * 10)); [lia|done].
  - intros k Hk Hdisj. unfold load. f_equal. apply Hframe. lia.
Qed.

Lemma hook_mprotect_failure_witness :
  let N := displaced_count 0x1000 0x1100 in
  exists r,
    A64HookFunctionV (fun _ _ _ => -1) 13 3 add_ret_memory [] 0x1000 0x1100 0x2000 40
    = Some r
    /\ ret r = 0
    /\ (0x2000 = 0 \/ 40 < 10 * N -> hmem r = add_ret_memory)
    /\ (0x2000 ≠ 0 -> 10 * N <= 40 ->
        exists s',
          __fix_instructions 3 add_ret_memory [] 0x1000 N 0x2000 = Some s'
          /\ hmem r = mem s'
          /\ 0x2000 + 4 <= outp s' <= 0x2000 + 4 * (8 * N + 6))
    /\ touched_only (fun a => 0x2000 ≠ 0 /\ 0x2000 <= a < 0x2000 + 4 * (8 * N + 6))
                    add_ret_memory (hmem r)
    /\ (forall k, 0 <= k < N ->
          0x2000 = 0 \/ 0x1000 + 4 * k < 0x2000
          \/ 0x2000 + 4 * (8 * N + 6) <= 0x1000 + 4 * k ->
          load (hmem r) (0x1000 + 4 * k) = load add_ret_memory (0x1000 + 4 * k)).
Proof.
  apply (hook_mprotect_failure (fun _ _ _ => -1) 13 3 add_ret_memory []
                               0x1000 0x1100 0x2000 40);
    [lia|lia|reflexivity|by vm_compute].
Defined.

(** ** C4: deferred fix-ups *)

Lemma pending_count_drain_set_insp c v i k :
  (pending_count (drain (dat_alter (set_insp v) i c) i) k <= pending_count c k)%nat.
Proof.
  unfold pending_count. rewrite fmap_dat_at_drain.
  destruct (same_pending_set_insp c v i) as (_ & _ & _ & ->).
  case_decide; [|done].
  induction (fmap (dat_at c k)) as [|f rest IH]; simpl; [done|].
  destruct (Z.eqb_spec (bp f) 0) as [Hf|Hf]; [done|].
  rewrite filter_cons_False by (simpl; lia).
  rewrite filter_cons_True by done. simpl. lia.
Qed.

Ltac resolved_tac Hctx :=
  state_simpl;
  split; [done|]; intros Hj;
  first
    [ lia
    | split; [lia|];
      split; [|intros k; apply pending_count_drain_set_insp];
      erewrite load_after_resolve by (first [exact Hctx|same_pending_tac|lia]);
      load_tac;
      rewrite ?dat_at_set_insp by lia ].

Lemma fix_branch_imm_backward lo base n i s :
  window_inv lo base n i s -> i < n ->
  let ins := load (mem s) (inp s) in
  Z.land ins 0xfc000000 = 0x14000000 \/ Z.land ins 0xfc000000 = 0x94000000 ->
  is_in_fixing_range (ctx s) (branch_target (inp s) ins) = true ->
  exists s', __fix_branch_imm s = (true, s')
    /\ resolved_at_once i s s'
         (get_ref_ins_index (ctx s) (branch_target (inp s) ins))
         (branch_word (Z.land ins 0xfc000000)).
Proof.
  intros Hw Hi ins Hopc Hin.
  destruct (__fix_branch_imm s) as [b s'] eqn:Hrun. exists s'.
  pose proof (window_current_idx _ _ _ _ _ Hw) as Hidx.
  pose proof (wi_ctx _ _ _ _ _ Hw) as Hctx.
  pose proof (wi_idx _ _ _ _ _ Hw) as Hidx0.
  subst ins. unfold resolved_at_once, branch_word, branch_target in *.
  destruct s as [pc out c m l]. window_facts Hw.
  unfold __fix_branch_imm, begin_ins, get_and_set_current_index in Hrun.
  cbn [inp outp ctx mem log] in Hrun.
  rewrite Hidx in Hrun. clear Hidx.
  cbv zeta in Hrun. cbn [with_ctx inp outp ctx mem log] in Hrun.
  rewrite ?is_in_fixing_range_dat_alter, ?get_ref_ins_index_dat_alter, Hin in Hrun.
  unfold A64_MAX_INSTRUCTIONS in *.
  repeat case_match; simplify_eq; bool_to_prop; try lia.
  all: resolved_tac Hctx.
  all: case_match; bool_to_prop; try lia.
  all: apply u32_small, lor_range; [lia|lia|apply land_range_mask26].
Qed.

Lemma fix_cond_branch_backward lo base n i s lmask :
  window_inv lo base n i s -> i < n ->
  let ins := load (mem s) (inp s) in
  cond_branch_lmask ins = Some lmask ->
  is_in_fixing_range (ctx s) (cond_branch_target (inp s) ins lmask) = true ->
  exists s', __fix_cond_comp_test_branch s = (true, s')
    /\ resolved_at_once i s s'
         (get_ref_ins_index (ctx s) (cond_branch_target (inp s) ins lmask))
         (cond_branch_word ins lmask).
Proof.
  intros Hw Hi ins Hlmask Hin.
  destruct (__fix_cond_comp_test_branch s) as [b s'] eqn:Hrun. exists s'.
  pose proof (window_current_idx _ _ _ _ _ Hw) as Hidx.
  pose proof (wi_ctx _ _ _ _ _ Hw) as Hctx.
  pose proof (wi_idx _ _ _ _ _ Hw) as Hidx0.
  pose proof (load_range (mem s) (inp s)) as Hins.
  subst ins. unfold resolved_at_once, cond_branch_word, cond_branch_target in *.
  destruct s as [pc out c m l]. window_facts Hw.
  unfold __fix_cond_comp_test_branch, begin_ins, get_and_set_current_index in Hrun.
  cbn [inp outp ctx mem log] in Hrun. rewrite Hlmask in Hrun.
  rewrite Hidx in Hrun. clear Hidx.
  cbv zeta in Hrun. cbn [with_ctx inp outp ctx mem log] in Hrun.
  rewrite ?is_in_fixing_range_dat_alter, ?get_ref_ins_index_dat_alter, Hin in Hrun.
  unfold A64_MAX_INSTRUCTIONS in *.
  repeat case_match; simplify_eq; bool_to_prop; try lia.
  all: resolved_tac Hctx.
  all: case_match; bool_to_prop; try lia.
  all: apply u32_small, lor_range; [lia| |by apply land_range].
  all: apply land_range; [lia|]; unfold u32; by apply Z.mod_pos_bound.
Qed.

Lemma fix_adr_backward lo base n i s :
  window_inv lo base n i s -> i < n ->
  let ins := load (mem s) (inp s) in
  Z.land ins 0x9f000000 = 0x10000000 ->
  is_in_fixing_range (ctx s) (adr_target (inp s) ins) = true ->
  exists s', __fix_pcreladdr s = (true, s')
    /\ resolved_at_once i s s'
         (get_ref_ins_index (ctx s)
            (s64 (Z.land (u64 (adr_target (inp s) ins)) (u64 (Z.lnot 3)))))
         (adr_word ins).
Proof.
  intros Hw Hi ins Hopc Hin.
  destruct (__fix_pcreladdr s) as [b s'] eqn:Hrun. exists s'.
  pose proof (window_current_idx _ _ _ _ _ Hw) as Hidx.
  pose proof (wi_ctx _ _ _ _ _ Hw) as Hctx.
  pose proof (wi_idx _ _ _ _ _ Hw) as Hidx0.
  pose proof (load_range (mem s) (inp s)) as Hins.
  subst ins. unfold resolved_at_once, adr_word, adr_target in *.
  destruct s as [pc out c m l]. window_facts Hw.
  unfold __fix_pcreladdr, emit_ldr_literal, begin_ins,
    get_and_set_current_index in Hrun.
  cbn [inp outp ctx mem log] in Hrun.
  rewrite Hidx in Hrun. clear Hidx.
  cbv zeta in Hrun. cbn [with_ctx with_log inp outp ctx mem log] in Hrun.
  rewrite ?is_in_fixing_range_dat_alter, ?get_ref_ins_index_dat_alter, Hin, Hopc
    in Hrun.
  change (268435456 =? 268435456) with true in Hrun. cbv iota in Hrun.
  unfold A64_MAX_INSTRUCTIONS in *.
  repeat case_match; simplify_eq; bool_to_prop; try lia.
  all: resolved_tac Hctx.
  all: case_match; bool_to_prop; try lia.
  all: apply u32_small, lor_range; [lia| |by apply land_range].
  all: apply land_range; [lia|]; unfold u32; by apply Z.mod_pos_bound.
Qed.

(** A state the loop reaches after [k] instructions satisfies the window
    invariant. *)
Lemma fix_loop_reaches base count out m l fuel (k : nat) s :
  (3 <= fuel)%nat -> 0 <= count <= A64_MAX_INSTRUCTIONS ->
  0 <= base < 2 ^ 62 -> out mod 4 = 0 -> Z.of_nat k <= count ->
  fix_loop fuel k (State base out (init_context base count) m l) = Some s ->
  window_inv out base count (Z.of_nat k) s.
Proof.
  intros Hfuel Hc Hb Hal Hk Hrun.
  pose proof (window_inv_init base count out m l Hc Hb Hal) as Hw.
  destruct (fix_loop_spec out base count fuel k Hfuel 0 _ Hw)
    as (s1 & H1 & Hw1 & _); [lia|].
  rewrite Hrun in H1. by simplify_eq.
Qed.

(** C4 on the code: hooking [NOP; ADR X2, #-4; ADD X0, X0, #1; RET] at
    [0x10000000] with a replacement out of reach displaces four
    instructions into the buffer at [0x30000000].  The [ADR] refers back to
    instruction 0, whose output address is recorded as [0x30000000].  The
    code decodes its target [2^32] too high, outside the window, and
    instead of one [ADR] computed from that recorded address it emits
    [NOP; LDR X2, #8; B #12] and the 8-byte literal [0x110000000]. *)
Theorem backward_adr_not_resolved :
  displaced_count 0x10000000 0x20000000 = 4
  /\ (let s0 := State 0x10000000 0x30000000 (init_context 0x10000000 4)
                      adr_back_memory [] in
      exists s s',
        fix_one 3 s0 = Some s /\ fix_one 3 s = Some s'
        /\ inp s = 0x10000004 /\ outp s = 0x30000004
        /\ Z.land (load (mem s) (inp s)) 0x9f000000 = 0x10000000
        /\ simm21 (load (mem s) (inp s)) = -4
        /\ adr_address (inp s) (load (mem s) (inp s)) = 0x10000000
        /\ is_in_fixing_range (ctx s) (adr_address (inp s) (load (mem s) (inp s))) = true
        /\ get_ref_ins_index (ctx s) (adr_address (inp s) (load (mem s) (inp s))) = 0
        /\ insp (dat_at (ctx s) 0) = 0x30000000
        /\ adr_target (inp s) (load (mem s) (inp s)) = 0x10000000 + 2 ^ 32
        /\ outp s' = 0x30000018
        /\ ~ resolved_at_once 1 s s' 0 (adr_word (load (mem s) (inp s))))
  /\ exists r,
       A64HookFunctionV (fun _ _ _ => 0) 0 3 adr_back_memory []
                        0x10000000 0x20000000 0x30000000 160 = Some r
       /\ ret r = 0x30000000
       /\ map (load (hmem r)) [0x30000000; 0x30000004; 0x30000008; 0x3000000c]
          = [A64_NOP; A64_NOP; 0x58000042; 0x14000003]
       /\ load64 (hmem r) 0x30000010 = 0x10000000 + 2 ^ 32
       /\ load64 (hmem r) 0x30000010 ≠ 0x30000000.
Proof.
  split; [reflexivity|]. split.
  - cbv zeta. eexists _, _.
    split; [vm_compute; reflexivity|]. split; [vm_compute; reflexivity|].
    cbn [inp outp ctx mem log].
    repeat (split; [by vm_compute|]).
    unfold resolved_at_once. cbn [inp outp ctx mem log]. intros H.
    destruct (H ltac:(lia)) as [H1 _]. lia.
  - eexists. split; [vm_compute; reflexivity|]. cbn [ret hmem].
    split; [reflexivity|]. by vm_compute.
Qed.

(** X30: for every window of [count <= 5] instructions the relocator
    processes, a deferred fix-up is appended to [pending[j]] only while
    rewriting an instruction [i < j]; a [B]/[BL], a conditional branch or
    an [ADR] with a non-negative offset whose target is the instruction of
    index [j <= i] is emitted at once from the recorded output address of
    [j], without filing anything; and when the relocator has finished the
    window, every pending list is empty. *)
Theorem pending_fixups_discipline fuel m l base count out :
  (3 <= fuel)%nat -> 0 <= count <= A64_MAX_INSTRUCTIONS ->
  0 <= base < 2 ^ 62 -> out mod 4 = 0 ->
  pending_discipline fuel m l base count out.
Proof.
  intros Hfuel Hc Hb Hal. split.
  - intros k s Hk Hrun.
    pose proof (fix_loop_reaches base count out m l fuel k s Hfuel Hc Hb Hal
                  ltac:(lia) Hrun) as Hw.
    destruct (fix_one_step _ _ _ _ _ fuel Hw Hk Hfuel) as (s' & Hone & Hstep).
    exists s'. split; [done|]. split.
    { destruct (so_defer _ _ _ _ Hstep) as (d & c_pre & Hd & Hctx & Hb').
      exists d, c_pre. split; [done|]. split; [done|].
      destruct Hd as [c' _|c1 j b w a _ Hj _]; [done|]. split; [lia|apply Hb']. }
    unfold backward_references_resolved. cbv zeta. split; [|split].
    + intros Hopc Hin.
      destruct (fix_branch_imm_backward _ _ _ _ _ Hw Hk Hopc Hin) as (s1 & H1 & Hr).
      rewrite (fix_one_branch_imm fuel _ _ H1) in Hone. by simplify_eq.
    + intros lmask Hl Hin.
      destruct (fix_cond_branch_backward _ _ _ _ _ _ Hw Hk Hl Hin) as (s1 & H1 & Hr).
      rewrite (fix_one_cond_branch fuel _ _ _ Hl H1) in Hone. by simplify_eq.
    + intros Hopc Hpos.
      rewrite <- (adr_target_nonneg (inp s) _ (load_range (mem s) (inp s)) Hpos).
      intros Hin.
      destruct (fix_adr_backward _ _ _ _ _ Hw Hk Hopc Hin) as (s1 & H1 & Hr).
      rewrite (fix_one_adr fuel _ _ Hopc H1) in Hone. by simplify_eq.
  - destruct (fix_instructions_spec fuel m l base count out Hfuel Hc Hb Hal)
      as (s' & Hrun & _ & Hdr & _).
    eauto.
Qed.

Lemma pending_fixups_discipline_witness :
  pending_discipline 3 loop_memory [] 0x1000 3 0x2000.
Proof.
  apply (pending_fixups_discipline 3 loop_memory [] 0x1000 3 0x2000);
    [lia|unfold A64_MAX_INSTRUCTIONS; lia|lia|reflexivity].
Defined.

(** The same window, run: the forward branch waits in [pending[2]] after
    the first turn and is patched to [B +8] when the third instruction is
    reached; the backward branch is emitted as [B -8] at once. *)
Example loop_window_relocated :
  let s0 := State 0x1000 0x2000 (init_context 0x1000 3) loop_memory [] in
  (exists s1, fix_one 3 s0 = Some s1
     /\ load (mem s1) 0x2000 = 0x14000000
     /\ map (pending_count (ctx s1)) [0; 1; 2] = [0; 0; 1]%nat)
  /\ (exists s', __fix_instructions 3 loop_memory [] 0x1000 3 0x2000 = Some s'
       /\ map (load (mem s')) [0x2000; 0x2004; 0x2008; 0x200c]
          = [0x14000002; 0x91000400; 0x17fffffe; 0x17fffc00]
       /\ map (pending_count (ctx s')) [0; 1; 2; 3; 4] = [0; 0; 0; 0; 0]%nat).
Proof.
  split; eexists; (split; [vm_compute; reflexivity|]); by vm_compute.
Qed.

(** ** C5: [B]/[BL] within range *)

(** C5, amended: for a [B] or [BL] of the window whose target lies outside
    the window, if the new word offset [out_off = (tgt - out) >> 2]
    satisfies [|out_off| < 2^25 - 1], the rewriter emits exactly one word,
    the original top-6-bit opcode with the 26-bit immediate
    [out_off & 0x03FFFFFF], and advances the output cursor by one word;
    besides that word it writes only the words patched by the fix-ups
    that were waiting for this instruction. *)
Theorem branch_imm_in_range lo base n i s :
  window_inv lo base n i s -> i < n ->
  let ins := load (mem s) (inp s) in
  let opc := Z.land ins 0xfc000000 in
  let tgt := branch_target (inp s) ins in
  let out_off := Z.shiftr (tgt - outp s) 2 in
  opc = 0x14000000 \/ opc = 0x94000000 ->
  is_in_fixing_range (ctx s) tgt = false ->
  Z.abs out_off < 2 ^ 25 - 1 ->
  exists s',
    __fix_branch_imm s = (true, s')
    /\ inp s' = inp s + 4
    /\ outp s' = outp s + 4
    /\ load (mem s') (outp s) = Z.lor opc (Z.land out_off 0x03ffffff)
    /\ touched_only (fun a => outp s <= a < outp s + 4 \/ pending_bp (ctx s) i a)
                    (mem s) (mem s').
Proof.
  intros Hw Hi ins opc tgt out_off Hopc Hout Hoff.
  destruct (__fix_branch_imm s) as [b s'] eqn:Hrun.
  assert (b = true /\ outp s' = outp s + 4
          /\ load (mem s') (outp s) = Z.lor opc (Z.land out_off 0x03ffffff))
    as (-> & Hadv & Hword).
  { pose proof (window_current_idx _ _ _ _ _ Hw) as Hidx.
    pose proof (wi_ctx _ _ _ _ _ Hw) as Hctx.
    subst ins opc tgt out_off. unfold branch_target in *.
    destruct s as [pc out c m l]. window_facts Hw.
    unfold __fix_branch_imm, begin_ins, get_and_set_current_index in Hrun.
    cbn [inp outp ctx mem log] in Hrun.
    rewrite Hidx in Hrun. clear Hidx.
    cbv zeta in Hrun. cbn [with_ctx inp outp ctx mem log] in Hrun.
    rewrite ?is_in_fixing_range_dat_alter, Hout in Hrun.
    change (67108863 ≫ 1) with (2 ^ 25 - 1) in Hrun.
    repeat case_match; simplify_eq; bool_to_prop; try lia.
    all: state_simpl; split; [done|]; split; [lia|].
    all: erewrite load_after_resolve by (first [eassumption|same_pending_tac|lia]).
    all: load_tac.
    all: apply u32_small, lor_range; [lia|lia|].
    all: apply land_range_mask26. }
  exists s'. pose proof (fix_branch_imm_step _ _ _ _ _ _ Hw Hi Hrun) as Hs.
  split; [done|]. split; [apply Hs|]. split; [done|]. split; [done|].
  rewrite <- Hadv. apply Hs.
Qed.

(** C5, as stated, fails at the boundary: a [B] whose new word offset is
    [2^25 - 1], which is below [2^25], is expanded into the four-word
    [LDR X17, #8; BR X17; <target>] form instead of one re-immediated
    word. *)
Lemma branch_imm_boundary_is_expanded :
  let s := State 0x10000000 0x08000010 (init_context 0x10000000 1)
                 b_forward_memory [] in
  let ins := load (mem s) (inp s) in
  let opc := Z.land ins 0xfc000000 in
  let tgt := branch_target (inp s) ins in
  let out_off := Z.shiftr (tgt - outp s) 2 in
  opc = 0x14000000
  /\ is_in_fixing_range (ctx s) tgt = false
  /\ out_off = 2 ^ 25 - 1 /\ Z.abs out_off < 2 ^ 25
  /\ exists s', __fix_branch_imm s = (true, s')
       /\ outp s' = outp s + 4 * 4
       /\ load (mem s') (outp s) = 0x58000051
       /\ load (mem s') (outp s) ≠ Z.lor opc (Z.land out_off 0x03ffffff).
Proof.
  cbv zeta. split; [reflexivity|]. split; [reflexivity|]. split; [reflexivity|].
  split; [reflexivity|]. eexists. split; [vm_compute; reflexivity|].
  split; [reflexivity|]. split; [reflexivity|]. vm_compute. discriminate.
Qed.

(** [B +12] relocated nearby, within the range of its immediate. *)
Lemma branch_imm_in_range_witness :
  let s := State 0x10000000 0x10002000 (init_context 0x10000000 1)
                 b_forward_memory [] in
  exists s',
    __fix_branch_imm s = (true, s')
    /\ inp s' = inp s + 4
    /\ outp s' = outp s + 4
    /\ load (mem s') (outp s)
       = Z.lor (Z.land (load (mem s) (inp s)) 0xfc000000)
               (Z.land (Z.shiftr (branch_target (inp s) (load (mem s) (inp s)) - outp s) 2)
                       0x03ffffff)
    /\ touched_only (fun a => outp s <= a < outp s + 4 \/ pending_bp (ctx s) 0 a)
                    (mem s) (mem s').
Proof.
  cbv zeta.
  apply (branch_imm_in_range 0x10002000 0x10000000 1 0).
  - apply window_inv_init; [unfold A64_MAX_INSTRUCTIONS; lia|lia|reflexivity].
  - lia.
  - left. reflexivity.
  - reflexivity.
  - vm_compute. reflexivity.
Defined.

(** ** C6: [BL] out of range *)

(** C6: a [BL] whose target is outside the window and whose new word
    offset does not fit the signed 26-bit immediate is replaced by
    [LDR X17, #12; ADR X30, #16; BR X17; <8-byte target>] at [o], where [o]
    is the cursor if [out + 3] words is 8-aligned and one word further,
    after one NOP, if it is not; [out_addr] is updated to [o] and the
    literal at [o + 3] words is 8-aligned. *)
Theorem branch_link_out_of_range lo base n i s :
  window_inv lo base n i s -> i < n ->
  let ins := load (mem s) (inp s) in
  let tgt := branch_target (inp s) ins in
  let out_off := Z.shiftr (tgt - outp s) 2 in
  let o := if (outp s + 4 * 3) mod 8 =? 0 then outp s else outp s + 4 in
  Z.land ins 0xfc000000 = 0x94000000 ->
  is_in_fixing_range (ctx s) tgt = false ->
  ~ (- 2 ^ 25 <= out_off < 2 ^ 25) ->
  exists s',
    __fix_branch_imm s = (true, s')
    /\ inp s' = inp s + 4
    /\ outp s' = o + 4 * 5
    /\ (o ≠ outp s -> load (mem s') (outp s) = A64_NOP)
    /\ load (mem s') o = 0x58000071
    /\ load (mem s') (o + 4) = 0x1000009e
    /\ load (mem s') (o + 8) = 0xd61f0220
    /\ load (mem s') (o + 12) = u32 tgt
    /\ load (mem s') (o + 16) = u32 (Z.shiftr tgt 32)
    /\ (o + 4 * 3) mod 8 = 0
    /\ insp (dat_at (ctx s') i) = o.
Proof.
  intros Hw Hi ins tgt out_off o Hopc Hout Hoff.
  destruct (__fix_branch_imm s) as [b s'] eqn:Hrun. exists s'.
  pose proof (window_current_idx _ _ _ _ _ Hw) as Hidx.
  pose proof (wi_ctx _ _ _ _ _ Hw) as Hctx.
  pose proof (wi_idx _ _ _ _ _ Hw) as Hidx0.
  subst ins tgt out_off o. unfold branch_target in *.
  destruct s as [pc out c m l]. window_facts Hw.
  unfold __fix_branch_imm, begin_ins, get_and_set_current_index in Hrun.
  cbn [inp outp ctx mem log] in Hrun.
  rewrite Hidx in Hrun. clear Hidx.
  cbv zeta in Hrun. cbn [with_ctx inp outp ctx mem log] in Hrun.
  rewrite ?land_7, ?is_in_fixing_range_dat_alter, Hout, Hopc in Hrun.
  change (67108863 ≫ 1) with (2 ^ 25 - 1) in Hrun.
  unfold A64_MAX_INSTRUCTIONS in *.
  repeat case_match; simplify_eq; bool_to_prop; try lia.
  all: state_simpl; rewrite ?insp_dat_at_drain, ?dat_at_set_insp, ?Z.eqb_refl
         by (rewrite ?(proj2 (proj2 (dat_alter_base _ _ _))); lia).
  all: repeat (erewrite load_after_resolve by (first [eassumption|same_pending_tac|lia])).
  all: load_tac.
  all: repeat split; try done; try lia.
Qed.

Lemma branch_link_out_of_range_witness :
  let s := State 0x10000000 0x80000000 (init_context 0x10000000 1) bl_memory [] in
  let tgt := branch_target (inp s) (load (mem s) (inp s)) in
  let o := if (outp s + 4 * 3) mod 8 =? 0 then outp s else outp s + 4 in
  exists s',
    __fix_branch_imm s = (true, s')
    /\ inp s' = inp s + 4
    /\ outp s' = o + 4 * 5
    /\ (o ≠ outp s -> load (mem s') (outp s) = A64_NOP)
    /\ load (mem s') o = 0x58000071
    /\ load (mem s') (o + 4) = 0x1000009e
    /\ load (mem s') (o + 8) = 0xd61f0220
    /\ load (mem s') (o + 12) = u32 tgt
    /\ load (mem s') (o + 16) = u32 (Z.shiftr tgt 32)
    /\ (o + 4 * 3) mod 8 = 0
    /\ insp (dat_at (ctx s') 0) = o.
Proof.
  cbv zeta.
  apply (branch_link_out_of_range 0x80000000 0x10000000 1 0).
  - apply window_inv_init; [unfold A64_MAX_INSTRUCTIONS; lia|lia|reflexivity].
  - lia.
  - reflexivity.
  - reflexivity.
  - vm_compute. intros [H _]. by apply H.
Defined.

(** ** C7: conditional branches out of range *)

(** C7, as stated, fails for a target inside the window: the new
    displacement of [B.EQ +4], measured from the far trampoline, overflows
    19 bits, yet the rewriter emits one word with a zero immediate and
    files a deferred fix-up against instruction 1. *)
Lemma cond_branch_in_window_not_expanded :
  let s := State 0x10000000 0x80000000 (init_context 0x10000000 2) bcond_memory [] in
  let ins := load (mem s) (inp s) in
  let tgt := cond_branch_target (inp s) ins 0xff00001f in
  let out_off := Z.shiftr (tgt - outp s) 2 in
  cond_branch_lmask ins = Some 0xff00001f
  /\ ~ (- 2 ^ 18 <= out_off < 2 ^ 18)
  /\ is_in_fixing_range (ctx s) tgt = true
  /\ exists s', __fix_cond_comp_test_branch s = (true, s')
       /\ outp s' = outp s + 4
       /\ load (mem s') (outp s) = 0x54000000
       /\ pending_count (ctx s') 1 = 1%nat.
Proof.
  cbv zeta. split; [reflexivity|]. split; [vm_compute; intros [H _]; by apply H|].
  split; [reflexivity|]. eexists. split; [vm_compute; reflexivity|].
  split; [reflexivity|]. split; reflexivity.
Qed.

(** C7, amended: a conditional branch ([B.cond], [CBZ]/[CBNZ], 19-bit
    immediate; [TBZ]/[TBNZ], 14-bit immediate) whose target is outside the
    window and whose new word offset overflows its immediate is replaced, at
    [o], by its own low fields with displacement 8, [B #20],
    [LDR X17, #8], [BR X17] and the 8-byte target; [o] is the cursor if
    [out + 4] words is 8-aligned and one word further, after one NOP, if it
    is not. *)
Theorem cond_branch_out_of_range lo base n i s lmask :
  window_inv lo base n i s -> i < n ->
  let ins := load (mem s) (inp s) in
  let tgt := cond_branch_target (inp s) ins lmask in
  let out_off := Z.shiftr (tgt - outp s) 2 in
  let o := if (outp s + 4 * 4) mod 8 =? 0 then outp s else outp s + 4 in
  cond_branch_lmask ins = Some lmask ->
  is_in_fixing_range (ctx s) tgt = false ->
  (lmask = 0xff00001f /\ ~ (- 2 ^ 18 <= out_off < 2 ^ 18))
  \/ (lmask = 0xfff8001f /\ ~ (- 2 ^ 13 <= out_off < 2 ^ 13)) ->
  exists s',
    __fix_cond_comp_test_branch s = (true, s')
    /\ inp s' = inp s + 4
    /\ outp s' = o + 4 * 6
    /\ (o ≠ outp s -> load (mem s') (outp s) = A64_NOP)
    /\ load (mem s') o
       = Z.lor (Z.land (Z.shiftl (Z.shiftr 8 2) 5) (not32 lmask)) (Z.land ins lmask)
    /\ load (mem s') (o + 4) = 0x14000005
    /\ load (mem s') (o + 8) = 0x58000051
    /\ load (mem s') (o + 12) = 0xd61f0220
    /\ load (mem s') (o + 16) = u32 tgt
    /\ load (mem s') (o + 20) = u32 (Z.shiftr tgt 32)
    /\ (o + 4 * 4) mod 8 = 0
    /\ insp (dat_at (ctx s') i) = o.
Proof.
  intros Hw Hi ins tgt out_off o Hlmask Hout Hoff.
  destruct (__fix_cond_comp_test_branch s) as [b s'] eqn:Hrun. exists s'.
  pose proof (window_current_idx _ _ _ _ _ Hw) as Hidx.
  pose proof (wi_ctx _ _ _ _ _ Hw) as Hctx.
  pose proof (wi_idx _ _ _ _ _ Hw) as Hidx0.
  pose proof (load_range (mem s) (inp s)) as Hins.
  subst ins tgt out_off o. unfold cond_branch_target in *.
  destruct s as [pc out c m l]. window_facts Hw.
  unfold __fix_cond_comp_test_branch, begin_ins, get_and_set_current_index in Hrun.
  cbn [inp outp ctx mem log] in Hrun. rewrite Hlmask in Hrun.
  rewrite Hidx in Hrun. clear Hidx.
  cbv zeta in Hrun. cbn [with_ctx inp outp ctx mem log] in Hrun.
  rewrite ?land_7, ?is_in_fixing_range_dat_alter, Hout in Hrun.
  unfold A64_MAX_INSTRUCTIONS in *.
  assert (0 <= Z.lor (Z.land (shl32 (8 ≫ 2) 5) (not32 lmask)) (Z.land (load m pc) lmask)
          < 2 ^ 32) as Hword.
  { apply lor_range; [lia| |by apply land_range].
    destruct Hoff as [[-> _]|[-> _]]; by vm_compute. }
  destruct Hoff as [[-> Hoff]|[-> Hoff]].
  all: change (not32 4278190111 ≫ (5 + 1)) with (2 ^ 18 - 1) in Hrun.
  all: change (not32 4294443039 ≫ (5 + 1)) with (2 ^ 13 - 1) in Hrun.
  all: repeat case_match; simplify_eq; bool_to_prop; try lia.
  all: state_simpl; rewrite ?insp_dat_at_drain, ?dat_at_set_insp, ?Z.eqb_refl
         by (rewrite ?(proj2 (proj2 (dat_alter_base _ _ _))); lia).
  all: repeat (erewrite load_after_resolve by (first [eassumption|same_pending_tac|lia])).
  all: load_tac.
  all: rewrite ?(u32_small _ Hword).
  all: repeat split; try done; try lia.
Qed.

Lemma cond_branch_out_of_range_witness :
  let s := State 0x10000000 0x80000000 (init_context 0x10000000 1) bcond_memory [] in
  let ins := load (mem s) (inp s) in
  let tgt := cond_branch_target (inp s) ins 0xff00001f in
  let o := if (outp s + 4 * 4) mod 8 =? 0 then outp s else outp s + 4 in
  exists s',
    __fix_cond_comp_test_branch s = (true, s')
    /\ inp s' = inp s + 4
    /\ outp s' = o + 4 * 6
    /\ (o ≠ outp s -> load (mem s') (outp s) = A64_NOP)
    /\ load (mem s') o
       = Z.lor (Z.land (Z.shiftl (Z.shiftr 8 2) 5) (not32 0xff00001f))
               (Z.land ins 0xff00001f)
    /\ load (mem s') (o + 4) = 0x14000005
    /\ load (mem s') (o + 8) = 0x58000051
    /\ load (mem s') (o + 12) = 0xd61f0220
    /\ load (mem s') (o + 16) = u32 tgt
    /\ load (mem s') (o + 20) = u32 (Z.shiftr tgt 32)
    /\ (o + 4 * 4) mod 8 = 0
    /\ insp (dat_at (ctx s') 0) = o.
Proof.
  cbv zeta.
  apply (cond_branch_out_of_range 0x80000000 0x10000000 1 0).
  - apply window_inv_init; [unfold A64_MAX_INSTRUCTIONS; lia|lia|reflexivity].
  - lia.
  - reflexivity.
  - reflexivity.
  - left. split; [reflexivity|]. vm_compute. intros [H _]. by apply H.
Defined.

(** ** C8: [ADRP] *)

(** An [ADRP], in terms of the address the code decodes
    ([adrp_target]): expanded when that address is outside the window,
    copied verbatim and logged when it is inside. *)
Lemma adrp_relocation_decoded lo base n i s :
  window_inv lo base n i s -> i < n ->
  let ins := load (mem s) (inp s) in
  let tgt := adrp_target (inp s) ins in
  let o := if (outp s + 4 * 2) mod 8 =? 0 then outp s else outp s + 4 in
  Z.land ins 0x9f000000 = 0x90000000 ->
  exists s',
    __fix_pcreladdr s = (true, s')
    /\ inp s' = inp s + 4
    /\ (is_in_fixing_range (ctx s) tgt = false ->
        outp s' = o + 4 * 4
        /\ (o ≠ outp s -> load (mem s') (outp s) = A64_NOP)
        /\ load (mem s') o = Z.lor 0x58000040 (Z.land ins 0x1f)
        /\ load (mem s') (o + 4) = 0x14000003
        /\ load (mem s') (o + 8) = u32 tgt
        /\ load (mem s') (o + 12) = u32 (Z.shiftr tgt 32)
        /\ (o + 4 * 2) mod 8 = 0
        /\ insp (dat_at (ctx s') i) = o)
    /\ (is_in_fixing_range (ctx s) tgt = true ->
        outp s' = outp s + 4
        /\ load (mem s') (outp s) = ins
        /\ log s' = adrp_in_window_log (ctx s) (inp s) ins (log s)
        /\ In (LogEntry ANDROID_LOG_INFO "What is the correct way to fix this?" [])
              (log s')).
Proof.
  intros Hw Hi ins tgt o Hopc.
  destruct (__fix_pcreladdr s) as [b s'] eqn:Hrun. exists s'.
  pose proof (window_current_idx _ _ _ _ _ Hw) as Hidx.
  pose proof (wi_ctx _ _ _ _ _ Hw) as Hctx.
  pose proof (wi_idx _ _ _ _ _ Hw) as Hidx0.
  pose proof (load_range (mem s) (inp s)) as Hins.
  subst ins tgt o. unfold adrp_in_window_log.
  destruct s as [pc out c m l]. window_facts Hw.
  unfold __fix_pcreladdr, emit_ldr_literal, begin_ins,
    get_and_set_current_index in Hrun.
  cbn [inp outp ctx mem log] in Hrun.
  rewrite Hidx in Hrun. rewrite Hidx. clear Hidx.
  cbv zeta in Hrun. cbn [with_ctx with_log inp outp ctx mem log] in Hrun.
  rewrite ?land_7, ?is_in_fixing_range_dat_alter, ?get_ref_ins_index_dat_alter, Hopc
    in Hrun.
  change (2415919104 =? 268435456) with false in Hrun.
  change (2415919104 =? 2415919104) with true in Hrun.
  cbv iota in Hrun. unfold A64_MAX_INSTRUCTIONS in *.
  assert (0 <= Z.lor 0x58000040 (Z.land (load m pc) 0x1f) < 2 ^ 32) as Hword.
  { apply lor_range; [lia|lia|by apply land_range]. }
  repeat case_match; simplify_eq; bool_to_prop; try lia.
  all: state_simpl; rewrite ?insp_dat_at_drain, ?dat_at_set_insp, ?Z.eqb_refl
         by (rewrite ?(proj2 (proj2 (dat_alter_base _ _ _))); lia).
  all: split; [done|]; split; [done|]; split; [intros ?; simplify_eq|intros ?; simplify_eq].
  all: repeat (erewrite load_after_resolve by (first [eassumption|same_pending_tac|lia])).
  all: load_tac.
  all: change (Z.lor 1476395008 (Z.land (shl32 (8 ≫ 2) 5) (not32 2667577344)))
         with 1476395072.
  all: rewrite ?(u32_small _ Hword), ?(u32_small _ Hins).
  all: repeat split; try done; try lia.
  all: unfold A64_LOGI, A64_LOGE; rewrite ?in_app_iff; simpl; auto.
Qed.

Lemma ndebug_log_info f a l : ndebug_log (A64_LOGI f a l) = ndebug_log l.
Proof.
  unfold ndebug_log, A64_LOGI. rewrite List.filter_app. simpl. apply app_nil_r.
Qed.

Lemma ndebug_log_error f a l :
  ndebug_log (A64_LOGE f a l) = ndebug_log l ++ [LogEntry ANDROID_LOG_ERROR f a].
Proof. unfold ndebug_log, A64_LOGE. by rewrite List.filter_app. Qed.

(** C8, as stated, fails on the log: for [ADRP X0, #0] at the page-aligned
    [0x10000000], whose page base is its own address, the word is copied
    verbatim, the two lines the embedded build logs are [A64_LOGI] lines,
    and a build with [NDEBUG] logs nothing at all. *)
Lemma adrp_in_window_silent_with_ndebug :
  let s := State 0x10000000 0x80000000 (init_context 0x10000000 2) adrp_self_memory [] in
  is_in_fixing_range (ctx s) (adrp_address (inp s) (load (mem s) (inp s))) = true
  /\ load (mem (__fix_pcreladdr s).2) 0x80000000 = load (mem s) (inp s)
  /\ map lvl (log (__fix_pcreladdr s).2) = [ANDROID_LOG_INFO; ANDROID_LOG_INFO]
  /\ ndebug_log (log (__fix_pcreladdr s).2) = [].
Proof. by vm_compute. Qed.

(** C8, amended: an [ADRP] with a non-negative immediate whose page base
    is outside the window is always replaced, at [o], by
    [LDR Xd, #8; B #12; <8-byte page base>], where [o] is the cursor if
    [out + 2] words is 8-aligned and one word further, after one NOP, if
    it is not; one whose page base is inside the window is copied
    verbatim, one word; a build without [NDEBUG] then logs the operands
    and the line asking for the correct fix, at info level, and either
    build logs an error line exactly when the page base is a later
    instruction. *)
Theorem adrp_relocation lo base n i s :
  window_inv lo base n i s -> i < n ->
  let ins := load (mem s) (inp s) in
  let tgt := adrp_address (inp s) ins in
  let o := if (outp s + 4 * 2) mod 8 =? 0 then outp s else outp s + 4 in
  Z.land ins 0x9f000000 = 0x90000000 ->
  0 <= simm21 ins ->
  exists s',
    __fix_pcreladdr s = (true, s')
    /\ inp s' = inp s + 4
    /\ (is_in_fixing_range (ctx s) tgt = false ->
        outp s' = o + 4 * 4
        /\ (o ≠ outp s -> load (mem s') (outp s) = A64_NOP)
        /\ load (mem s') o = Z.lor 0x58000040 (Z.land ins 0x1f)
        /\ load (mem s') (o + 4) = 0x14000003
        /\ load (mem s') (o + 8) = u32 tgt
        /\ load (mem s') (o + 12) = u32 (Z.shiftr tgt 32)
        /\ (o + 4 * 2) mod 8 = 0
        /\ insp (dat_at (ctx s') i) = o)
    /\ (is_in_fixing_range (ctx s) tgt = true ->
        outp s' = outp s + 4
        /\ load (mem s') (outp s) = ins
        /\ log s'
           = A64_LOGI "What is the correct way to fix this?" []
               ((if i <? get_ref_ins_index (ctx s) tgt
                 then A64_LOGE "ref_idx must be less than or equal to current_idx!" []
                 else id)
                  (A64_LOGI "ins = 0x%.8X, pc = %p, abs_addr = %p" [ins; inp s; tgt]
                            (log s)))
        /\ ndebug_log (log s')
           = ndebug_log (log s)
             ++ (if i <? get_ref_ins_index (ctx s) tgt
                 then [LogEntry ANDROID_LOG_ERROR
                         "ref_idx must be less than or equal to current_idx!" []]
                 else [])).
Proof.
  intros Hw Hi ins tgt o Hopc Hpos. subst ins.
  pose proof (load_range (mem s) (inp s)) as Hins.
  pose proof (adrp_target_nonneg (inp s) _ Hins Hpos) as Hdec. fold tgt in Hdec.
  pose proof (window_current_idx _ _ _ _ _ Hw) as Hidx.
  pose proof (adrp_relocation_decoded lo base n i s Hw Hi) as H.
  cbv zeta in H. fold o in H. unfold adrp_in_window_log in H. cbv zeta in H.
  rewrite Hdec, Hidx in H.
  destruct (H Hopc) as (s' & Hrun & Hinp & Hout & Hin). exists s'.
  split; [done|]. split; [done|]. split; [done|].
  intros Hrange. destruct (Hin Hrange) as (Hcur & Hword & Hlog & _).
  split; [done|]. split; [done|]. rewrite Hlog.
  destruct (i <? get_ref_ins_index (ctx s) tgt); split; try done.
  - by rewrite ndebug_log_info, ndebug_log_error, ndebug_log_info.
  - by rewrite !ndebug_log_info, app_nil_r.
Qed.

Lemma adrp_relocation_witness :
  let s := State 0x10000000 0x80000000 (init_context 0x10000000 2) adrp_memory [] in
  let ins := load (mem s) (inp s) in
  let tgt := adrp_address (inp s) ins in
  let o := if (outp s + 4 * 2) mod 8 =? 0 then outp s else outp s + 4 in
  exists s',
    __fix_pcreladdr s = (true, s')
    /\ inp s' = inp s + 4
    /\ (is_in_fixing_range (ctx s) tgt = false ->
        outp s' = o + 4 * 4
        /\ (o ≠ outp s -> load (mem s') (outp s) = A64_NOP)
        /\ load (mem s') o = Z.lor 0x58000040 (Z.land ins 0x1f)
        /\ load (mem s') (o + 4) = 0x14000003
        /\ load (mem s') (o + 8) = u32 tgt
        /\ load (mem s') (o + 12) = u32 (Z.shiftr tgt 32)
        /\ (o + 4 * 2) mod 8 = 0
        /\ insp (dat_at (ctx s') 0) = o)
    /\ (is_in_fixing_range (ctx s) tgt = true ->
        outp s' = outp s + 4
        /\ load (mem s') (outp s) = ins
        /\ log s'
           = A64_LOGI "What is the correct way to fix this?" []
               ((if 0 <? get_ref_ins_index (ctx s) tgt
                 then A64_LOGE "ref_idx must be less than or equal to current_idx!" []
                 else id)
                  (A64_LOGI "ins = 0x%.8X, pc = %p, abs_addr = %p" [ins; inp s; tgt]
                            (log s)))
        /\ ndebug_log (log s')
           = ndebug_log (log s)
             ++ (if 0 <? get_ref_ins_index (ctx s) tgt
                 then [LogEntry ANDROID_LOG_ERROR
                         "ref_idx must be less than or equal to current_idx!" []]
                 else [])).
Proof.
  cbv zeta.
  apply (adrp_relocation 0x80000000 0x10000000 2 0).
  - apply window_inv_init; [unfold A64_MAX_INSTRUCTIONS; lia|lia|reflexivity].
  - lia.
  - reflexivity.
  - by vm_compute.
Defined.

(** An [ADRP] with a negative immediate is not covered by C8, amended: the
    code adds the masked 32-bit offset as an unsigned value, so for
    [ADRP X1, #-0x1000] at [0x10000000] the literal is [0x10ffff000],
    [2^32] above the page base [0x0ffff000]. *)
Example adrp_negative_immediate_high :
  let s := State 0x10000000 0x80000000 (init_context 0x10000000 1) adrp_back_memory [] in
  simm21 (load (mem s) (inp s)) = -1
  /\ adrp_address (inp s) (load (mem s) (inp s)) = 0x0ffff000
  /\ map (load (mem (__fix_pcreladdr s).2)) [0x80000000; 0x80000004]
     = [0x58000041; 0x14000003]
  /\ load64 (mem (__fix_pcreladdr s).2) 0x80000008 = 0x0ffff000 + 2 ^ 32.
Proof. by vm_compute. Qed.

(** The two cases of C8 run on concrete windows: [ADRP X0, #0x1000] is
    expanded, [ADRP X0, #0] at a page-aligned window is copied and
    logged. *)
Example adrp_outside_window_expanded :
  let s := State 0x10000000 0x80000000 (init_context 0x10000000 2) adrp_memory [] in
  is_in_fixing_range (ctx s) (adrp_target (inp s) (load (mem s) (inp s))) = false
  /\ map (load (mem (__fix_pcreladdr s).2)) [0x80000000; 0x80000004; 0x80000008; 0x8000000c]
     = [0x58000040; 0x14000003; 0x10001000; 0]
  /\ outp (__fix_pcreladdr s).2 = 0x80000010.
Proof. by vm_compute. Qed.

Example adrp_inside_window_copied :
  let s := State 0x10000000 0x80000000 (init_context 0x10000000 2) adrp_self_memory [] in
  is_in_fixing_range (ctx s) (adrp_target (inp s) (load (mem s) (inp s))) = true
  /\ load (mem (__fix_pcreladdr s).2) 0x80000000 = 0x90000000
  /\ outp (__fix_pcreladdr s).2 = 0x80000004
  /\ map fmt (log (__fix_pcreladdr s).2)
     = ["ins = 0x%.8X, pc = %p, abs_addr = %p"; "What is the correct way to fix this?"]%string.
Proof. by vm_compute. Qed.

(** ** C9: how far one rewriter call moves the output cursor *)

(** C9, as stated, fails at both ends: [__fix_loadlit] drops a [PRFM]
    (literal) without emitting anything, leaving the cursor unmoved, and
    it spends nine words (three NOPs, [LDR], [B] and four data words) on
    [LDR Q0, #0x100] from a cursor at 12 modulo 16. *)
Lemma rewriter_advance_outside_one_to_six :
  (let s := State 0x10000000 0x80000000 (init_context 0x10000000 1) prfm_memory [] in
   exists s', __fix_loadlit 3 s = Some (true, s')
              /\ inp s' = inp s + 4 /\ outp s' = outp s
              /\ ~ (outp s + 4 * 1 <= outp s'))
  /\
  (let s := State 0x10000000 0x8000000c (init_context 0x10000000 1) ldr_q_memory [] in
   exists s', __fix_loadlit 3 s = Some (true, s')
              /\ outp s' = outp s + 4 * 9
              /\ ~ (outp s' <= outp s + 4 * 6)).
Proof.
  split; cbv zeta.
  - eexists. split; [vm_compute; reflexivity|]. cbn [inp outp]. lia.
  - eexists. split; [vm_compute; reflexivity|]. cbn [inp outp]. lia.
Qed.

(** C9, amended: whenever one of the four rewriters processes an
    instruction of the window, from a word-aligned cursor, the cursor
    advances by a whole number [k] of words with [0 <= k <= 9]; it stays
    unmoved only for [PRFM] (literal). *)
Theorem rewriter_cursor_advance lo base n i fuel s s' :
  window_inv lo base n i s -> i < n -> (3 <= fuel)%nat ->
  __fix_branch_imm s = (true, s')
  \/ __fix_cond_comp_test_branch s = (true, s')
  \/ __fix_loadlit fuel s = Some (true, s')
  \/ __fix_pcreladdr s = (true, s') ->
  exists k, outp s' = outp s + 4 * k /\ 0 <= k <= 9
            /\ (k = 0 -> Z.land (load (mem s) (inp s)) 0xff000000 = 0xd8000000).
Proof.
  intros Hw Hi Hfuel Hrun.
  assert (step_ok n i s s') as [_ Hout Hmin Hal Hpot _ _].
  { destruct Hrun as [H|[H|[H|H]]].
    - eauto using fix_branch_imm_step.
    - eauto using fix_cond_comp_test_branch_step.
    - destruct (fix_loadlit_step lo base n i s fuel Hw Hi Hfuel) as (r & Hr & _ & Ht).
      rewrite H in Hr. simplify_eq. by apply Ht.
    - eauto using fix_pcreladdr_step. }
  pose proof (wi_align _ _ _ _ _ Hw) as Hal0.
  exists ((outp s' - outp s) / 4).
  unfold phi in Hpot. repeat case_match; (split; [lia|]); (split; [lia|]).
  all: intros Hk; destruct Hmin as [Hlt|Hp]; [lia|exact Hp].
Qed.

Lemma rewriter_cursor_advance_witness :
  let s := State 0x10000000 0x8000000c (init_context 0x10000000 1) ldr_q_memory [] in
  let s' := match __fix_loadlit 3 s with Some r => r.2 | None => s end in
  exists k, outp s' = outp s + 4 * k /\ 0 <= k <= 9
            /\ (k = 0 -> Z.land (load (mem s) (inp s)) 0xff000000 = 0xd8000000).
Proof.
  cbv zeta.
  apply (rewriter_cursor_advance 0x8000000c 0x10000000 1 0 3).
  - apply window_inv_init; [unfold A64_MAX_INSTRUCTIONS; lia|lia|reflexivity].
  - lia.
  - lia.
  - right; right; left. vm_compute. reflexivity.
Defined.

(** ** C10: a null trampoline buffer *)

(** C10: called with a null trampoline buffer, and [mprotect] succeeding,
    [A64HookFunctionV] skips the relocator, writes the diverting prologue
    over the displaced words of the target and nothing else, and returns
    null. *)
Theorem hook_without_trampoline mprotect errno fuel m l symbol replace rwx_size :
  __make_rwx mprotect symbol (patch_bytes symbol replace) = 0 ->
  exists r,
    A64HookFunctionV mprotect errno fuel m l symbol replace 0 rwx_size = Some r
    /\ ret r = 0
    /\ prologue_installed symbol replace (hmem r)
    /\ touched_only
         (fun a => symbol <= a < symbol + 4 * displaced_count symbol replace)
         m (hmem r).
Proof.
  unfold patch_bytes, prologue_installed, displaced_count, long_patch.
  unfold A64HookFunctionV, backup_instructions. cbv zeta.
  change (negb (0 =? 0)) with false. cbv iota. rewrite land_7.
  intros Hmp.
  destruct (Z.leb_spec (Z.shiftr 67108863 1) (Z.abs (Z.shiftr (replace - symbol) 2))).
  - rewrite Hmp. change (0 =? 0) with true. cbv iota.
    destruct (Z.eqb_spec ((symbol + 4 * 2) mod 8) 0); simpl negb; cbv iota;
      [change (4 =? 5) with false|change (5 =? 5) with true]; cbv iota;
      eexists; (split; [reflexivity|]); cbn [ret hmem]; (split; [reflexivity|]).
    + split; [|unfold store64; repeat (eapply touched_only_trans;
        [|apply touched_only_store; cbv beta; lia]); apply touched_only_refl].
      load_tac. repeat split; try done.
    + split; [|unfold store64; repeat (eapply touched_only_trans;
        [|apply touched_only_store; cbv beta; lia]); apply touched_only_refl].
      load_tac. repeat split; try done.
  - rewrite Hmp. change (0 =? 0) with true. cbv iota.
    eexists; (split; [reflexivity|]); cbn [ret hmem]; (split; [reflexivity|]).
    split; [|apply touched_only_store; cbv beta; lia].
    load_tac. apply u32_small, lor_range; [lia|lia|apply land_range_mask26].
Qed.

Lemma hook_without_trampoline_witness :
  exists r,
    A64HookFunctionV (fun _ _ _ => 0) 0 3 b_forward_memory [] 0x10000000 0x20000000 0 0
    = Some r
    /\ ret r = 0
    /\ prologue_installed 0x10000000 0x20000000 (hmem r)
    /\ touched_only
         (fun a => 0x10000000 <= a < 0x10000000 + 4 * displaced_count 0x10000000 0x20000000)
         b_forward_memory (hmem r).
Proof.
  apply (hook_without_trampoline (fun _ _ _ => 0) 0 3 b_forward_memory []
                                 0x10000000 0x20000000 0).
  reflexivity.
Defined.

(** ** The short patch, end to end *)

(** Hooking [ADD X0, X0, #1; RET] at [0x1000] with a replacement at
    [0x1100] and a trampoline at [0x2000]: the target starts with
    [B #0x100], the trampoline holds the displaced [ADD] and a branch back
    to [0x1004]. *)
Example short_patch_installed :
  exists r,
    A64HookFunctionV (fun _ _ _ => 0) 0 3 add_ret_memory [] 0x1000 0x1100 0x2000 40
    = Some r
    /\ ret r = 0x2000
    /\ map (load (hmem r)) [0x1000; 0x1004; 0x2000; 0x2004]
       = [0x14000040; 0xd65f03c0; 0x91000400; 0x17fffc00].
Proof.
  eexists. split; [vm_compute; reflexivity|]. by vm_compute.
Qed.

(** * Further properties of the code *)

(** ** The page macros *)

Lemma page_mask x : Z.land x (2 ^ 64 - 4096) = x mod 2 ^ 64 - x mod 4096.
Proof. change 4096 with (2 ^ 12). apply land_mask. lia. Qed.

Lemma ptr_align_floor x : 0 <= x < 2 ^ 64 -> __ptr_align x = 4096 * (x / 4096).
Proof.
  intros Hx. unfold __ptr_align, __align_down, __page_size.
  change (u64 (- 4096)) with (2 ^ 64 - 4096). rewrite page_mask.
  unfold u64. lia.
Qed.

Lemma page_align_ceil n :
  0 <= n <= 2 ^ 64 - 4096 -> __page_align n = 4096 * ((n + 4095) / 4096).
Proof.
  intros Hn. unfold __page_align, __align_up, __page_size.
  change (u64 (Z.lnot (4096 - 1))) with (2 ^ 64 - 4096). rewrite page_mask.
  unfold u64. lia.
Qed.

(** [__ptr_align] rounds an address down to its page and [__page_align]
    rounds a length up to whole pages. *)
Lemma page_macros_round x :
  0 <= x <= 2 ^ 64 - 4096 ->
  __ptr_align x = 4096 * (x / 4096)
  /\ __page_align x = 4096 * ((x + 4095) / 4096)
  /\ __ptr_align x <= x <= __page_align x
  /\ __page_align x - __ptr_align x <= 4096.
Proof.
  intros Hx. rewrite ptr_align_floor, page_align_ceil by lia. lia.
Qed.




(** ** The context *)

(** X2: [get_ref_ins_index] of an address inside the fixing range is the
    index of the instruction that contains it, so it is a valid index of
    [dat] for a window of at most [A64_MAX_INSTRUCTIONS] instructions. *)
Theorem fixing_range_index c a n :
  0 <= n <= A64_MAX_INSTRUCTIONS -> endp c = basep c + 4 * n ->
  is_in_fixing_range c a = true ->
  let j := get_ref_ins_index c a in
  0 <= j < n /\ basep c + 4 * j <= a < basep c + 4 * j + 4.
Proof.
  unfold is_in_fixing_range, A64_MAX_INSTRUCTIONS. intros Hn He Hin.
  apply andb_true_iff in Hin as [H1%Z.leb_le H2%Z.ltb_lt].
  cbv zeta. rewrite get_ref_ins_index_small; lia.
Qed.

Lemma fixing_range_index_witness :
  let c := init_context 0x1000 3 in
  let j := get_ref_ins_index c 0x100a in
  0 <= j < 3 /\ basep c + 4 * j <= 0x100a < basep c + 4 * j + 4.
Proof.
  apply (fixing_range_index (init_context 0x1000 3) 0x100a 3);
    [unfold A64_MAX_INSTRUCTIONS; lia|reflexivity|reflexivity].
Defined.

Lemma fmap_insert_full f fm : Forall (fun g => bp g ≠ 0) fm -> fmap_insert f fm = fm.
Proof.
  induction 1 as [|g rest Hg _ IH]; simpl; [done|].
  destruct (Z.eqb_spec (bp g) 0); [done|]. by rewrite IH.
Qed.

Lemma dat_alter_id f idx c :
  f (dat_at c idx) = dat_at c idx -> dat_alter f idx c = c.
Proof.
  unfold dat_alter, dat_at. destruct (Z.ltb_spec idx 0); [done|].
  intros Hf. destruct c as [b e d]. simpl in *. f_equal.
  apply list_eq. intros k. destruct (decide (k = Z.to_nat idx)) as [->|].
  - rewrite list_lookup_alter_eq. destruct (d !! Z.to_nat idx); simpl in *; [by f_equal|done].
  - by rewrite list_lookup_alter_ne.
Qed.

(** X3: an [fmap] whose [A64_MAX_REFERENCES] slots are all in use takes no
    further fix-up: [insert_fix_map] returns without recording it. *)
Theorem insert_fix_map_full c idx b l a :
  Forall (fun g => bp g ≠ 0) (fmap (dat_at c idx)) ->
  insert_fix_map c idx b l a = c.
Proof.
  intros Hfull. unfold insert_fix_map. apply dat_alter_id.
  rewrite fmap_insert_full by done. by destruct (dat_at c idx).
Qed.


Lemma insert_fix_map_full_witness :
  insert_fix_map full_context 2 0x2004 0 0x03ffffff = full_context.
Proof.
  apply (insert_fix_map_full full_context 2 0x2004 0 0x03ffffff).
  vm_compute. repeat constructor; discriminate.
Defined.

Lemma fmap_insert_drained f fm :
  drained fm -> fm ≠ [] -> exists rest, fmap_insert f fm = f :: rest /\ drained rest.
Proof.
  destruct 1 as [|g rest Hg Hrest]; [done|]. intros _. simpl.
  rewrite Hg. simpl. eauto.
Qed.

Lemma fmap_process_drained target fm m : drained fm -> fmap_process target fm m = (fm, m).
Proof. destruct 1 as [|g rest Hg Hrest]; simpl; [done|]. by rewrite Hg. Qed.

(** X4: a fix-up filed with [insert_fix_map] in an empty pending list is
    applied by the next [process_fix_map] of that instruction: the word at
    [b] is ORed with the displacement to the recorded output address,
    shifted and masked as filed, no other word changes and the list is
    empty again. *)
Theorem insert_then_process c idx b l a m :
  0 <= idx < Z.of_nat (length (dat c)) ->
  drained (fmap (dat_at c idx)) -> fmap (dat_at c idx) ≠ [] -> b ≠ 0 ->
  let r := process_fix_map (insert_fix_map c idx b l a) idx m in
  r.2 = store m b (Z.lor (load m b) (fix_value (insp (dat_at c idx)) b l a))
  /\ drained (fmap (dat_at r.1 idx))
  /\ insp (dat_at r.1 idx) = insp (dat_at c idx).
Proof.
  intros Hidx Hdr Hne Hb. cbv zeta.
  rewrite process_fix_map_fst. rewrite fmap_dat_at_drain, insp_dat_at_drain.
  destruct (decide (idx = idx)); [|done].
  unfold process_fix_map, insert_fix_map. rewrite dat_at_alter.
  destruct (decide (idx = idx /\ 0 <= idx < Z.of_nat (length (dat c)))); [|lia].
  cbn [insp fmap].
  destruct (fmap_insert_drained (FixInfo b l a) _ Hdr Hne) as (rest & -> & Hrest).
  simpl. destruct (Z.eqb_spec b 0); [done|].
  rewrite (fmap_process_drained _ rest _ Hrest). simpl.
  split; [done|]. split; [|done]. constructor; [done|].
  apply fmap_clear_drained. by apply drained_prefix_ok.
Qed.

Lemma insert_then_process_witness :
  let c := init_context 0x1000 3 in
  let m := store (fun _ => 0) 0x2000 0x14000000 in
  let r := process_fix_map (insert_fix_map c 2 0x2000 0 0x03ffffff) 2 m in
  r.2 = store m 0x2000 (Z.lor (load m 0x2000)
                              (fix_value (insp (dat_at c 2)) 0x2000 0 0x03ffffff))
  /\ drained (fmap (dat_at r.1 2))
  /\ insp (dat_at r.1 2) = insp (dat_at c 2).
Proof.
  apply (insert_then_process (init_context 0x1000 3) 2 0x2000 0 0x03ffffff
           (store (fun _ => 0) 0x2000 0x14000000)).
  - simpl. lia.
  - vm_compute. repeat constructor.
  - vm_compute. discriminate.
  - lia.
Defined.

Lemma fmap_process_clear target fm m :
  fmap_process target (fmap_clear fm) m = (fmap_clear fm, m).
Proof.
  destruct fm as [|f rest]; simpl; [done|].
  destruct (Z.eqb_spec (bp f) 0) as [Hf|Hf]; simpl; [by rewrite Hf|done].
Qed.

Lemma fmap_clear_idem fm : fmap_clear (fmap_clear fm) = fmap_clear fm.
Proof.
  destruct fm as [|f rest]; simpl; [done|].
  destruct (Z.eqb_spec (bp f) 0) as [Hf|Hf]; simpl; [by rewrite Hf|done].
Qed.

(** X5: [process_fix_map] applies each pending fix-up once: run again for
    the same instruction it changes neither the memory nor the context. *)
Theorem process_fix_map_idempotent c idx m :
  0 <= idx < Z.of_nat (length (dat c)) ->
  let r := process_fix_map c idx m in
  process_fix_map r.1 idx r.2 = r.
Proof.
  intros Hidx. cbv zeta.
  destruct (process_fix_map c idx m) as [c1 m1] eqn:Hr.
  pose proof (process_fix_map_fst c idx m) as Hc. rewrite Hr in Hc. simpl in Hc.
  subst c1. simpl.
  unfold process_fix_map at 1.
  assert (fmap (dat_at (drain c idx) idx) = fmap_clear (fmap (dat_at c idx))) as Hfm.
  { rewrite fmap_dat_at_drain. by destruct (decide (idx = idx)). }
  rewrite Hfm, fmap_process_clear. f_equal.
  apply dat_alter_id. rewrite <- Hfm. by destruct (dat_at (drain c idx) idx).
Qed.

Lemma process_fix_map_idempotent_witness :
  let c := insert_fix_map (init_context 0x1000 3) 2 0x2000 0 0x03ffffff in
  let r := process_fix_map c 2 (fun _ => 0) in
  process_fix_map r.1 2 r.2 = r.
Proof.
  apply (process_fix_map_idempotent
           (insert_fix_map (init_context 0x1000 3) 2 0x2000 0 0x03ffffff) 2 (fun _ => 0)).
  simpl. lia.
Defined.

(** ** The rewriters keep what the instruction refers to *)

(** X6: a [B]/[BL] aimed outside the window and still within reach of its
    immediate from the output cursor is re-encoded so that, decoded at its
    new address, it has the same opcode and the same target. *)
Theorem branch_imm_keeps_target lo base n i s :
  window_inv lo base n i s -> i < n -> base mod 4 = 0 ->
  let ins := load (mem s) (inp s) in
  let opc := Z.land ins 0xfc000000 in
  let tgt := branch_target (inp s) ins in
  opc = 0x14000000 \/ opc = 0x94000000 ->
  is_in_fixing_range (ctx s) tgt = false ->
  Z.abs (Z.shiftr (tgt - outp s) 2) < 2 ^ 25 - 1 ->
  exists s',
    __fix_branch_imm s = (true, s')
    /\ outp s' = outp s + 4
    /\ Z.land (load (mem s') (outp s)) 0xfc000000 = opc
    /\ branch_target (outp s) (load (mem s') (outp s)) = tgt.
Proof.
  intros Hw Hi Hbase ins opc tgt Hopc Hout Hoff.
  destruct (__fix_branch_imm s) as [b s'] eqn:Hrun.
  assert (b = true /\ outp s' = outp s + 4
          /\ load (mem s') (outp s) = branch_word opc (tgt - outp s))
    as (-> & Hadv & Hword).
  { pose proof (window_current_idx _ _ _ _ _ Hw) as Hidx.
    pose proof (wi_ctx _ _ _ _ _ Hw) as Hctx.
    subst ins opc tgt. unfold branch_word, branch_target in *.
    destruct s as [pc out c m l]. window_facts Hw.
    unfold __fix_branch_imm, begin_ins, get_and_set_current_index in Hrun.
    cbn [inp outp ctx mem log] in Hrun.
    rewrite Hidx in Hrun. clear Hidx.
    cbv zeta in Hrun. cbn [with_ctx inp outp ctx mem log] in Hrun.
    rewrite ?is_in_fixing_range_dat_alter, Hout in Hrun.
    change (67108863 ≫ 1) with (2 ^ 25 - 1) in Hrun.
    repeat case_match; simplify_eq; bool_to_prop; try lia.
    all: state_simpl; split; [done|]; split; [lia|].
    all: erewrite load_after_resolve by (first [eassumption|same_pending_tac|lia]).
    all: load_tac.
    all: apply u32_small, lor_range; [lia|lia|].
    all: apply land_range_mask26. }
  exists s'. split; [done|]. split; [done|]. rewrite Hword.
  pose proof (wi_inp _ _ _ _ _ Hw) as Hinp.
  pose proof (wi_align _ _ _ _ _ Hw) as Hal.
  assert ((tgt - outp s) mod 4 = 0 /\ - 2 ^ 27 <= tgt - outp s < 2 ^ 27) as [Hd Hr].
  { revert Hoff. subst tgt. unfold branch_target.
    rewrite !Z.shiftr_div_pow2 by lia. rewrite Hinp. pow_consts.
    change (2 ^ (6 - 2)) with 16.
    assert (s32 (shl32 ins 6) mod 64 = 0).
    { unfold s32, shl32, u32. rewrite Z.shiftl_mul_pow2 by lia. pow_consts.
      case_match; lia. }
    lia. }
  destruct (branch_round_trip (outp s) opc (tgt - outp s) Hopc Hd Hr) as [Ht Ho].
  split; [done|]. rewrite Ht. lia.
Qed.

Lemma branch_imm_keeps_target_witness :
  let s := State 0x10000000 0x10002000 (init_context 0x10000000 1)
                 b_forward_memory [] in
  let ins := load (mem s) (inp s) in
  exists s',
    __fix_branch_imm s = (true, s')
    /\ outp s' = outp s + 4
    /\ Z.land (load (mem s') (outp s)) 0xfc000000 = Z.land ins 0xfc000000
    /\ branch_target (outp s) (load (mem s') (outp s)) = branch_target (inp s) ins.
Proof.
  cbv zeta.
  apply (branch_imm_keeps_target 0x10002000 0x10000000 1 0).
  - apply window_inv_init; [unfold A64_MAX_INSTRUCTIONS; lia|lia|reflexivity].
  - lia.
  - reflexivity.
  - left. reflexivity.
  - reflexivity.
  - vm_compute. reflexivity.
Defined.

Lemma load64_words m a v :
  load m a = u32 v -> load m (a + 4) = u32 (Z.shiftr v 32) -> load64 m a = u64 v.
Proof.
  intros H1 H2. unfold load64. rewrite H1, H2. to_arith. lia.
Qed.

(** The expansion of a far [B] or [BL], laid out: [k] is the index of the
    literal in the sequence, 2 for [B] and 3 for [BL]. *)
Lemma fix_branch_imm_far lo base n i s :
  window_inv lo base n i s -> i < n ->
  let ins := load (mem s) (inp s) in
  let opc := Z.land ins 0xfc000000 in
  let tgt := branch_target (inp s) ins in
  let k := if opc =? 0x14000000 then 2 else 3 in
  let o := if (outp s + 4 * k) mod 8 =? 0 then outp s else outp s + 4 in
  opc = 0x14000000 \/ opc = 0x94000000 ->
  is_in_fixing_range (ctx s) tgt = false ->
  2 ^ 25 - 1 <= Z.abs (Z.shiftr (tgt - outp s) 2) ->
  exists s',
    __fix_branch_imm s = (true, s')
    /\ inp s' = inp s + 4
    /\ outp s' = o + 4 * (k + 2)
    /\ (o ≠ outp s -> load (mem s') (outp s) = A64_NOP)
    /\ load (mem s') o = (if opc =? 0x14000000 then 0x58000051 else 0x58000071)
    /\ load (mem s') (o + 4) = (if opc =? 0x14000000 then 0xd61f0220 else 0x1000009e)
    /\ load (mem s') (o + 4 * (k - 1)) = 0xd61f0220
    /\ load (mem s') (o + 4 * k) = u32 tgt
    /\ load (mem s') (o + 4 * k + 4) = u32 (Z.shiftr tgt 32)
    /\ (o + 4 * k) mod 8 = 0
    /\ insp (dat_at (ctx s') i) = o.
Proof.
  intros Hw Hi ins opc tgt k o Hopc Hout Hoff.
  destruct (__fix_branch_imm s) as [b s'] eqn:Hrun. exists s'.
  pose proof (window_current_idx _ _ _ _ _ Hw) as Hidx.
  pose proof (wi_ctx _ _ _ _ _ Hw) as Hctx.
  pose proof (wi_idx _ _ _ _ _ Hw) as Hidx0.
  subst ins opc tgt k o. unfold branch_target in *.
  destruct s as [pc out c m l]. window_facts Hw.
  unfold __fix_branch_imm, begin_ins, get_and_set_current_index in Hrun.
  cbn [inp outp ctx mem log] in Hrun.
  rewrite Hidx in Hrun. clear Hidx.
  cbv zeta in Hrun. cbn [with_ctx inp outp ctx mem log] in Hrun.
  rewrite ?land_7, ?is_in_fixing_range_dat_alter, Hout in Hrun.
  change (67108863 ≫ 1) with (2 ^ 25 - 1) in Hrun.
  unfold A64_MAX_INSTRUCTIONS in *.
  destruct Hopc as [Hopc|Hopc]; rewrite Hopc in *.
  - change (335544320 =? 335544320) with true in *.
    change (335544320 =? 2483027968) with false in *. cbv iota in *.
    repeat case_match; simplify_eq; bool_to_prop; try lia.
    all: state_simpl; rewrite ?insp_dat_at_drain, ?dat_at_set_insp, ?Z.eqb_refl
           by (rewrite ?(proj2 (proj2 (dat_alter_base _ _ _))); lia).
    all: repeat (erewrite load_after_resolve by (first [eassumption|same_pending_tac|lia])).
    all: load_tac.
    all: repeat split; try done; try lia.
  - change (2483027968 =? 335544320) with false in *.
    change (2483027968 =? 2483027968) with true in *. cbv iota in *.
    repeat case_match; simplify_eq; bool_to_prop; try lia.
    all: state_simpl; rewrite ?insp_dat_at_drain, ?dat_at_set_insp, ?Z.eqb_refl
           by (rewrite ?(proj2 (proj2 (dat_alter_base _ _ _))); lia).
    all: repeat (erewrite load_after_resolve by (first [eassumption|same_pending_tac|lia])).
    all: load_tac.
    all: repeat split; try done; try lia.
Qed.

(** X7: a [B] aimed outside the window and out of reach from the output
    cursor becomes [LDR X17, #8; BR X17; <8-byte target>] at [o], the cursor
    itself or one word further after a [NOP]; the literal the [LDR] reads
    is 8-byte aligned and holds the target, and the recorded output address
    of the instruction is [o]. *)
Theorem branch_out_of_range lo base n i s :
  window_inv lo base n i s -> i < n ->
  let ins := load (mem s) (inp s) in
  let tgt := branch_target (inp s) ins in
  let o := if (outp s + 4 * 2) mod 8 =? 0 then outp s else outp s + 4 in
  Z.land ins 0xfc000000 = 0x14000000 ->
  is_in_fixing_range (ctx s) tgt = false ->
  2 ^ 25 - 1 <= Z.abs (Z.shiftr (tgt - outp s) 2) ->
  exists s',
    __fix_branch_imm s = (true, s')
    /\ inp s' = inp s + 4
    /\ outp s' = o + 4 * 4
    /\ (o ≠ outp s -> load (mem s') (outp s) = A64_NOP)
    /\ load (mem s') o = 0x58000051
    /\ load (mem s') (o + 4) = 0xd61f0220
    /\ loadlit_target o (load (mem s') o) = o + 8
    /\ (o + 8) mod 8 = 0
    /\ load64 (mem s') (o + 8) = u64 tgt
    /\ insp (dat_at (ctx s') i) = o.
Proof.
  intros Hw Hi ins tgt o Hopc Hout Hoff.
  destruct (fix_branch_imm_far lo base n i s Hw Hi) as (s' & Hrun & H); try done.
  { by left. }
  fold ins in H, Hopc. fold tgt in H. rewrite Hopc in H.
  change (335544320 =? 335544320) with true in H. cbv iota in H. fold o in H.
  destruct H as (Hinp & Hadv & Hnop & H0 & H1 & _ & H2 & H3 & Hal & Hinsp).
  exists s'. rewrite H0, loadlit_target_rel.
  change (loadlit_target 0 1476395089) with 8.
  repeat (split; [done|]). split; [by apply load64_words|done].
Qed.

Lemma branch_out_of_range_witness :
  let s := State 0x10000000 0x80000004 (init_context 0x10000000 1)
                 b_forward_memory [] in
  let tgt := branch_target (inp s) (load (mem s) (inp s)) in
  let o := if (outp s + 4 * 2) mod 8 =? 0 then outp s else outp s + 4 in
  exists s',
    __fix_branch_imm s = (true, s')
    /\ inp s' = inp s + 4
    /\ outp s' = o + 4 * 4
    /\ (o ≠ outp s -> load (mem s') (outp s) = A64_NOP)
    /\ load (mem s') o = 0x58000051
    /\ load (mem s') (o + 4) = 0xd61f0220
    /\ loadlit_target o (load (mem s') o) = o + 8
    /\ (o + 8) mod 8 = 0
    /\ load64 (mem s') (o + 8) = u64 tgt
    /\ insp (dat_at (ctx s') 0) = o.
Proof.
  cbv zeta.
  apply (branch_out_of_range 0x80000004 0x10000000 1 0).
  - apply window_inv_init; [unfold A64_MAX_INSTRUCTIONS; lia|lia|reflexivity].
  - lia.
  - reflexivity.
  - reflexivity.
  - by vm_compute.
Defined.

(** X8: in the expansion of a far [BL], the [ADR X30, #16] gives the link
    register the address of the word that follows the expansion, where the
    relocation continues, and the [LDR X17, #12] reads the 8-byte literal
    that holds the target of the call. *)
Theorem branch_link_returns_after_expansion lo base n i s :
  window_inv lo base n i s -> i < n ->
  let ins := load (mem s) (inp s) in
  let tgt := branch_target (inp s) ins in
  let o := if (outp s + 4 * 3) mod 8 =? 0 then outp s else outp s + 4 in
  Z.land ins 0xfc000000 = 0x94000000 ->
  is_in_fixing_range (ctx s) tgt = false ->
  2 ^ 25 - 1 <= Z.abs (Z.shiftr (tgt - outp s) 2) ->
  exists s',
    __fix_branch_imm s = (true, s')
    /\ Z.land (load (mem s') (o + 4)) 0x9f00001f = Z.lor 0x10000000 30
    /\ adr_target (o + 4) (load (mem s') (o + 4)) = outp s'
    /\ loadlit_target o (load (mem s') o) = o + 12
    /\ load64 (mem s') (o + 12) = u64 tgt.
Proof.
  intros Hw Hi ins tgt o Hopc Hout Hoff.
  destruct (fix_branch_imm_far lo base n i s Hw Hi) as (s' & Hrun & H); try done.
  { by right. }
  fold ins in H, Hopc. fold tgt in H. rewrite Hopc in H.
  change (2483027968 =? 335544320) with false in H. cbv iota in H. fold o in H.
  destruct H as (Hinp & Hadv & Hnop & H0 & H1 & _ & H2 & H3 & Hal & Hinsp).
  exists s'. rewrite H0, H1, Hadv, adr_target_rel, loadlit_target_rel.
  change (adr_target 0 268435614) with 16.
  change (loadlit_target 0 1476395121) with 12.
  split; [done|]. split; [done|]. split; [lia|]. split; [done|].
  apply load64_words; [done|]. by replace (o + 12 + 4) with (o + 4 * 3 + 4) by lia.
Qed.

Lemma branch_link_returns_after_expansion_witness :
  let s := State 0x10000000 0x80000000 (init_context 0x10000000 1) bl_memory [] in
  let tgt := branch_target (inp s) (load (mem s) (inp s)) in
  let o := if (outp s + 4 * 3) mod 8 =? 0 then outp s else outp s + 4 in
  exists s',
    __fix_branch_imm s = (true, s')
    /\ Z.land (load (mem s') (o + 4)) 0x9f00001f = Z.lor 0x10000000 30
    /\ adr_target (o + 4) (load (mem s') (o + 4)) = outp s'
    /\ loadlit_target o (load (mem s') o) = o + 12
    /\ load64 (mem s') (o + 12) = u64 tgt.
Proof.
  cbv zeta.
  apply (branch_link_returns_after_expansion 0x80000000 0x10000000 1 0).
  - apply window_inv_init; [unfold A64_MAX_INSTRUCTIONS; lia|lia|reflexivity].
  - lia.
  - reflexivity.
  - reflexivity.
  - by vm_compute.
Defined.

Lemma cond_branch_lmask_cases ins lmask :
  cond_branch_lmask ins = Some lmask -> lmask = 0xff00001f \/ lmask = 0xfff8001f.
Proof.
  unfold cond_branch_lmask. cbv zeta. intros H. repeat case_match; simplify_eq; auto.
Qed.

Lemma cond_branch_target_aligned pc ins lmask :
  lmask = 0xff00001f \/ lmask = 0xfff8001f ->
  (cond_branch_target pc ins lmask - pc) mod 4 = 0.
Proof.
  intros Hl. unfold cond_branch_target.
  destruct Hl as [-> | ->].
  - change (clz32 (not32 4278190111)) with 8.
    change (not32 4278190111) with (2 ^ 24 - 2 ^ 5). rewrite land_mask by lia.
    to_arith. change (2 ^ 8) with 256. change (2 ^ (5 - 2 + 8)) with 2048.
    case_match; lia.
  - change (clz32 (not32 4294443039)) with 13.
    change (not32 4294443039) with (2 ^ 19 - 2 ^ 5). rewrite land_mask by lia.
    to_arith. change (2 ^ (5 - 2 + 13)) with 65536.
    case_match; lia.
Qed.

(** X9: a conditional branch aimed outside the window and still within
    reach of its immediate from the output cursor is re-encoded so that,
    decoded at its new address, it has the same condition, register and
    bit-number fields and the same target. *)
Theorem cond_branch_keeps_target lo base n i s lmask :
  window_inv lo base n i s -> i < n -> base mod 4 = 0 ->
  let ins := load (mem s) (inp s) in
  let tgt := cond_branch_target (inp s) ins lmask in
  let out_off := Z.shiftr (tgt - outp s) 2 in
  cond_branch_lmask ins = Some lmask ->
  is_in_fixing_range (ctx s) tgt = false ->
  (lmask = 0xff00001f /\ Z.abs out_off < 2 ^ 18 - 1)
  \/ (lmask = 0xfff8001f /\ Z.abs out_off < 2 ^ 13 - 1) ->
  exists s',
    __fix_cond_comp_test_branch s = (true, s')
    /\ outp s' = outp s + 4
    /\ Z.land (load (mem s') (outp s)) lmask = Z.land ins lmask
    /\ cond_branch_target (outp s) (load (mem s') (outp s)) lmask = tgt.
Proof.
  intros Hw Hi Hbase ins tgt out_off Hlmask Hout Hoff.
  destruct (__fix_cond_comp_test_branch s) as [b s'] eqn:Hrun.
  pose proof (load_range (mem s) (inp s)) as Hins.
  assert (b = true /\ outp s' = outp s + 4
          /\ load (mem s') (outp s) = cond_branch_word ins lmask (tgt - outp s))
    as (-> & Hadv & Hword).
  { pose proof (window_current_idx _ _ _ _ _ Hw) as Hidx.
    pose proof (wi_ctx _ _ _ _ _ Hw) as Hctx.
    subst ins tgt out_off. unfold cond_branch_word, cond_branch_target in *.
    destruct s as [pc out c m l]. window_facts Hw.
    unfold __fix_cond_comp_test_branch, begin_ins, get_and_set_current_index in Hrun.
    cbn [inp outp ctx mem log] in Hrun. rewrite Hlmask in Hrun.
    rewrite Hidx in Hrun. clear Hidx.
    cbv zeta in Hrun. cbn [with_ctx inp outp ctx mem log] in Hrun.
    rewrite ?is_in_fixing_range_dat_alter, Hout in Hrun.
    destruct Hoff as [[-> Hoff]|[-> Hoff]].
    all: change (not32 4278190111 ≫ (5 + 1)) with (2 ^ 18 - 1) in Hrun.
    all: change (not32 4294443039 ≫ (5 + 1)) with (2 ^ 13 - 1) in Hrun.
    all: repeat case_match; simplify_eq; bool_to_prop; try lia.
    all: state_simpl; split; [done|]; split; [lia|].
    all: erewrite load_after_resolve by (first [eassumption|same_pending_tac|lia]).
    all: load_tac.
    all: apply u32_small, lor_range; [lia| |by apply land_range].
    all: apply land_range; [lia|]; unfold u32; by apply Z.mod_pos_bound. }
  exists s'. split; [done|]. split; [done|]. rewrite Hword.
  pose proof (wi_inp _ _ _ _ _ Hw) as Hinp.
  pose proof (wi_align _ _ _ _ _ Hw) as Hal.
  pose proof (cond_branch_target_aligned (inp s) ins lmask
                (cond_branch_lmask_cases _ _ Hlmask)) as Hta. fold tgt in Hta.
  destruct (cond_branch_round_trip (outp s) ins lmask (tgt - outp s)) as [Ht Hf];
    [done|lia| |].
  { subst out_off. rewrite Z.shiftr_div_pow2 in Hoff by lia. pow_consts.
    destruct Hoff as [[-> Hoff]|[-> Hoff]]; [left|right]; (split; [done|lia]). }
  split; [done|]. rewrite Ht. lia.
Qed.

Lemma cond_branch_keeps_target_witness :
  let s := State 0x10000000 0x10002000 (init_context 0x10000000 1) bcond_memory [] in
  let ins := load (mem s) (inp s) in
  let tgt := cond_branch_target (inp s) ins 0xff00001f in
  exists s',
    __fix_cond_comp_test_branch s = (true, s')
    /\ outp s' = outp s + 4
    /\ Z.land (load (mem s') (outp s)) 0xff00001f = Z.land ins 0xff00001f
    /\ cond_branch_target (outp s) (load (mem s') (outp s)) 0xff00001f = tgt.
Proof.
  cbv zeta.
  apply (cond_branch_keeps_target 0x10002000 0x10000000 1 0).
  - apply window_inv_init; [unfold A64_MAX_INSTRUCTIONS; lia|lia|reflexivity].
  - lia.
  - reflexivity.
  - reflexivity.
  - reflexivity.
  - left. split; [reflexivity|]. by vm_compute.
Defined.

(** The expansion of a far conditional branch, laid out. *)
Lemma fix_cond_branch_far lo base n i s lmask :
  window_inv lo base n i s -> i < n ->
  let ins := load (mem s) (inp s) in
  let tgt := cond_branch_target (inp s) ins lmask in
  let out_off := Z.shiftr (tgt - outp s) 2 in
  let o := if (outp s + 4 * 4) mod 8 =? 0 then outp s else outp s + 4 in
  cond_branch_lmask ins = Some lmask ->
  is_in_fixing_range (ctx s) tgt = false ->
  (lmask = 0xff00001f /\ 2 ^ 18 - 1 <= Z.abs out_off)
  \/ (lmask = 0xfff8001f /\ 2 ^ 13 - 1 <= Z.abs out_off) ->
  exists s',
    __fix_cond_comp_test_branch s = (true, s')
    /\ inp s' = inp s + 4
    /\ outp s' = o + 4 * 6
    /\ (o ≠ outp s -> load (mem s') (outp s) = A64_NOP)
    /\ load (mem s') o = cond_branch_word ins lmask 8
    /\ load (mem s') (o + 4) = 0x14000005
    /\ load (mem s') (o + 8) = 0x58000051
    /\ load (mem s') (o + 12) = 0xd61f0220
    /\ load (mem s') (o + 16) = u32 tgt
    /\ load (mem s') (o + 20) = u32 (Z.shiftr tgt 32)
    /\ (o + 4 * 4) mod 8 = 0
    /\ insp (dat_at (ctx s') i) = o.
Proof.
  intros Hw Hi ins tgt out_off o Hlmask Hout Hoff.
  destruct (__fix_cond_comp_test_branch s) as [b s'] eqn:Hrun. exists s'.
  pose proof (window_current_idx _ _ _ _ _ Hw) as Hidx.
  pose proof (wi_ctx _ _ _ _ _ Hw) as Hctx.
  pose proof (wi_idx _ _ _ _ _ Hw) as Hidx0.
  pose proof (load_range (mem s) (inp s)) as Hins.
  subst ins tgt out_off o. unfold cond_branch_target, cond_branch_word in *.
  destruct s as [pc out c m l]. window_facts Hw.
  unfold __fix_cond_comp_test_branch, begin_ins, get_and_set_current_index in Hrun.
  cbn [inp outp ctx mem log] in Hrun. rewrite Hlmask in Hrun.
  rewrite Hidx in Hrun. clear Hidx.
  cbv zeta in Hrun. cbn [with_ctx inp outp ctx mem log] in Hrun.
  rewrite ?land_7, ?is_in_fixing_range_dat_alter, Hout in Hrun.
  unfold A64_MAX_INSTRUCTIONS in *.
  assert (0 <= Z.lor (Z.land (shl32 (8 ≫ 2) 5) (not32 lmask)) (Z.land (load m pc) lmask)
          < 2 ^ 32) as Hword.
  { apply lor_range; [lia| |by apply land_range].
    destruct Hoff as [[-> _]|[-> _]]; by vm_compute. }
  destruct Hoff as [[-> Hoff]|[-> Hoff]].
  all: change (not32 4278190111 ≫ (5 + 1)) with (2 ^ 18 - 1) in Hrun.
  all: change (not32 4294443039 ≫ (5 + 1)) with (2 ^ 13 - 1) in Hrun.
  all: repeat case_match; simplify_eq; bool_to_prop; try lia.
  all: state_simpl; rewrite ?insp_dat_at_drain, ?dat_at_set_insp, ?Z.eqb_refl
         by (rewrite ?(proj2 (proj2 (dat_alter_base _ _ _))); lia).
  all: repeat (erewrite load_after_resolve by (first [eassumption|same_pending_tac|lia])).
  all: load_tac.
  all: rewrite ?(u32_small _ Hword).
  all: repeat split; try reflexivity; try lia.
Qed.

(** X10: the expansion of a far conditional branch is consistent with the
    decoders: the re-encoded branch, with its condition, register and
    bit-number fields kept, is taken to the [LDR X17, #8] two words on; the
    [B #20] after it leads to the word that follows the expansion; and the
    [LDR] reads the 8-byte literal that holds the original target. *)
Theorem cond_branch_expansion_consistent lo base n i s lmask :
  window_inv lo base n i s -> i < n ->
  let ins := load (mem s) (inp s) in
  let tgt := cond_branch_target (inp s) ins lmask in
  let out_off := Z.shiftr (tgt - outp s) 2 in
  let o := if (outp s + 4 * 4) mod 8 =? 0 then outp s else outp s + 4 in
  cond_branch_lmask ins = Some lmask ->
  is_in_fixing_range (ctx s) tgt = false ->
  (lmask = 0xff00001f /\ 2 ^ 18 - 1 <= Z.abs out_off)
  \/ (lmask = 0xfff8001f /\ 2 ^ 13 - 1 <= Z.abs out_off) ->
  exists s',
    __fix_cond_comp_test_branch s = (true, s')
    /\ Z.land (load (mem s') o) lmask = Z.land ins lmask
    /\ cond_branch_target o (load (mem s') o) lmask = o + 8
    /\ branch_target (o + 4) (load (mem s') (o + 4)) = outp s'
    /\ loadlit_target (o + 8) (load (mem s') (o + 8)) = o + 16
    /\ load64 (mem s') (o + 16) = u64 tgt.
Proof.
  intros Hw Hi ins tgt out_off o Hlmask Hout Hoff.
  destruct (fix_cond_branch_far lo base n i s lmask Hw Hi Hlmask Hout Hoff)
    as (s' & Hrun & Hinp & Hadv & Hnop & H0 & H1 & H2 & H3 & H4 & H5 & Hal & Hinsp).
  fold ins tgt o in Hadv, Hnop, H0, H1, H2, H3, H4, H5, Hal.
  exists s'. rewrite H0, H1, H2, Hadv.
  rewrite branch_target_rel, loadlit_target_rel.
  change (branch_target 0 335544325) with 20.
  change (loadlit_target 0 1476395089) with 8.
  pose proof (load_range (mem s) (inp s)) as Hins.
  destruct (cond_branch_round_trip o ins lmask 8) as [Ht Hf]; [done|done| |].
  { pow_consts. destruct Hoff as [[-> _]|[-> _]]; [left|right]; (split; [done|lia]). }
  split; [done|]. split; [done|]. split; [done|]. split; [lia|]. split; [lia|].
  apply load64_words; [done|]. by replace (o + 16 + 4) with (o + 20) by lia.
Qed.

Lemma cond_branch_expansion_consistent_witness :
  let s := State 0x10000000 0x80000000 (init_context 0x10000000 1) bcond_memory [] in
  let ins := load (mem s) (inp s) in
  let tgt := cond_branch_target (inp s) ins 0xff00001f in
  let o := if (outp s + 4 * 4) mod 8 =? 0 then outp s else outp s + 4 in
  exists s',
    __fix_cond_comp_test_branch s = (true, s')
    /\ Z.land (load (mem s') o) 0xff00001f = Z.land ins 0xff00001f
    /\ cond_branch_target o (load (mem s') o) 0xff00001f = o + 8
    /\ branch_target (o + 4) (load (mem s') (o + 4)) = outp s'
    /\ loadlit_target (o + 8) (load (mem s') (o + 8)) = o + 16
    /\ load64 (mem s') (o + 16) = u64 tgt.
Proof.
  cbv zeta.
  apply (cond_branch_expansion_consistent 0x80000000 0x10000000 1 0).
  - apply window_inv_init; [unfold A64_MAX_INSTRUCTIONS; lia|lia|reflexivity].
  - lia.
  - reflexivity.
  - reflexivity.
  - left. split; [reflexivity|]. by vm_compute.
Defined.

(** ** Literal loads *)


Ltac nops_tac :=
  intros x Hx Hx4;
  repeat match goal with
  | |- load (store _ ?a _) x = _ =>
      destruct (Z.eq_dec x a) as [->|];
      [by rewrite load_store_eq|rewrite load_store_ne by done]
  end; lia.

Lemma pad_literal_nops fuel fa pc out c m l :
  (3 <= fuel)%nat -> out mod 4 = 0 -> fa = 3 \/ fa = 7 \/ fa = 15 ->
  exists out1 m1,
    pad_literal fuel fa (State pc out c m l) = Some (State pc out1 c m1 l)
    /\ out <= out1 <= out + 12 /\ (out1 + 4 * 2) mod (fa + 1) = 0
    /\ out1 mod 4 = 0
    /\ nops_between m1 out out1
    /\ forall a, ~ (out <= a < out1) -> m1 a = m a.
Proof.
  intros Hfuel Hal Hfa.
  destruct fuel as [|[|[|fuel]]]; [lia..|].
  do 4 (rewrite pad_literal_unfold; state_simpl).
  destruct Hfa as [->|[->| ->]]; rewrite ?land_3, ?land_7, ?land_15.
  all: repeat case_match; bool_to_prop; try lia.
  all: eexists _, _; split; [reflexivity|];
       split; [lia|]; split; [lia|]; split; [lia|]; split; [nops_tac|].
  all: intros a Ha; unfold store;
       repeat match goal with |- context [?x =? ?y] => destruct (Z.eqb_spec x y) end;
       try done; lia.
Qed.

Lemma pad_offset_nops fuel fa absolute_addr pc out c m l :
  (3 <= fuel)%nat -> out mod 4 = 0 -> fa = 0 \/ fa = 1 \/ fa = 3 ->
  exists out1 m1,
    pad_offset fuel fa absolute_addr (State pc out c m l) = Some (State pc out1 c m1 l)
    /\ out <= out1 <= out + 4 * fa
    /\ (out1 - out) mod 4 = 0
    /\ ((absolute_addr - out1) / 4) mod (fa + 1) = 0
    /\ nops_between m1 out out1
    /\ forall a, ~ (out <= a < out1) -> m1 a = m a.
Proof.
  intros Hfuel Hal Hfa.
  destruct fuel as [|[|[|fuel]]]; [lia..|].
  do 4 (rewrite pad_offset_unfold; state_simpl).
  rewrite !shiftr_2.
  destruct Hfa as [->|[->| ->]]; rewrite ?Z.land_0_r, ?land_1, ?land_3.
  all: repeat case_match; bool_to_prop; try lia.
  all: eexists _, _; split; [reflexivity|];
       split; [lia|]; split; [lia|]; split; [lia|]; split; [nops_tac|].
  all: intros a Ha; unfold store;
       repeat match goal with |- context [?x =? ?y] => destruct (Z.eqb_spec x y) end;
       try done; lia.
Qed.

Lemma load_memcpy m0 m dst src (n : nat) a :
  load (memcpy_words m0 m dst src n) a
  = if (dst <=? a) && (a <? dst + 4 * Z.of_nat n) && ((a - dst) mod 4 =? 0)
    then load m0 (src + (a - dst)) else load m a.
Proof.
  revert m dst src. induction n as [|n IH]; intros m dst src; simpl memcpy_words.
  - destruct (Z.leb_spec dst a), (Z.ltb_spec a (dst + 4 * Z.of_nat 0)); simpl; try done; lia.
  - rewrite IH.
    destruct (Z.leb_spec (dst + 4) a), (Z.ltb_spec a (dst + 4 + 4 * Z.of_nat n)),
      (Z.eqb_spec ((a - (dst + 4)) mod 4) 0),
      (Z.leb_spec dst a), (Z.ltb_spec a (dst + 4 * Z.of_nat (S n))),
      (Z.eqb_spec ((a - dst) mod 4) 0); simpl; try lia.
    all: try (f_equal; lia).
    all: try (rewrite load_store_ne by lia; done).
    all: try (assert (a = dst) as -> by lia; rewrite load_store_eq by done;
              unfold load, u32; rewrite Z.mod_mod by lia; f_equal; f_equal; lia).
Qed.

Lemma loadlit_form_cases ins mask fa :
  loadlit_form ins = Some (mask, fa) ->
  (mask = 0xbf000000 \/ mask = 0x3f000000 \/ mask = 0xff000000)
  /\ (fa = 3 \/ fa = 7 \/ fa = 15).
Proof.
  unfold loadlit_form. cbv zeta. intros H.
  repeat case_match; simplify_eq; auto.
Qed.

(** The inlining of a literal load, in terms of the address the code
    decodes ([loadlit_target]). *)
Lemma loadlit_inlined_decoded lo base n i s fuel mask fa :
  window_inv lo base n i s -> i < n -> (3 <= fuel)%nat ->
  let ins := load (mem s) (inp s) in
  let tgt := loadlit_target (inp s) ins in
  let ns := (fa + 1) / 4 in
  Z.land ins 0xff000000 ≠ 0xd8000000 ->
  loadlit_form ins = Some (mask, fa) ->
  is_in_fixing_range (ctx s) tgt = true
  \/ 2 ^ 18 - 1 <= Z.abs (Z.shiftr (tgt - outp s) 2) + (fa + 1 - 4) / 4 ->
  tgt + 4 * ns <= outp s \/ outp s + 20 <= tgt ->
  exists s' o,
    __fix_loadlit fuel s = Some (true, s')
    /\ inp s' = inp s + 4
    /\ outp s <= o <= outp s + 12 /\ (o + 8) mod (fa + 1) = 0
    /\ nops_between (mem s') (outp s) o
    /\ Z.land (load (mem s') o) 0xff00001f = Z.land ins 0xff00001f
    /\ loadlit_target o (load (mem s') o) = o + 8
    /\ branch_target (o + 4) (load (mem s') (o + 4)) = outp s'
    /\ outp s' = o + 8 + 4 * ns
    /\ (forall k, 0 <= k < ns ->
          load (mem s') (o + 8 + 4 * k) = load (mem s) (tgt + 4 * k))
    /\ insp (dat_at (ctx s') i) = o.
Proof.
  intros Hw Hi Hfuel ins tgt ns Hprfm Hform Hcond Hdisj.
  pose proof (window_current_idx _ _ _ _ _ Hw) as Hidx.
  pose proof (wi_ctx _ _ _ _ _ Hw) as Hctx.
  pose proof (wi_idx _ _ _ _ _ Hw) as Hidx0.
  destruct (loadlit_form_cases _ _ _ Hform) as [Hmask Hfa].
  destruct (loadlit_word8 ins mask Hmask) as (Hw0 & Hw0f & Hw0t).
  subst ins tgt ns.
  destruct s as [pc out c m l]. window_facts Hw.
  unfold __fix_loadlit, begin_ins, get_and_set_current_index.
  cbn [inp outp ctx mem log].
  rewrite Hidx. clear Hidx.
  cbv zeta. cbn [with_ctx inp outp ctx mem log].
  destruct (Z.eqb_spec (Z.land (load m pc) 4278190080) 3623878656); [done|].
  rewrite Hform. rewrite !with_ctx_State, is_in_fixing_range_dat_alter.
  change (not32 4278190111 ≫ (5 + 1)) with (2 ^ 18 - 1).
  change (pc + Z.land (u32 (s32 (shl32 (load m pc) 8) ≫ (8 + 5 - 2))) (not32 3))
    with (loadlit_target pc (load m pc)).
  set (tgt := loadlit_target pc (load m pc)) in *.
  set (w0 := Z.lor (Z.land (shl32 (8 ≫ 2) 5) (not32 mask))
                   (Z.land (load m pc) 4278190111)) in *.
  match goal with |- context [if ?b then _ else _] => assert (b = true) as -> end.
  { destruct Hcond as [->|Hc]; [done|]. apply orb_true_iff. right. by apply Z.leb_le. }
  destruct (pad_literal_nops fuel fa pc out (dat_alter (set_insp out) i c) m l)
    as (out1 & m1 & -> & Hout1 & Hmod & Hal1 & Hnops & Hfr); [done..|].
  eexists _, out1. split; [reflexivity|]. state_simpl.
  set (ns := (fa + 1) / 4) in *.
  assert (ns = 1 \/ ns = 2 \/ ns = 4) as Hns
    by (subst ns; destruct Hfa as [->|[->| ->]]; auto).
  set (m2 := store (store m1 (out1 + 4 * 0) w0) (out1 + 4 * 1) (335544321 + ns)).
  set (mf := (process_fix_map _ i (memcpy_words m2 m2 _ _ _)).2).
  assert ((out1 + 8) mod (fa + 1) = 0) as Hmod'
    by (rewrite <- Hmod; f_equal; lia).
  clear Hmod Hcond Hform Hprfm Hw Hfa Hmask.
  clearbody tgt w0 ns.
  assert (1 <= ns <= 4) as Hns' by (clear -Hns; lia).
  assert (insp (dat_at (drain (dat_alter (set_insp out1) i (dat_alter (set_insp out) i c)) i)
                       i) = out1) as Hinsp.
  { rewrite insp_dat_at_drain, dat_at_set_insp, Z.eqb_refl; [done|].
    rewrite (proj2 (proj2 (dat_alter_base _ _ _))). unfold A64_MAX_INSTRUCTIONS in *. lia. }
  assert (forall a, out <= a ->
            load mf a
            = if (out1 + 8 <=? a) && (a <? out1 + 8 + 4 * ns)
                 && ((a - (out1 + 8)) mod 4 =? 0)
              then load m2 (tgt + (a - (out1 + 8))) else load m2 a) as Hload.
  { intros a Ha. subst mf.
    erewrite load_after_resolve by (first [exact Hctx|same_pending_tac|lia]).
    rewrite load_memcpy, Z2Nat.id by lia.
    by replace (out1 + 4 * 2) with (out1 + 8) by lia. }
  clearbody mf.
  assert (forall a, a ≠ out1 -> a ≠ out1 + 4 -> load m2 a = load m1 a) as Hm2.
  { intros a ??. subst m2. by rewrite !load_store_ne by lia. }
  assert (forall a, ~ (out <= a < out1) -> load m1 a = load m a) as Hm1.
  { intros a Ha. unfold load. by rewrite Hfr. }
  assert (load m2 out1 = w0) as Hld0.
  { subst m2. rewrite load_store_ne, load_store_eq by lia. by apply u32_small. }
  assert (load m2 (out1 + 4) = 335544321 + ns) as Hld1.
  { subst m2. rewrite load_store_eq by lia. apply u32_small. lia. }
  clearbody m2. clear Hfr Hw0 Hctx.
  assert (load mf out1 = w0) as Hf0.
  { rewrite Hload by lia. destruct (Z.leb_spec (out1 + 8) out1); [lia|done]. }
  assert (load mf (out1 + 4) = 335544321 + ns) as Hf1.
  { rewrite Hload by lia. destruct (Z.leb_spec (out1 + 8) (out1 + 4)); [lia|done]. }
  split; [done|]. split; [done|]. split; [done|].
  split; [|split; [by rewrite Hf0|split; [|split; [|split; [|split; [|exact Hinsp]]]]]];
    clear Hmod' Hinsp Hw0f.
  { intros x Hx Hx4. rewrite Hload by lia.
    destruct (Z.leb_spec (out1 + 8) x); [lia|]. cbn [andb].
    rewrite Hm2 by lia. by apply Hnops. }
  { rewrite Hf0, loadlit_target_rel, Hw0t. lia. }
  { rewrite Hf1, branch_target_rel.
    destruct Hns as [->|[->| ->]].
    - change (branch_target 0 (335544321 + 1)) with 8. lia.
    - change (branch_target 0 (335544321 + 2)) with 12. lia.
    - change (branch_target 0 (335544321 + 4)) with 20. lia. }
  { lia. }
  { clear Hns. intros k Hk. rewrite Hload by lia.
    destruct (Z.leb_spec (out1 + 8) (out1 + 8 + 4 * k)); [|lia].
    destruct (Z.ltb_spec (out1 + 8 + 4 * k) (out1 + 8 + 4 * ns)); [|lia].
    destruct (Z.eqb_spec ((out1 + 8 + 4 * k - (out1 + 8)) mod 4) 0); [|lia].
    cbn [andb]. replace (out1 + 8 + 4 * k - (out1 + 8)) with (4 * k) by lia.
    rewrite Hm2, Hm1 by lia. done. }
Qed.

(** X11: a literal load with a non-negative offset whose literal is inside
    the window, or out of reach from the output cursor, and does not
    overlap the words being written, is inlined: after at most three
    [NOP]s that bring the data to its natural alignment, the load is
    emitted with its opcode and register kept and the offset 8, followed by
    a [B] over the data and by a copy of the [(faligned + 1) / 4] words the
    original load addresses; the [B] leads to the word after the copy. *)
Theorem loadlit_inlined lo base n i s fuel mask fa :
  window_inv lo base n i s -> i < n -> (3 <= fuel)%nat ->
  let ins := load (mem s) (inp s) in
  let tgt := literal_address (inp s) ins in
  let ns := (fa + 1) / 4 in
  Z.land ins 0xff000000 ≠ 0xd8000000 ->
  loadlit_form ins = Some (mask, fa) ->
  0 <= simm19 ins ->
  is_in_fixing_range (ctx s) tgt = true
  \/ 2 ^ 18 - 1 <= Z.abs (Z.shiftr (tgt - outp s) 2) + (fa + 1 - 4) / 4 ->
  tgt + 4 * ns <= outp s \/ outp s + 20 + 4 * ns <= tgt ->
  exists s' o,
    __fix_loadlit fuel s = Some (true, s')
    /\ inp s' = inp s + 4
    /\ outp s <= o <= outp s + 12 /\ (o + 8) mod (fa + 1) = 0
    /\ nops_between (mem s') (outp s) o
    /\ Z.land (load (mem s') o) 0xff00001f = Z.land ins 0xff00001f
    /\ literal_address o (load (mem s') o) = o + 8
    /\ branch_target (o + 4) (load (mem s') (o + 4)) = outp s'
    /\ outp s' = o + 8 + 4 * ns
    /\ (forall k, 0 <= k < ns ->
          load (mem s') (o + 8 + 4 * k) = load (mem s) (tgt + 4 * k))
    /\ insp (dat_at (ctx s') i) = o.
Proof.
  intros Hw Hi Hfuel ins tgt ns Hprfm Hform Hpos Hcond Hsep. subst ins tgt ns.
  pose proof (load_range (mem s) (inp s)) as Hins.
  pose proof (loadlit_target_nonneg (inp s) _ Hins Hpos) as Hdec.
  pose proof (loadlit_form_aligned _ _ _ Hform) as Hfa.
  pose proof (loadlit_inlined_decoded lo base n i s fuel mask fa Hw Hi Hfuel) as H.
  cbv zeta in H. rewrite Hdec in H.
  destruct H
    as (s' & o & Hrun & Hinp & Ho & Hal & Hnop & Hkeep & Hlit & Hb & Hout & Hcp & Hinsp);
    try done.
  { destruct Hsep as [?|?]; [by left|right].
    destruct Hfa as [->|[->| ->]]; simpl in *; lia. }
  exists s', o.
  repeat (split; [done|]).
  split; [apply literal_address_forward; [apply load_range|pow_consts; lia|done]|].
  done.
Qed.

Lemma loadlit_inlined_witness :
  let s := State 0x10000000 0x8000000c (init_context 0x10000000 1) ldr_q_memory [] in
  let ins := load (mem s) (inp s) in
  let tgt := literal_address (inp s) ins in
  let ns := (15 + 1) / 4 in
  exists s' o,
    __fix_loadlit 3 s = Some (true, s')
    /\ inp s' = inp s + 4
    /\ outp s <= o <= outp s + 12 /\ (o + 8) mod (15 + 1) = 0
    /\ nops_between (mem s') (outp s) o
    /\ Z.land (load (mem s') o) 0xff00001f = Z.land ins 0xff00001f
    /\ literal_address o (load (mem s') o) = o + 8
    /\ branch_target (o + 4) (load (mem s') (o + 4)) = outp s'
    /\ outp s' = o + 8 + 4 * ns
    /\ (forall k, 0 <= k < ns ->
          load (mem s') (o + 8 + 4 * k) = load (mem s) (tgt + 4 * k))
    /\ insp (dat_at (ctx s') 0) = o.
Proof.
  cbv zeta.
  apply (loadlit_inlined 0x8000000c 0x10000000 1 0 _ 3 0x3f000000 15).
  - apply window_inv_init; [unfold A64_MAX_INSTRUCTIONS; lia|lia|reflexivity].
  - lia.
  - lia.
  - by vm_compute.
  - reflexivity.
  - by vm_compute.
  - right. by vm_compute.
  - left. by vm_compute.
Defined.

(** A literal load whose literal is outside the window and within reach:
    the padding and the re-encoded word. *)
Lemma fix_loadlit_near lo base n i s fuel mask fa :
  window_inv lo base n i s -> i < n -> (3 <= fuel)%nat ->
  let ins := load (mem s) (inp s) in
  let tgt := loadlit_target (inp s) ins in
  Z.land ins 0xff000000 ≠ 0xd8000000 ->
  loadlit_form ins = Some (mask, fa) ->
  is_in_fixing_range (ctx s) tgt = false ->
  Z.abs (Z.shiftr (tgt - outp s) 2) + (fa + 1 - 4) / 4 < 2 ^ 18 - 1 ->
  exists s' o,
    __fix_loadlit fuel s = Some (true, s')
    /\ inp s' = inp s + 4
    /\ outp s <= o <= outp s + (fa - 3) /\ o mod 4 = 0
    /\ ((tgt - o) / 4) mod ((fa + 1) / 4) = 0
    /\ nops_between (mem s') (outp s) o
    /\ outp s' = o + 4
    /\ load (mem s') o = loadlit_word ins mask (tgt - o)
    /\ insp (dat_at (ctx s') i) = o.
Proof.
  intros Hw Hi Hfuel ins tgt Hprfm Hform Hout Hnear.
  pose proof (window_current_idx _ _ _ _ _ Hw) as Hidx.
  pose proof (wi_ctx _ _ _ _ _ Hw) as Hctx.
  pose proof (wi_idx _ _ _ _ _ Hw) as Hidx0.
  destruct (loadlit_form_cases _ _ _ Hform) as [Hmask Hfa].
  subst ins tgt.
  destruct s as [pc out c m l]. window_facts Hw.
  unfold __fix_loadlit, begin_ins, get_and_set_current_index.
  cbn [inp outp ctx mem log].
  rewrite Hidx. clear Hidx.
  cbv zeta. cbn [with_ctx inp outp ctx mem log].
  destruct (Z.eqb_spec (Z.land (load m pc) 4278190080) 3623878656); [done|].
  rewrite Hform. rewrite !with_ctx_State, is_in_fixing_range_dat_alter.
  change (not32 4278190111 ≫ (5 + 1)) with (2 ^ 18 - 1).
  change (pc + Z.land (u32 (s32 (shl32 (load m pc) 8) ≫ (8 + 5 - 2))) (not32 3))
    with (loadlit_target pc (load m pc)).
  set (tgt := loadlit_target pc (load m pc)) in *.
  rewrite Hout. cbn [orb].
  destruct (Z.leb_spec (2 ^ 18 - 1) (Z.abs ((tgt - out) ≫ 2) + (fa + 1 - 4) / 4));
    [lia|].
  assert (Z.shiftr fa 2 = 0 \/ Z.shiftr fa 2 = 1 \/ Z.shiftr fa 2 = 3) as Hfa'
    by (destruct Hfa as [->|[->| ->]]; auto).
  assert ((fa + 1) / 4 = Z.shiftr fa 2 + 1) as Hns
    by (destruct Hfa as [->|[->| ->]]; reflexivity).
  destruct (pad_offset_nops fuel (Z.shiftr fa 2) tgt pc out
              (dat_alter (set_insp out) i c) m l)
    as (out1 & m1 & -> & Hout1 & Hmod4 & Hmod & Hnops & Hfr); [done..|].
  eexists _, out1. split; [reflexivity|]. state_simpl.
  set (w := Z.lor (Z.land (u32 (Z.shiftl (Z.shiftr (tgt - out1) 2) 5)) (not32 mask))
                  (Z.land (load m pc) 4278190111)).
  assert (0 <= w < 2 ^ 32) as Hwr.
  { apply lor_range; [lia| |apply land_range; [lia|apply load_range]].
    apply land_range; [lia|]. unfold u32. by apply Z.mod_pos_bound. }
  set (mf := (process_fix_map _ i (store m1 _ w)).2).
  assert (forall a, out <= a -> load mf a = load (store m1 (out1 + 4 * 0) w) a) as Hload.
  { intros a Ha. subst mf.
    by erewrite load_after_resolve by (first [exact Hctx|same_pending_tac|lia]). }
  clearbody mf.
  assert (insp (dat_at (drain (dat_alter (set_insp out1) i (dat_alter (set_insp out) i c)) i)
                       i) = out1) as Hinsp.
  { rewrite insp_dat_at_drain, dat_at_set_insp, Z.eqb_refl; [done|].
    rewrite (proj2 (proj2 (dat_alter_base _ _ _))). unfold A64_MAX_INSTRUCTIONS in *. lia. }
  split; [done|].
  split; [destruct Hfa as [->|[->| ->]];
          [change (Z.shiftr 3 2) with 0 in Hout1
          |change (Z.shiftr 7 2) with 1 in Hout1
          |change (Z.shiftr 15 2) with 3 in Hout1]; lia|].
  split; [lia|]. split; [by rewrite Hns|].
  split; [|split; [lia|split; [|exact Hinsp]]].
  - intros x Hx Hx4. rewrite Hload, load_store_ne by lia. by apply Hnops.
  - rewrite Hload, load_store_eq by lia. by apply u32_small.
Qed.


Lemma loadlit_target_aligned pc ins : (loadlit_target pc ins - pc) mod 4 = 0.
Proof. unfold loadlit_target. rewrite land_not32_3. lia. Qed.

(** The re-encoding of a literal load within reach, in terms of the
    address the code decodes ([loadlit_target]). *)
Lemma loadlit_keeps_target_decoded lo base n i s fuel mask fa :
  window_inv lo base n i s -> i < n -> (3 <= fuel)%nat -> base mod 4 = 0 ->
  let ins := load (mem s) (inp s) in
  let tgt := loadlit_target (inp s) ins in
  Z.land ins 0xff000000 ≠ 0xd8000000 ->
  loadlit_form ins = Some (mask, fa) ->
  is_in_fixing_range (ctx s) tgt = false ->
  Z.abs (Z.shiftr (tgt - outp s) 2) + (fa + 1 - 4) / 4 < 2 ^ 18 - 1 ->
  outp s + 12 <= tgt ->
  exists s' o,
    __fix_loadlit fuel s = Some (true, s')
    /\ outp s <= o <= outp s + 12
    /\ nops_between (mem s') (outp s) o
    /\ outp s' = o + 4
    /\ Z.land (load (mem s') o) 0xff00001f = Z.land ins 0xff00001f
    /\ loadlit_target o (load (mem s') o) = tgt
    /\ (tgt - o) mod (fa + 1) = 0
    /\ insp (dat_at (ctx s') i) = o.
Proof.
  intros Hw Hi Hfuel Hbase ins tgt Hprfm Hform Hout Hnear Hfwd.
  destruct (fix_loadlit_near lo base n i s fuel mask fa Hw Hi Hfuel Hprfm Hform Hout Hnear)
    as (s' & o & Hrun & _ & Ho & Ho4 & Hmod & Hnops & Hadv & Hword & Hinsp).
  fold ins tgt in Ho, Hmod, Hword.
  pose proof (wi_inp _ _ _ _ _ Hw) as Hinp.
  pose proof (loadlit_target_aligned (inp s) ins) as Hta. fold tgt in Hta.
  destruct (loadlit_form_cases _ _ _ Hform) as [Hmask Hfa].
  assert (o <= outp s + 12) as Ho12 by (destruct Hfa as [->|[->| ->]]; lia).
  assert (0 <= tgt - o < 2 ^ 20 /\ (tgt - o) mod 4 = 0) as [Hd Hd4].
  { clear Hmod Hword. rewrite Z.shiftr_div_pow2 in Hnear by lia. pow_consts.
    destruct Hfa as [->|[->| ->]]; lia. }
  destruct (loadlit_word_forward ins mask (tgt - o) Hmask Hd Hd4) as (_ & Hf & Ht).
  exists s', o. rewrite Hword, loadlit_target_rel, Ht.
  split; [done|]. split; [lia|]. split; [done|]. split; [done|]. split; [done|].
  split; [lia|]. split; [|done].
  clear Hword Ht Hf Hnear. destruct Hfa as [->|[->| ->]].
  - change ((3 + 1) / 4) with 1 in Hmod. lia.
  - change ((7 + 1) / 4) with 2 in Hmod. lia.
  - change ((15 + 1) / 4) with 4 in Hmod. lia.
Qed.

(** X12: a literal load of a 4-aligned window, with a non-negative
    offset, whose literal is outside the window, within reach, and at
    least 12 bytes above the output cursor is re-encoded, after at most
    three [NOP]s, into one word that at its new address has the same
    opcode and register and addresses the same literal; the displacement
    is a multiple of the size of the access. *)
Theorem loadlit_keeps_target lo base n i s fuel mask fa :
  window_inv lo base n i s -> i < n -> (3 <= fuel)%nat -> base mod 4 = 0 ->
  let ins := load (mem s) (inp s) in
  let tgt := literal_address (inp s) ins in
  Z.land ins 0xff000000 ≠ 0xd8000000 ->
  loadlit_form ins = Some (mask, fa) ->
  0 <= simm19 ins ->
  is_in_fixing_range (ctx s) tgt = false ->
  Z.abs (Z.shiftr (tgt - outp s) 2) + (fa + 1 - 4) / 4 < 2 ^ 18 - 1 ->
  outp s + 12 <= tgt ->
  exists s' o,
    __fix_loadlit fuel s = Some (true, s')
    /\ outp s <= o <= outp s + 12
    /\ nops_between (mem s') (outp s) o
    /\ outp s' = o + 4
    /\ Z.land (load (mem s') o) 0xff00001f = Z.land ins 0xff00001f
    /\ literal_address o (load (mem s') o) = tgt
    /\ (tgt - o) mod (fa + 1) = 0
    /\ insp (dat_at (ctx s') i) = o.
Proof.
  intros Hw Hi Hfuel Hbase ins tgt Hprfm Hform Hpos Hout Hnear Habove. subst ins.
  pose proof (load_range (mem s) (inp s)) as Hins.
  pose proof (loadlit_target_nonneg (inp s) _ Hins Hpos) as Hdec. fold tgt in Hdec.
  pose proof (loadlit_form_aligned _ _ _ Hform) as Hfa.
  pose proof (loadlit_keeps_target_decoded lo base n i s fuel mask fa Hw Hi Hfuel Hbase)
    as H.
  cbv zeta in H. rewrite Hdec in H.
  destruct H as (s' & o & Hrun & Ho & Hnop & Hcur & Hkeep & Hlit & Hmod & Hinsp);
    try done.
  exists s', o.
  repeat (split; [done|]). split; [|done].
  replace tgt with (o + (tgt - o)) by lia.
  apply literal_address_forward; [apply load_range| |rewrite Hlit; lia].
  assert (0 <= (fa + 1 - 4) / 4) by (destruct Hfa as [->|[->| ->]]; simpl; lia).
  revert Hnear. rewrite Z.shiftr_div_pow2 by lia. pow_consts. lia.
Qed.

Lemma loadlit_keeps_target_witness :
  let s := State 0x10000000 0x0fff0000 (init_context 0x10000000 1) ldr_w_memory [] in
  let ins := load (mem s) (inp s) in
  let tgt := literal_address (inp s) ins in
  exists s' o,
    __fix_loadlit 3 s = Some (true, s')
    /\ outp s <= o <= outp s + 12
    /\ nops_between (mem s') (outp s) o
    /\ outp s' = o + 4
    /\ Z.land (load (mem s') o) 0xff00001f = Z.land ins 0xff00001f
    /\ literal_address o (load (mem s') o) = tgt
    /\ (tgt - o) mod (3 + 1) = 0
    /\ insp (dat_at (ctx s') 0) = o.
Proof.
  cbv zeta.
  apply (loadlit_keeps_target 0x0fff0000 0x10000000 1 0 _ 3 0xbf000000 3).
  - apply window_inv_init; [unfold A64_MAX_INSTRUCTIONS; lia|lia|reflexivity].
  - lia.
  - lia.
  - reflexivity.
  - by vm_compute.
  - reflexivity.
  - by vm_compute.
  - reflexivity.
  - by vm_compute.
  - by vm_compute.
Defined.

(** X13: when the literal lies below the output cursor, so that the new
    offset is negative, the re-encoded literal load has every size bit
    (bits 30 and 31) that the opcode mask of its form leaves out forced to
    one: bit 30 for a load into a general-purpose register, which turns
    [LDR Wt] into [LDR Xt]; bits 30 and 31 for a vector load; none for
    [LDRSW]. *)
Theorem loadlit_backward_size_bits lo base n i s fuel mask fa :
  window_inv lo base n i s -> i < n -> (3 <= fuel)%nat ->
  let ins := load (mem s) (inp s) in
  let tgt := loadlit_target (inp s) ins in
  let b := Z.land (not32 mask) 0xc0000000 in
  Z.land ins 0xff000000 ≠ 0xd8000000 ->
  loadlit_form ins = Some (mask, fa) ->
  is_in_fixing_range (ctx s) tgt = false ->
  Z.abs (Z.shiftr (tgt - outp s) 2) + (fa + 1 - 4) / 4 < 2 ^ 18 - 1 ->
  tgt < outp s ->
  exists s' o,
    __fix_loadlit fuel s = Some (true, s')
    /\ outp s <= o <= outp s + 12
    /\ outp s' = o + 4
    /\ Z.land (load (mem s') o) b = b
    /\ (mask = 0xbf000000 -> b = 0x40000000)
    /\ (mask = 0x3f000000 -> b = 0xc0000000)
    /\ (mask = 0xff000000 -> b = 0).
Proof.
  intros Hw Hi Hfuel ins tgt b Hprfm Hform Hout Hnear Hbwd.
  destruct (fix_loadlit_near lo base n i s fuel mask fa Hw Hi Hfuel Hprfm Hform Hout Hnear)
    as (s' & o & Hrun & _ & Ho & Ho4 & Hmod & Hnops & Hadv & Hword & Hinsp).
  fold ins tgt in Ho, Hmod, Hword.
  destruct (loadlit_form_cases _ _ _ Hform) as [Hmask Hfa].
  assert (o <= outp s + 12) as Ho12 by (destruct Hfa as [->|[->| ->]]; lia).
  assert (- 2 ^ 20 <= tgt - o < 0) as Hd.
  { clear Hmod Hword. rewrite Z.shiftr_div_pow2 in Hnear by lia. pow_consts.
    destruct Hfa as [->|[->| ->]]; lia. }
  exists s', o. rewrite Hword.
  split; [done|]. split; [lia|]. split; [done|].
  split; [by apply loadlit_word_backward|].
  subst b. repeat split; by intros ->.
Qed.

Lemma loadlit_backward_size_bits_witness :
  let s := State 0x10000000 0x10002000 (init_context 0x10000000 1) ldr_w_memory [] in
  let b := Z.land (not32 0xbf000000) 0xc0000000 in
  exists s' o,
    __fix_loadlit 3 s = Some (true, s')
    /\ outp s <= o <= outp s + 12
    /\ outp s' = o + 4
    /\ Z.land (load (mem s') o) b = b
    /\ (0xbf000000 = 0xbf000000 -> b = 0x40000000)
    /\ (0xbf000000 = 0x3f000000 -> b = 0xc0000000)
    /\ (0xbf000000 = 0xff000000 -> b = 0).
Proof.
  cbv zeta.
  apply (loadlit_backward_size_bits 0x10002000 0x10000000 1 0 _ 3 0xbf000000 3).
  - apply window_inv_init; [unfold A64_MAX_INSTRUCTIONS; lia|lia|reflexivity].
  - lia.
  - lia.
  - by vm_compute.
  - reflexivity.
  - reflexivity.
  - by vm_compute.
  - by vm_compute.
Defined.

(** The relocated [LDR W0, #0x100] is [LDR X0, #-0x1f00]. *)
Example ldr_w_becomes_ldr_x :
  let s := State 0x10000000 0x10002000 (init_context 0x10000000 1) ldr_w_memory [] in
  exists s', __fix_loadlit 3 s = Some (true, s')
             /\ load (mem s) (inp s) = 0x18000800
             /\ load (mem s') (outp s) = 0x58ff0800.
Proof. eexists. split; [vm_compute; reflexivity|]. by vm_compute. Qed.

(** ** [ADR] *)

Lemma land_ones_24 x : Z.land x 0x00ffffff = x mod 2 ^ 24.
Proof. change 0x00ffffff with (Z.ones 24). by rewrite Z.land_ones by lia. Qed.

Lemma land_1f x : Z.land x 0x1f = x mod 32.
Proof. change 0x1f with (Z.ones 5). by rewrite Z.land_ones by lia. Qed.

(** The fields of the word [adr_word ins d]. *)
Lemma adr_word_fields ins d :
  - 2 ^ 20 <= d < 2 ^ 20 ->
  let w := adr_word ins d in
  0 <= w < 2 ^ 32
  /\ Z.land w 0x9f000000 = Z.land ins 0x9f000000
  /\ imm19 w = (d / 4) mod 2 ^ 19
  /\ immlo w = immlo ins
  /\ Z.land w 0x1f = Z.lor (8 * (d mod 4)) (Z.land ins 0x1f).
Proof.
  intros Hd. cbv zeta. unfold adr_word. rewrite land_ones_24.
  set (a := u32 (Z.shiftl d (5 - 2)) mod 2 ^ 24).
  assert (a = (8 * d) mod 2 ^ 24) as Ha.
  { subst a. to_arith. change (2 ^ (5 - 2)) with 8. lia. }
  assert (0 <= a < 2 ^ 24) as Har by (subst a; apply Z.mod_pos_bound; lia).
  split; [|split; [|split; [|split]]].
  - apply lor_range; [lia|pow_consts; lia|]. rewrite land_lmask. pow_consts. lia.
  - rewrite Z.land_lor_distr_l, <- Z.land_assoc.
    change (Z.land 4278190111 2667577344) with 2667577344.
    assert (Z.land a 2667577344 = 0) as ->; [|by rewrite Z.lor_0_l].
    rewrite <- (Z.mod_small a (2 ^ 24)) by done.
    rewrite <- Z.land_ones, <- Z.land_assoc by lia. apply Z.land_0_r.
  - unfold imm19. rewrite Z.shiftr_lor, Z.land_lor_distr_l, Z.shiftr_land.
    rewrite <- Z.land_assoc.
    change (Z.land (Z.shiftr 4278190111 5) 524287) with 0.
    rewrite Z.land_0_r, Z.lor_0_r.
    change 524287 with (Z.ones 19). rewrite Z.land_ones, Z.shiftr_div_pow2 by lia.
    rewrite Ha. pow_consts. lia.
  - unfold immlo. rewrite Z.shiftr_lor, Z.land_lor_distr_l, Z.shiftr_land.
    rewrite <- Z.land_assoc.
    change (Z.land (Z.shiftr 4278190111 29) 3) with 3.
    assert (Z.shiftr a 29 = 0) as ->; [|by rewrite Z.land_0_l, Z.lor_0_l].
    rewrite Z.shiftr_div_pow2 by lia. pow_consts. lia.
  - rewrite Z.land_lor_distr_l, <- Z.land_assoc.
    change (Z.land 4278190111 31) with 31. f_equal.
    rewrite land_1f, Ha. pow_consts. lia.
Qed.

Lemma immlo_adr_target pc ins :
  0 <= ins < 2 ^ 32 -> (adr_target pc ins - pc) mod 4 = immlo ins.
Proof.
  intros Hins. rewrite adr_target_arith by done. unfold simm21.
  rewrite immlo_arith, imm19_arith. pow_consts.
  repeat case_match; lia.
Qed.

(** The re-encoding of an [ADR] within reach, in terms of the address the
    code decodes ([adr_target]). *)
Lemma adr_keeps_target_decoded lo base n i s :
  window_inv lo base n i s -> i < n -> base mod 4 = 0 ->
  let ins := load (mem s) (inp s) in
  let tgt := adr_target (inp s) ins in
  Z.land ins 0x9f000000 = 0x10000000 ->
  is_in_fixing_range (ctx s) tgt = false ->
  Z.abs (tgt - outp s) < 2 ^ 20 - 1 ->
  exists s',
    __fix_pcreladdr s = (true, s')
    /\ outp s' = outp s + 4
    /\ Z.land (load (mem s') (outp s)) 0x9f000000 = 0x10000000
    /\ simm21 (load (mem s') (outp s)) = tgt - outp s
    /\ Z.land (load (mem s') (outp s)) 0x1f = Z.lor (Z.land ins 0x1f) (8 * immlo ins)
    /\ (immlo ins = 0 ->
        Z.land (load (mem s') (outp s)) 0x1f = Z.land ins 0x1f).
Proof.
  intros Hw Hi Hbase ins tgt Hopc Hout Hnear.
  destruct (__fix_pcreladdr s) as [b s'] eqn:Hrun.
  pose proof (load_range (mem s) (inp s)) as Hins.
  assert (b = true /\ outp s' = outp s + 4
          /\ load (mem s') (outp s) = adr_word ins (tgt - outp s))
    as (-> & Hadv & Hword).
  { pose proof (window_current_idx _ _ _ _ _ Hw) as Hidx.
    pose proof (wi_ctx _ _ _ _ _ Hw) as Hctx.
    subst ins tgt. unfold adr_word, adr_target in *.
    destruct s as [pc out c m l]. window_facts Hw.
    unfold __fix_pcreladdr, emit_ldr_literal, begin_ins,
      get_and_set_current_index in Hrun.
    cbn [inp outp ctx mem log] in Hrun.
    rewrite Hidx in Hrun. clear Hidx.
    cbv zeta in Hrun. cbn [with_ctx with_log inp outp ctx mem log] in Hrun.
    rewrite ?is_in_fixing_range_dat_alter, Hout, Hopc in Hrun.
    change (268435456 =? 268435456) with true in Hrun. cbv iota in Hrun.
    change (2097151 ≫ 1) with (2 ^ 20 - 1) in Hrun.
    repeat case_match; simplify_eq; bool_to_prop; try lia.
    all: state_simpl; split; [done|]; split; [lia|].
    all: erewrite load_after_resolve by (first [eassumption|same_pending_tac|lia]).
    all: load_tac.
    all: apply u32_small, lor_range; [lia| |by apply land_range].
    all: apply land_range; [lia|]; unfold u32; by apply Z.mod_pos_bound. }
  exists s'. split; [done|]. split; [done|]. rewrite Hword.
  pose proof (wi_inp _ _ _ _ _ Hw) as Hinp.
  pose proof (wi_align _ _ _ _ _ Hw) as Hal.
  pose proof (immlo_adr_target (inp s) ins Hins) as Hlo. fold tgt in Hlo.
  assert ((tgt - outp s) mod 4 = immlo ins) as Hd4 by lia.
  destruct (adr_word_fields ins (tgt - outp s)) as (_ & Hf & H19 & H2 & Hrd);
    [pow_consts; lia|].
  split; [by rewrite Hf|]. split.
  { unfold simm21. rewrite H19, H2, <- Hd4. clear Hword Hf Hrd Hlo H19 H2.
    pow_consts. case_match; bool_to_prop; lia. }
  rewrite Hrd, Hd4, Z.lor_comm. split; [done|].
  intros ->. apply Z.lor_0_r.
Qed.


(** X14: an [ADR] with a non-negative offset whose target is outside the
    window and within reach from the output cursor is emitted as one [ADR]
    whose 21-bit immediate is the new displacement, so that it computes
    the same address; its register field is the original one ORed with the
    two low bits of the original offset shifted into bits 3 and 4, so that
    the destination register is kept when those bits are zero. *)
Theorem adr_keeps_target lo base n i s :
  window_inv lo base n i s -> i < n -> base mod 4 = 0 ->
  let ins := load (mem s) (inp s) in
  let tgt := adr_address (inp s) ins in
  Z.land ins 0x9f000000 = 0x10000000 ->
  0 <= simm21 ins ->
  is_in_fixing_range (ctx s) tgt = false ->
  Z.abs (tgt - outp s) < 2 ^ 20 - 1 ->
  exists s',
    __fix_pcreladdr s = (true, s')
    /\ outp s' = outp s + 4
    /\ Z.land (load (mem s') (outp s)) 0x9f000000 = 0x10000000
    /\ adr_address (outp s) (load (mem s') (outp s)) = tgt
    /\ Z.land (load (mem s') (outp s)) 0x1f = Z.lor (Z.land ins 0x1f) (8 * immlo ins)
    /\ (immlo ins = 0 ->
        Z.land (load (mem s') (outp s)) 0x1f = Z.land ins 0x1f).
Proof.
  intros Hw Hi Hbase ins tgt Hopc Hpos Hout Hnear. subst ins.
  pose proof (load_range (mem s) (inp s)) as Hins.
  pose proof (adr_target_nonneg (inp s) _ Hins Hpos) as Hdec. fold tgt in Hdec.
  pose proof (adr_keeps_target_decoded lo base n i s Hw Hi Hbase) as H.
  cbv zeta in H. rewrite Hdec in H.
  destruct H as (s' & Hrun & Hcur & Hop & Himm & Hrd & Hrd0); try done.
  exists s'.
  repeat (split; [done|]). split; [|done].
  unfold adr_address. rewrite Himm. lia.
Qed.

Lemma adr_keeps_target_witness :
  let s := State 0x10000000 0x10002000 (init_context 0x10000000 1) adr_odd_memory [] in
  let ins := load (mem s) (inp s) in
  let tgt := adr_address (inp s) ins in
  exists s',
    __fix_pcreladdr s = (true, s')
    /\ outp s' = outp s + 4
    /\ Z.land (load (mem s') (outp s)) 0x9f000000 = 0x10000000
    /\ adr_address (outp s) (load (mem s') (outp s)) = tgt
    /\ Z.land (load (mem s') (outp s)) 0x1f = Z.lor (Z.land ins 0x1f) (8 * immlo ins)
    /\ (immlo ins = 0 ->
        Z.land (load (mem s') (outp s)) 0x1f = Z.land ins 0x1f).
Proof.
  cbv zeta.
  apply (adr_keeps_target 0x10002000 0x10000000 1 0).
  - apply window_inv_init; [unfold A64_MAX_INSTRUCTIONS; lia|lia|reflexivity].
  - lia.
  - reflexivity.
  - reflexivity.
  - by vm_compute.
  - reflexivity.
  - by vm_compute.
Defined.

(** The relocated [ADR X0, #0x1001] writes to [X8]. *)
Example adr_odd_target_changes_register :
  let s := State 0x10000000 0x10002000 (init_context 0x10000000 1) adr_odd_memory [] in
  exists s', __fix_pcreladdr s = (true, s')
             /\ Z.land (load (mem s) (inp s)) 0x1f = 0
             /\ Z.land (load (mem s') (outp s)) 0x1f = 8.
Proof. eexists. split; [vm_compute; reflexivity|]. by vm_compute. Qed.

(** The literal form shared by a far [ADR] and an [ADRP]. *)
Lemma ldr_literal_word ins :
  let w := Z.lor 0x58000040 (Z.land ins 0x1f) in
  0 <= w < 2 ^ 32 /\ Z.land w 0x1f = Z.land ins 0x1f
  /\ Z.land w 0xffffffe0 = 0x58000040 /\ loadlit_target 0 w = 8.
Proof.
  cbv zeta. rewrite land_1f, (lor_low _ _ 5); [|lia|done|apply Z.mod_pos_bound; lia].
  rewrite land_1f. change 0xffffffe0 with (2 ^ 32 - 2 ^ 5). rewrite land_mask by lia.
  unfold loadlit_target. rewrite land_not32_3. to_arith.
  change (2 ^ 8) with 256. change (2 ^ (8 + 5 - 2)) with 2048.
  repeat split; try case_match; bool_to_prop; lia.
Qed.

(** The expansion of an [ADR] out of reach, in terms of the address the
    code decodes ([adr_target]). *)
Lemma adr_out_of_range_decoded lo base n i s :
  window_inv lo base n i s -> i < n ->
  let ins := load (mem s) (inp s) in
  let tgt := adr_target (inp s) ins in
  let o := if (outp s + 4 * 2) mod 8 =? 0 then outp s else outp s + 4 in
  Z.land ins 0x9f000000 = 0x10000000 ->
  is_in_fixing_range (ctx s) tgt = false ->
  2 ^ 20 - 1 <= Z.abs (tgt - outp s) ->
  exists s',
    __fix_pcreladdr s = (true, s')
    /\ inp s' = inp s + 4
    /\ outp s' = o + 4 * 4
    /\ (o ≠ outp s -> load (mem s') (outp s) = A64_NOP)
    /\ Z.land (load (mem s') o) 0xffffffe0 = 0x58000040
    /\ Z.land (load (mem s') o) 0x1f = Z.land ins 0x1f
    /\ loadlit_target o (load (mem s') o) = o + 8
    /\ branch_target (o + 4) (load (mem s') (o + 4)) = outp s'
    /\ (o + 8) mod 8 = 0
    /\ load64 (mem s') (o + 8) = u64 tgt
    /\ insp (dat_at (ctx s') i) = o.
Proof.
  intros Hw Hi ins tgt o Hopc Hout Hfar.
  destruct (__fix_pcreladdr s) as [b s'] eqn:Hrun.
  destruct (ldr_literal_word ins) as (Hwr & Hrd & Htop & Hlit).
  assert (b = true /\ inp s' = inp s + 4 /\ outp s' = o + 4 * 4
          /\ (o ≠ outp s -> load (mem s') (outp s) = A64_NOP)
          /\ load (mem s') o = Z.lor 0x58000040 (Z.land ins 0x1f)
          /\ load (mem s') (o + 4) = 0x14000003
          /\ load (mem s') (o + 8) = u32 tgt
          /\ load (mem s') (o + 12) = u32 (Z.shiftr tgt 32)
          /\ (o + 4 * 2) mod 8 = 0
          /\ insp (dat_at (ctx s') i) = o)
    as (-> & Hinp & Hadv & Hnop & H0 & H1 & H2 & H3 & Hal & Hinsp).
  { pose proof (window_current_idx _ _ _ _ _ Hw) as Hidx.
    pose proof (wi_ctx _ _ _ _ _ Hw) as Hctx.
    pose proof (wi_idx _ _ _ _ _ Hw) as Hidx0.
    clear Hrd Htop Hlit.
    subst ins tgt o. unfold adr_target in *.
    destruct s as [pc out c m l]. window_facts Hw.
    unfold __fix_pcreladdr, emit_ldr_literal, begin_ins,
      get_and_set_current_index in Hrun.
    cbn [inp outp ctx mem log] in Hrun.
    rewrite Hidx in Hrun. clear Hidx.
    cbv zeta in Hrun. cbn [with_ctx with_log inp outp ctx mem log] in Hrun.
    rewrite ?land_7, ?is_in_fixing_range_dat_alter, Hout, Hopc in Hrun.
    change (268435456 =? 268435456) with true in Hrun. cbv iota in Hrun.
    change (2097151 ≫ 1) with (2 ^ 20 - 1) in Hrun.
    unfold A64_MAX_INSTRUCTIONS in *.
    repeat case_match; simplify_eq; bool_to_prop; try lia.
    all: state_simpl; rewrite ?insp_dat_at_drain, ?dat_at_set_insp, ?Z.eqb_refl
           by (rewrite ?(proj2 (proj2 (dat_alter_base _ _ _))); lia).
    all: repeat (erewrite load_after_resolve by (first [eassumption|same_pending_tac|lia])).
    all: load_tac.
    all: change (Z.lor 1476395008 (Z.land (shl32 (8 ≫ 2) 5) (not32 2667577344)))
           with 1476395072.
    all: rewrite ?(u32_small _ Hwr).
    all: repeat split; try reflexivity; try lia. }
  exists s'. rewrite H0, H1, Hadv, loadlit_target_rel, branch_target_rel, Hlit.
  change (branch_target 0 335544323) with 12.
  split; [done|]. split; [done|]. split; [done|]. split; [done|]. split; [done|].
  split; [done|]. split; [done|]. split; [lia|]. split; [by rewrite <- Hal; f_equal; lia|].
  split; [|done]. apply load64_words; [done|].
  by replace (o + 8 + 4) with (o + 12) by lia.
Qed.

(** X15: an [ADR] with a non-negative offset whose target is outside the
    window and out of reach from the output cursor becomes
    [LDR Xd, #8; B #12; <8-byte address>] at [o], the cursor or one word
    further after a [NOP]: the destination register is kept, the [LDR]
    addresses the 8-byte aligned literal, which holds the address the
    [ADR] computes, and the [B] leads to the word after the literal. *)
Theorem adr_out_of_range lo base n i s :
  window_inv lo base n i s -> i < n ->
  let ins := load (mem s) (inp s) in
  let tgt := adr_address (inp s) ins in
  let o := if (outp s + 4 * 2) mod 8 =? 0 then outp s else outp s + 4 in
  Z.land ins 0x9f000000 = 0x10000000 ->
  0 <= simm21 ins ->
  is_in_fixing_range (ctx s) tgt = false ->
  2 ^ 20 - 1 <= Z.abs (tgt - outp s) ->
  exists s',
    __fix_pcreladdr s = (true, s')
    /\ inp s' = inp s + 4
    /\ outp s' = o + 4 * 4
    /\ (o ≠ outp s -> load (mem s') (outp s) = A64_NOP)
    /\ Z.land (load (mem s') o) 0xffffffe0 = 0x58000040
    /\ Z.land (load (mem s') o) 0x1f = Z.land ins 0x1f
    /\ literal_address o (load (mem s') o) = o + 8
    /\ branch_target (o + 4) (load (mem s') (o + 4)) = outp s'
    /\ (o + 8) mod 8 = 0
    /\ load64 (mem s') (o + 8) = u64 tgt
    /\ insp (dat_at (ctx s') i) = o.
Proof.
  intros Hw Hi ins tgt o Hopc Hpos Hout Hfar. subst ins.
  pose proof (load_range (mem s) (inp s)) as Hins.
  pose proof (adr_target_nonneg (inp s) _ Hins Hpos) as Hdec. fold tgt in Hdec.
  pose proof (adr_out_of_range_decoded lo base n i s Hw Hi) as H.
  cbv zeta in H. rewrite Hdec in H. fold o in H.
  destruct H
    as (s' & Hrun & Hinp & Hcur & Hnop & Hld & Hrd & Hlit & Hb & Hal & Hval & Hinsp);
    try done.
  exists s'.
  repeat (split; [done|]).
  split; [apply literal_address_forward; [apply load_range|pow_consts; lia|done]|].
  done.
Qed.

Lemma adr_out_of_range_witness :
  let s := State 0x10000000 0x80000004 (init_context 0x10000000 1) adr_odd_memory [] in
  let ins := load (mem s) (inp s) in
  let tgt := adr_address (inp s) ins in
  let o := if (outp s + 4 * 2) mod 8 =? 0 then outp s else outp s + 4 in
  exists s',
    __fix_pcreladdr s = (true, s')
    /\ inp s' = inp s + 4
    /\ outp s' = o + 4 * 4
    /\ (o ≠ outp s -> load (mem s') (outp s) = A64_NOP)
    /\ Z.land (load (mem s') o) 0xffffffe0 = 0x58000040
    /\ Z.land (load (mem s') o) 0x1f = Z.land ins 0x1f
    /\ literal_address o (load (mem s') o) = o + 8
    /\ branch_target (o + 4) (load (mem s') (o + 4)) = outp s'
    /\ (o + 8) mod 8 = 0
    /\ load64 (mem s') (o + 8) = u64 tgt
    /\ insp (dat_at (ctx s') 0) = o.
Proof.
  cbv zeta.
  apply (adr_out_of_range 0x80000004 0x10000000 1 0).
  - apply window_inv_init; [unfold A64_MAX_INSTRUCTIONS; lia|lia|reflexivity].
  - lia.
  - reflexivity.
  - by vm_compute.
  - reflexivity.
  - by vm_compute.
Defined.

(** ** The decoded addresses *)

(** X16: the addresses the rewriters decode from [LDR] (literal), [ADR] and
    [ADRP] are [pc + 4 * imm19], [pc + imm21] and the page of [pc] plus
    [4096 * imm21] when the signed immediate is not negative; when it is
    negative the decoded address is [2^32] above that, because the masked
    32-bit offset is added to the 64-bit [pc] as an unsigned value. *)
Theorem pc_relative_addresses_decoded pc ins :
  0 <= ins < 2 ^ 32 ->
  let wrap19 := if simm19 ins <? 0 then 2 ^ 32 else 0 in
  let wrap21 := if simm21 ins <? 0 then 2 ^ 32 else 0 in
  loadlit_target pc ins = pc + 4 * simm19 ins + wrap19
  /\ adr_target pc ins = pc + simm21 ins + wrap21
  /\ adrp_target pc ins = 4096 * (pc / 4096) + 4096 * simm21 ins + wrap21.
Proof.
  intros Hins. cbv zeta.
  by rewrite loadlit_target_arith, adr_target_arith, adrp_target_arith.
Qed.

(** [LDR X0, #-8]: the literal eight bytes before the instruction is looked
    for [2^32 - 8] bytes after it. *)
Lemma pc_relative_addresses_decoded_witness :
  let ins := 0x58ffffc0 in
  let wrap19 := if simm19 ins <? 0 then 2 ^ 32 else 0 in
  let wrap21 := if simm21 ins <? 0 then 2 ^ 32 else 0 in
  loadlit_target 0x10000000 ins = 0x10000000 + 4 * simm19 ins + wrap19
  /\ adr_target 0x10000000 ins = 0x10000000 + simm21 ins + wrap21
  /\ adrp_target 0x10000000 ins
     = 4096 * (0x10000000 / 4096) + 4096 * simm21 ins + wrap21.
Proof. apply (pc_relative_addresses_decoded 0x10000000 0x58ffffc0). lia. Defined.

Example backward_literal_address :
  simm19 0x58ffffc0 = -2
  /\ loadlit_target 0x10000000 0x58ffffc0 = 0x10000000 - 8 + 2 ^ 32.
Proof. by vm_compute. Qed.

(** ** The jump back *)

(** The jump [tail_jump] emits leads to the input cursor. *)
Lemma tail_jump_target s :
  outp s mod 4 = 0 -> inp s mod 4 = 0 -> 0 <= inp s < 2 ^ 64 ->
  let s' := tail_jump s in
  let w := load (mem s') (outp s' - 4) in
  (outp s' = outp s + 4
   /\ Z.land w 0xfc000000 = 0x14000000
   /\ branch_target (outp s' - 4) w = inp s)
  \/ (outp s + 16 <= outp s' <= outp s + 20
      /\ (outp s' = outp s + 20 -> load (mem s') (outp s) = A64_NOP)
      /\ load (mem s') (outp s' - 16) = 0x58000051
      /\ load (mem s') (outp s' - 12) = 0xd61f0220
      /\ (outp s' - 8) mod 8 = 0
      /\ load64 (mem s') (outp s' - 8) = inp s).
Proof.
  intros Hal Hinp Hr. destruct s as [pc out c m l]. unfold tail_jump. cbv zeta.
  cbn [inp outp ctx mem log] in *. rewrite land_7.
  change (67108863 ≫ 1) with (2 ^ 25 - 1).
  destruct (Z.leb_spec (2 ^ 25 - 1) (Z.abs ((pc - out) ≫ 2))) as [Hfar|Hnear].
  - right. destruct (Z.eqb_spec ((out + 4 * 2) mod 8) 0); simpl negb; cbv iota.
    all: state_simpl; unfold load64.
    all: load_tac.
    all: repeat split; try reflexivity; try lia.
    all: to_arith; lia.
  - left. state_simpl. split; [lia|].
    replace (out + 4 * 1 - 4) with out by lia. load_tac.
    rewrite Z.shiftr_div_pow2 in Hnear by lia. pow_consts.
    destruct (branch_round_trip out 0x14000000 (pc - out)) as [Ht Ho];
      [by left|lia|pow_consts; lia|].
    unfold branch_word in Ht, Ho.
    rewrite u32_small by (apply lor_range; [lia|lia|apply land_range_mask26]).
    split; [exact Ho|]. rewrite Ht. lia.
Qed.

(** X17: the trampoline ends with a jump to the first instruction that was
    not displaced, [base + 4 * count]: a [B] with that decoded target, or,
    when that is out of reach, [LDR X17, #8; BR X17] and an 8-byte aligned
    literal that holds that address. *)
Theorem trampoline_returns fuel m l base count out :
  (3 <= fuel)%nat -> 0 <= count <= A64_MAX_INSTRUCTIONS ->
  0 <= base < 2 ^ 62 -> base mod 4 = 0 -> out mod 4 = 0 ->
  exists s',
    __fix_instructions fuel m l base count out = Some s'
    /\ let w := load (mem s') (outp s' - 4) in
       (Z.land w 0xfc000000 = 0x14000000
        /\ branch_target (outp s' - 4) w = base + 4 * count)
       \/ (load (mem s') (outp s' - 16) = 0x58000051
           /\ load (mem s') (outp s' - 12) = 0xd61f0220
           /\ (outp s' - 8) mod 8 = 0
           /\ load64 (mem s') (outp s' - 8) = base + 4 * count).
Proof.
  intros Hfuel Hc Hb Hbal Hal. unfold __fix_instructions.
  destruct (Z.ltb_spec A64_MAX_INSTRUCTIONS count); [lia|].
  pose proof (window_inv_init base count out m l Hc Hb Hal) as Hw.
  destruct (fix_loop_spec out base count fuel (Z.to_nat count) Hfuel 0 _ Hw)
    as (s1 & -> & Hw1 & _); [lia|].
  eexists. split; [reflexivity|].
  pose proof (wi_inp _ _ _ _ _ Hw1) as Hinp.
  pose proof (wi_align _ _ _ _ _ Hw1) as Hal1.
  rewrite Z2Nat.id in Hinp by lia. replace (base + 4 * (0 + count)) with
    (base + 4 * count) in Hinp by lia.
  unfold A64_MAX_INSTRUCTIONS in Hc.
  destruct (tail_jump_target s1) as [(_ & H1 & H2)|(_ & _ & H1 & H2 & H3 & H4)];
    [done|lia|pow_consts; lia| |].
  - left. by rewrite <- Hinp.
  - right. by rewrite <- Hinp.
Qed.

Lemma trampoline_returns_witness :
  exists s',
    __fix_instructions 3 add_ret_memory [] 0x1000 2 0x2000 = Some s'
    /\ let w := load (mem s') (outp s' - 4) in
       (Z.land w 0xfc000000 = 0x14000000
        /\ branch_target (outp s' - 4) w = 0x1000 + 4 * 2)
       \/ (load (mem s') (outp s' - 16) = 0x58000051
           /\ load (mem s') (outp s' - 12) = 0xd61f0220
           /\ (outp s' - 8) mod 8 = 0
           /\ load64 (mem s') (outp s' - 8) = 0x1000 + 4 * 2).
Proof.
  apply (trampoline_returns 3 add_ret_memory [] 0x1000 2 0x2000);
    [lia|unfold A64_MAX_INSTRUCTIONS; lia|lia|reflexivity|reflexivity].
Defined.

(** ** Windows without PC-relative instructions *)

Lemma fix_pcreladdr_skips s :
  Z.land (load (mem s) (inp s)) 0x9f000000 ≠ 0x10000000 ->
  Z.land (load (mem s) (inp s)) 0x9f000000 ≠ 0x90000000 ->
  __fix_pcreladdr s = (false, s).
Proof.
  intros H1 H2. unfold __fix_pcreladdr. cbv zeta.
  destruct (Z.eqb_spec (Z.land (load (mem s) (inp s)) 2667577344) 268435456); [done|].
  by destruct (Z.eqb_spec (Z.land (load (mem s) (inp s)) 2667577344) 2415919104).
Qed.

Lemma process_fix_map_drained c idx m :
  drained (fmap (dat_at c idx)) -> (process_fix_map c idx m).2 = m.
Proof.
  intros Hd. unfold process_fix_map. by rewrite fmap_process_drained.
Qed.

(** One turn of the loop on a word no rewriter recognises. *)
Lemma fix_one_plain fuel s :
  pc_relative (load (mem s) (inp s)) = false ->
  fix_one fuel s =
  Some (let '(current_idx, s) := begin_ins s in
        let s := resolve current_idx s in
        advance_in (advance_out 1 (poke 0 (load (mem s) (inp s)) s))).
Proof.
  unfold pc_relative. intros H.
  repeat (apply orb_false_iff in H; destruct H as [H ?]). bool_to_prop.
  destruct (cond_branch_lmask _) eqn:Hc; [done|].
  destruct (loadlit_form _) eqn:Hl; [done|].
  unfold fix_one.
  rewrite fix_branch_imm_skips, fix_cond_comp_test_branch_skips by done.
  rewrite fix_loadlit_skips, fix_pcreladdr_skips by done.
  by destruct (begin_ins s).
Qed.


Lemma drained_fmap_clear fm : drained fm -> fmap_clear fm = fm.
Proof. destruct 1 as [|f rest Hf _]; simpl; [done|]. by rewrite Hf. Qed.

Lemma copied_step fuel m base count out k s :
  copied m base out k s -> 0 <= k < count -> count <= A64_MAX_INSTRUCTIONS ->
  0 <= base < 2 ^ 62 ->
  pc_relative (load m (base + 4 * k)) = false ->
  out + 4 * count <= base \/ base + 4 * count <= out ->
  exists s', fix_one fuel s = Some s' /\ copied m base out (k + 1) s'.
Proof.
  intros (Hinp & Hout & Hbase & Hlen & Hdr & Hfr & Hcp & Hins) Hk Hc Hb Hplain Hdisj.
  unfold A64_MAX_INSTRUCTIONS in *.
  assert (load (mem s) (inp s) = load m (base + 4 * k)) as Hld.
  { unfold load. rewrite Hinp, Hfr; [done|lia]. }
  rewrite fix_one_plain by (by rewrite Hld).
  eexists. split; [reflexivity|].
  destruct s as [pc o c mm l]. cbn [inp outp ctx mem log] in *. subst pc o.
  unfold begin_ins, get_and_set_current_index. cbn [inp outp ctx mem log].
  rewrite get_ref_ins_index_small by (rewrite Hbase; lia).
  replace ((base + 4 * k - basep c) / 4) with k by (rewrite Hbase; lia).
  state_simpl.
  assert (forall j, fmap (dat_at (dat_alter (set_insp (out + 4 * k)) k c) j)
                    = fmap (dat_at c j)) as Hsame
    by apply (same_pending_set_insp c (out + 4 * k) k).
  rewrite process_fix_map_drained by (rewrite Hsame; apply Hdr).
  rewrite Hld.
  destruct (dat_alter_base (set_insp (out + 4 * k)) k c) as (Hb1 & _ & Hl1).
  destruct (drain_base (dat_alter (set_insp (out + 4 * k)) k c) k) as (Hb2 & _ & Hl2).
  unfold copied. cbn [inp outp ctx mem log].
  split; [lia|]. split; [lia|]. split; [congruence|].
  split; [by rewrite Hl2, Hl1|].
  split; [|split; [|split]].
  - intros j. rewrite fmap_dat_at_drain, Hsame.
    case_decide; [|apply Hdr]. rewrite drained_fmap_clear; apply Hdr.
  - intros a Ha. unfold store.
    destruct (Z.eqb_spec a (out + 4 * k + 4 * 0)); [lia|]. apply Hfr. lia.
  - intros j Hj. destruct (Z.eq_dec j k) as [->|].
    + rewrite load_store_eq by lia. apply u32_small, load_range.
    + rewrite load_store_ne by lia. apply Hcp. lia.
  - intros j Hj. rewrite insp_dat_at_drain, dat_at_set_insp by lia.
    destruct (Z.eqb_spec j k) as [->|]; [done|]. apply Hins. lia.
Qed.

Lemma copied_loop fuel m base count out (k : nat) :
  count <= A64_MAX_INSTRUCTIONS -> 0 <= base < 2 ^ 62 ->
  (forall j, 0 <= j < count -> pc_relative (load m (base + 4 * j)) = false) ->
  out + 4 * count <= base \/ base + 4 * count <= out ->
  forall i s, copied m base out i s -> 0 <= i -> i + Z.of_nat k <= count ->
  exists s', fix_loop fuel k s = Some s' /\ copied m base out (i + Z.of_nat k) s'.
Proof.
  intros Hc Hb Hplain Hdisj. induction k as [|k IH]; intros i s Hs Hi Hk.
  - exists s. simpl. by replace (i + Z.of_nat 0) with i by lia.
  - destruct (copied_step fuel m base count out i s Hs) as (s1 & H1 & Hs1);
      [lia|done|done|apply Hplain; lia|done|].
    destruct (IH (i + 1) s1 Hs1) as (s' & H2 & Hs'); [lia|lia|].
    exists s'. simpl. rewrite H1, H2.
    by replace (i + Z.of_nat (S k)) with (i + 1 + Z.of_nat k) by lia.
Qed.

(** X18: a window none of whose instructions is PC-relative, relocated into
    a buffer that does not overlap it, is copied word for word, in order,
    to the start of the buffer; the recorded output address of instruction
    [k] is [out + 4 * k] and only the jump back follows the copy. *)
Theorem plain_window_copied fuel m l base count out :
  0 <= count <= A64_MAX_INSTRUCTIONS -> 0 <= base < 2 ^ 62 -> out mod 4 = 0 ->
  (forall k, 0 <= k < count -> pc_relative (load m (base + 4 * k)) = false) ->
  out + 4 * count <= base \/ base + 4 * count <= out ->
  exists s',
    __fix_instructions fuel m l base count out = Some s'
    /\ (forall k, 0 <= k < count ->
          load (mem s') (out + 4 * k) = load m (base + 4 * k))
    /\ (forall k, 0 <= k < count -> insp (dat_at (ctx s') k) = out + 4 * k)
    /\ out + 4 * count + 4 <= outp s' <= out + 4 * count + 20.
Proof.
  intros Hc Hb Hal Hplain Hdisj. unfold __fix_instructions.
  destruct (Z.ltb_spec A64_MAX_INSTRUCTIONS count); [lia|].
  assert (copied m base out 0 (State base out (init_context base count) m l)) as H0.
  { unfold copied. cbn [inp outp ctx mem log].
    split; [lia|]. split; [lia|]. split; [done|]. split; [done|].
    split; [|split; [done|split; intros; lia]].
    intros j. apply (ctx_inv_init 0 0 count (j + 1) base count j). lia. }
  destruct (copied_loop fuel m base count out (Z.to_nat count) (proj2 Hc) Hb Hplain Hdisj
              0 _ H0) as (s1 & -> & Hs1); [lia|lia|].
  rewrite Z2Nat.id in Hs1 by lia. replace (0 + count) with count in Hs1 by lia.
  destruct Hs1 as (Hinp & Hout & _ & _ & _ & _ & Hcp & Hins).
  assert (outp s1 mod 4 = 0) as Hal1 by (rewrite Hout; lia).
  destruct (tail_jump_spec s1 Hal1) as (_ & Hctx & _ & Ht & Hft).
  eexists. split; [reflexivity|]. rewrite Hctx.
  split; [|split; [done|lia]].
  intros k Hk. rewrite <- Hcp by done. unfold load. f_equal. apply Hft. lia.
Qed.

Lemma plain_window_copied_witness :
  exists s',
    __fix_instructions 0 add_ret_memory [] 0x1000 2 0x2000 = Some s'
    /\ (forall k, 0 <= k < 2 ->
          load (mem s') (0x2000 + 4 * k) = load add_ret_memory (0x1000 + 4 * k))
    /\ (forall k, 0 <= k < 2 -> insp (dat_at (ctx s') k) = 0x2000 + 4 * k)
    /\ 0x2000 + 4 * 2 + 4 <= outp s' <= 0x2000 + 4 * 2 + 20.
Proof.
  apply (plain_window_copied 0 add_ret_memory [] 0x1000 2 0x2000).
  - unfold A64_MAX_INSTRUCTIONS. lia.
  - lia.
  - reflexivity.
  - intros k Hk. assert (k = 0 \/ k = 1) as [-> | ->] by lia; reflexivity.
  - right. lia.
Defined.

(** ** References between instructions of the window *)


Lemma insp_dat_at_insert c k b l a j :
  insp (dat_at (insert_fix_map c k b l a) j) = insp (dat_at c j).
Proof. unfold insert_fix_map. rewrite dat_at_alter. by case_decide. Qed.

Lemma fmap_process_below target fm m1 m2 hi :
  (forall a, a < hi -> m1 a = m2 a) ->
  Forall (fun f => bp f = 0 \/ bp f < hi) fm ->
  forall a, a < hi -> (fmap_process target fm m1).2 a = (fmap_process target fm m2).2 a.
Proof.
  intros Hm Hfm. revert m1 m2 Hm.
  induction Hfm as [|f rest Hf _ IH]; intros m1 m2 Hm a Ha; simpl; [by apply Hm|].
  destruct (Z.eqb_spec (bp f) 0); [by apply Hm|].
  specialize (IH (store m1 (bp f)
                    (Z.lor (load m1 (bp f)) (fix_value target (bp f) (ls f) (ad f))))
                 (store m2 (bp f)
                    (Z.lor (load m2 (bp f)) (fix_value target (bp f) (ls f) (ad f))))).
  do 2 destruct (fmap_process _ rest _). simpl in *. apply IH; [|done].
  intros x Hx. unfold store, load. destruct (Z.eqb_spec x (bp f)); [|by apply Hm].
  rewrite Hm by lia. done.
Qed.

Lemma process_fix_map_below c idx m1 m2 hi :
  (forall a, a < hi -> m1 a = m2 a) ->
  Forall (fun f => bp f = 0 \/ bp f < hi) (fmap (dat_at c idx)) ->
  forall a, a < hi -> (process_fix_map c idx m1).2 a = (process_fix_map c idx m2).2 a.
Proof.
  intros Hm Hfm a Ha. unfold process_fix_map.
  pose proof (fmap_process_below (insp (dat_at c idx)) _ m1 m2 hi Hm Hfm a Ha) as H.
  by do 2 destruct (fmap_process _ _ _).
Qed.

(** The words below the cursor after writes at and above it, then the
    draining of list [i]. *)
Lemma mem_below_resolve lo n i c d c_pre m m_pre out :
  ctx_inv lo out n i c -> deferral n i c d c_pre ->
  (forall a, a < out -> m_pre a = m a) ->
  forall a, a < out ->
    (process_fix_map c_pre i m_pre).2 a = (process_fix_map c_pre i m).2 a.
Proof.
  intros Hinv Hd Hfr. apply process_fix_map_below.
  - done.
  - rewrite (deferral_fmap_le n i c d c_pre i Hd) by lia.
    destruct (Hinv i) as (_ & Hs & _). eapply Forall_impl; [exact Hs|].
    intros f [?|?]; [by left|right; lia].
Qed.

Ltac find_deferral_detail n i out :=
  match goal with
  | |- step_detail _ _ (State _ _ ?c0 _ _) (State _ _ (drain ?c _) _ _) =>
      let d := fresh "Hdef" in
      first
        [ assert (deferral n i c0 None c) as d
            by (apply deferral_none; same_pending_tac)
        | eassert (deferral n i c0 (Some (_, out)) c) as d
            by (apply deferral_one;
                [ same_pending_tac
                | lia
                | first
                    [ left; eapply ref_index_in_window; first [eassumption|reflexivity]
                    | match goal with
                      | Hlen : Z.of_nat (length (dat _)) = A64_MAX_INSTRUCTIONS |- _ =>
                          rewrite Hlen
                      end;
                      eapply adr_ref_index_in_window; first [eassumption|reflexivity] ] ]) ]
  end.

Lemma below_touched o hi m m' :
  touched_only (fun a => o <= a < hi \/ False) m m' ->
  forall a, a < o -> m' a = m a.
Proof. intros H a Ha. apply H. lia. Qed.

(** Stores at and above the cursor leave the words below it. *)
Ltac below_tac :=
  match goal with
  | |- forall a, a < ?o -> _ = _ => apply (below_touched o (o + 1000)); frame_tac
  end.

Ltac insp_tac :=
  unfold A64_MAX_INSTRUCTIONS in *;
  rewrite ?insp_dat_at_insert;
  rewrite ?dat_at_set_insp
    by (rewrite ?(proj2 (proj2 (dat_alter_base _ _ _))); lia);
  repeat match goal with
  | |- context [?x =? ?y] => destruct (Z.eqb_spec x y)
  end; first [reflexivity | lia].

Ltac step_detail_tac Hctx :=
  unfold step_detail; cbn [inp outp ctx mem log];
  eexists _, _; split; [eassumption|];
  split; [reflexivity|];
  split; [first [exact I | lia]|];
  split;
  [ first
      [ intros; reflexivity
      | eapply mem_below_resolve; [exact Hctx|eassumption|below_tac]
      | let a := fresh "a" in
        let Ha := fresh "Ha" in
        intros a Ha; unfold store;
        match goal with
        | |- context [a =? ?y] => destruct (Z.eqb_spec a y); [lia|reflexivity]
        end ]
  | split; [insp_tac|split; [intros; insp_tac|split; [insp_tac|intros; insp_tac]]] ].

Lemma fix_branch_imm_detail lo base n i s s' :
  window_inv lo base n i s -> i < n ->
  __fix_branch_imm s = (true, s') -> step_detail n i s s'.
Proof.
  intros Hw Hi Hrun.
  pose proof (window_current_idx _ _ _ _ _ Hw) as Hidx.
  pose proof (wi_ctx _ _ _ _ _ Hw) as Hctx.
  pose proof (wi_idx _ _ _ _ _ Hw) as Hidx0.
  destruct s as [pc out c m l]. window_facts Hw.
  unfold __fix_branch_imm, begin_ins, get_and_set_current_index in Hrun.
  cbn [inp outp ctx mem log] in Hrun.
  rewrite Hidx in Hrun. clear Hidx.
  cbv zeta in Hrun. cbn [with_ctx inp outp ctx mem log] in Hrun.
  rewrite ?land_7, ?is_in_fixing_range_dat_alter, ?get_ref_ins_index_dat_alter in Hrun.
  repeat case_match; simplify_eq; bool_to_prop.
  all: state_simpl; find_deferral_detail n i out; step_detail_tac Hctx.
Qed.

Lemma fix_cond_comp_test_branch_detail lo base n i s s' :
  window_inv lo base n i s -> i < n ->
  __fix_cond_comp_test_branch s = (true, s') -> step_detail n i s s'.
Proof.
  intros Hw Hi Hrun.
  pose proof (window_current_idx _ _ _ _ _ Hw) as Hidx.
  pose proof (wi_ctx _ _ _ _ _ Hw) as Hctx.
  pose proof (wi_idx _ _ _ _ _ Hw) as Hidx0.
  destruct s as [pc out c m l]. window_facts Hw.
  unfold __fix_cond_comp_test_branch, begin_ins, get_and_set_current_index in Hrun.
  cbn [inp outp ctx mem log] in Hrun.
  destruct (cond_branch_lmask (load m pc)) as [lmask|]; [|done].
  rewrite Hidx in Hrun. clear Hidx.
  cbv zeta in Hrun. cbn [with_ctx inp outp ctx mem log] in Hrun.
  rewrite ?land_7, ?is_in_fixing_range_dat_alter, ?get_ref_ins_index_dat_alter in Hrun.
  repeat case_match; simplify_eq; bool_to_prop.
  all: state_simpl; find_deferral_detail n i out; step_detail_tac Hctx.
Qed.

Lemma fix_pcreladdr_detail lo base n i s s' :
  window_inv lo base n i s -> i < n ->
  __fix_pcreladdr s = (true, s') -> step_detail n i s s'.
Proof.
  intros Hw Hi Hrun.
  pose proof (window_current_idx _ _ _ _ _ Hw) as Hidx.
  pose proof (wi_ctx _ _ _ _ _ Hw) as Hctx.
  pose proof (wi_idx _ _ _ _ _ Hw) as Hidx0.
  destruct s as [pc out c m l]. window_facts Hw.
  unfold __fix_pcreladdr, emit_ldr_literal, begin_ins,
    get_and_set_current_index in Hrun.
  cbn [inp outp ctx mem log] in Hrun.
  rewrite Hidx in Hrun. clear Hidx.
  cbv zeta in Hrun. cbn [with_ctx with_log inp outp ctx mem log] in Hrun.
  rewrite ?land_7, ?is_in_fixing_range_dat_alter, ?get_ref_ins_index_dat_alter in Hrun.
  repeat case_match; simplify_eq; bool_to_prop.
  all: state_simpl; find_deferral_detail n i out; step_detail_tac Hctx.
Qed.

Lemma fix_loadlit_detail lo base n i s fuel s' :
  window_inv lo base n i s -> i < n -> (3 <= fuel)%nat ->
  __fix_loadlit fuel s = Some (true, s') -> step_detail n i s s'.
Proof.
  intros Hw Hi Hfuel.
  pose proof (window_current_idx _ _ _ _ _ Hw) as Hidx.
  pose proof (wi_ctx _ _ _ _ _ Hw) as Hctx.
  pose proof (wi_idx _ _ _ _ _ Hw) as Hidx0.
  destruct s as [pc out c m l]. window_facts Hw.
  unfold __fix_loadlit, begin_ins, get_and_set_current_index.
  cbn [inp outp ctx mem log].
  rewrite Hidx. clear Hidx.
  cbv zeta. cbn [with_ctx inp outp ctx mem log].
  destruct (Z.eqb_spec (Z.land (load m pc) 4278190080) 3623878656).
  { intros [= <-]. state_simpl. find_deferral_detail n i out. step_detail_tac Hctx. }
  destruct (loadlit_form (load m pc)) as [[mask fa]|] eqn:Hform; [|done].
  pose proof (loadlit_form_aligned _ _ _ Hform) as Hfa.
  rewrite !with_ctx_State.
  match goal with |- context [if ?b then _ else _] => destruct b end.
  - destruct (pad_literal_spec fuel fa pc out (dat_alter (set_insp out) i c) m l)
      as (out1 & m1 & -> & Hout1 & Hmod & Hal1 & Hfr); [done..|].
    intros [= <-].
    state_simpl. find_deferral_detail n i out.
    destruct Hfa as [->|[->| ->]]; change ((3 + 1) / 4) with 1 in *;
      change ((7 + 1) / 4) with 2 in *; change ((15 + 1) / 4) with 4 in *.
    all: step_detail_tac Hctx.
  - assert (Z.shiftr fa 2 = 0 \/ Z.shiftr fa 2 = 1 \/ Z.shiftr fa 2 = 3) as Hfa'
      by (destruct Hfa as [->|[->| ->]]; auto).
    destruct (pad_offset_spec fuel (Z.shiftr fa 2)
                (pc + Z.land (u32 (Z.shiftr (s32 (shl32 (load m pc) 8)) (8 + 5 - 2)))
                             (not32 3))
                pc out (dat_alter (set_insp out) i c) m l)
      as (out1 & m1 & -> & Hout1 & Hmod & Hfr); [done..|].
    intros [= <-].
    state_simpl. find_deferral_detail n i out.
    destruct Hfa as [->|[->| ->]]; change (Z.shiftr 3 2) with 0 in *;
      change (Z.shiftr 7 2) with 1 in *; change (Z.shiftr 15 2) with 3 in *.
    all: step_detail_tac Hctx.
Qed.

(** One turn of the driver's loop, in detail. *)
Lemma fix_one_detail lo base n i s fuel s' :
  window_inv lo base n i s -> i < n -> (3 <= fuel)%nat ->
  fix_one fuel s = Some s' -> step_detail n i s s'.
Proof.
  intros Hw Hi Hfuel. unfold fix_one.
  destruct (__fix_branch_imm s) as [[] s1] eqn:H1.
  { intros [= <-]. eauto using fix_branch_imm_detail. }
  apply fix_branch_imm_false in H1 as ->.
  destruct (__fix_cond_comp_test_branch s) as [[] s2] eqn:H2.
  { intros [= <-]. eauto using fix_cond_comp_test_branch_detail. }
  apply fix_cond_comp_test_branch_false in H2 as ->.
  destruct (fix_loadlit_step lo base n i s fuel Hw Hi Hfuel)
    as ([[] s3] & Hll & Hf & Ht); rewrite Hll; simpl in *.
  { intros [= <-]. eauto using fix_loadlit_detail. }
  rewrite (Hf eq_refl).
  destruct (__fix_pcreladdr s) as [[] s4] eqn:H4.
  { intros [= <-]. eauto using fix_pcreladdr_detail. }
  apply fix_pcreladdr_false in H4 as ->.
  intros [= <-].
  pose proof (window_current_idx _ _ _ _ _ Hw) as Hidx.
  pose proof (wi_ctx _ _ _ _ _ Hw) as Hctx.
  pose proof (wi_idx _ _ _ _ _ Hw) as Hidx0.
  destruct s as [pc out c m l]. window_facts Hw.
  unfold begin_ins, get_and_set_current_index. cbn [inp outp ctx mem log].
  rewrite Hidx. state_simpl. find_deferral_detail n i out.
  step_detail_tac Hctx.
Qed.

(** ** Words that wait for a fix-up *)

Lemma quiet_insert a g fm : bp g ≠ a -> quiet a fm -> quiet a (fmap_insert g fm).
Proof.
  intros Hg. induction 1 as [|f rest Hf Hrest IH]; simpl; [constructor|].
  destruct (bp f =? 0); by constructor.
Qed.

Lemma quiet_drained a fm : a ≠ 0 -> drained fm -> quiet a fm.
Proof. intros Ha H. eapply Forall_impl; [exact H|]. simpl. intros; congruence. Qed.

Lemma quiet_clear a fm : a ≠ 0 -> quiet a fm -> quiet a (fmap_clear fm).
Proof.
  intros Ha. induction 1 as [|f rest Hf Hrest IH]; simpl; [constructor|].
  destruct (bp f =? 0); constructor; try done; simpl; congruence.
Qed.

Lemma quiet_slots lo hi a fm : slots_in lo hi fm -> 0 < a -> hi <= a -> quiet a fm.
Proof.
  intros H Hlo Ha. eapply Forall_impl; [exact H|]. simpl. intros f [?|?]; lia.
Qed.

Lemma fmap_insert_used g pre f post :
  Forall (fun f => bp f ≠ 0) pre -> bp f ≠ 0 ->
  fmap_insert g (pre ++ f :: post) = pre ++ f :: fmap_insert g post.
Proof.
  intros Hpre Hf. induction Hpre as [|h pre Hh _ IH]; simpl.
  - by destruct (Z.eqb_spec (bp f) 0).
  - destruct (Z.eqb_spec (bp h) 0); [done|]. by rewrite IH.
Qed.

Lemma awaits_insert a l mk g fm :
  a ≠ 0 -> bp g ≠ a -> awaits a l mk fm -> awaits a l mk (fmap_insert g fm).
Proof.
  intros Ha Hg (pre & post & -> & Hpre & Hpost).
  exists pre, (fmap_insert g post). split; [|split; [done|by apply quiet_insert]].
  apply fmap_insert_used; [|done].
  eapply Forall_impl; [exact Hpre|]. by intros ? [? _].
Qed.

Lemma awaits_new a l mk fm :
  a ≠ 0 -> prefix_ok fm -> quiet a fm -> Exists (fun f => bp f = 0) fm ->
  awaits a l mk (fmap_insert (FixInfo a l mk) fm).
Proof.
  intros Ha. induction fm as [|f rest IH]; intros Hp Hq Hex.
  - by apply Exists_nil in Hex.
  - simpl in *. apply Forall_cons in Hq as [Hf Hq].
    destruct (Z.eqb_spec (bp f) 0) as [H0|H0].
    + exists [], rest. split; [done|]. split; [constructor|done].
    + apply Exists_cons in Hex as [?|Hex]; [done|].
      destruct (IH Hp Hq Hex) as (pre & post & -> & Hpre & Hpost).
      exists (f :: pre), post. split; [done|]. split; [|done].
      by constructor.
Qed.

Lemma fmap_process_quiet target fm m a :
  quiet a fm -> (fmap_process target fm m).2 a = m a.
Proof.
  intros Hq. apply touched_only_fmap_process.
  intros (f & Hf & _ & ->). unfold quiet in Hq. rewrite Forall_forall in Hq.
  by apply (Hq f Hf).
Qed.

Lemma fmap_process_awaits target fm m a l mk :
  a ≠ 0 -> awaits a l mk fm ->
  load (fmap_process target fm m).2 a = u32 (Z.lor (load m a) (fix_value target a l mk)).
Proof.
  intros Ha (pre & post & -> & Hpre & Hpost). revert m.
  induction Hpre as [|g pre [Hg0 Hga] _ IH]; intros m; simpl.
  - destruct (Z.eqb_spec a 0); [done|].
    pose proof (fmap_process_quiet target post
      (store m a (Z.lor (load m a) (fix_value target a l mk))) a Hpost) as H.
    destruct (fmap_process _ post _) as [r m2]. simpl in *.
    unfold load at 1. rewrite H. apply (load_store_eq m a a). done.
  - destruct (Z.eqb_spec (bp g) 0); [done|].
    specialize (IH (store m (bp g)
      (Z.lor (load m (bp g)) (fix_value target (bp g) (ls g) (ad g))))).
    destruct (fmap_process _ (pre ++ _) _) as [r m2]. simpl in *.
    rewrite IH. by rewrite load_store_ne by done.
Qed.

Lemma process_fix_map_quiet c idx m a :
  quiet a (fmap (dat_at c idx)) -> (process_fix_map c idx m).2 a = m a.
Proof.
  intros Hq. unfold process_fix_map.
  pose proof (fmap_process_quiet (insp (dat_at c idx)) _ m a Hq) as H.
  by destruct (fmap_process _ _ _).
Qed.

Lemma process_fix_map_awaits c idx m a l mk :
  a ≠ 0 -> awaits a l mk (fmap (dat_at c idx)) ->
  load (process_fix_map c idx m).2 a
  = u32 (Z.lor (load m a) (fix_value (insp (dat_at c idx)) a l mk)).
Proof.
  intros Ha Hw. unfold process_fix_map.
  pose proof (fmap_process_awaits (insp (dat_at c idx)) _ m a l mk Ha Hw) as H.
  by destruct (fmap_process _ _ _).
Qed.

(** ** The capacity of the pending lists *)

Lemma used_insert g fm :
  (length (filter (fun f => bp f ≠ 0%Z) (fmap_insert g fm))
   <= S (length (filter (fun f => bp f ≠ 0%Z) fm)))%nat.
Proof.
  induction fm as [|f rest IH]; simpl; [lia|].
  destruct (Z.eqb_spec (bp f) 0) as [Hf|Hf].
  - rewrite (filter_cons_False _ f) by (simpl; lia).
    destruct (decide (bp g ≠ 0)).
    + rewrite filter_cons_True by done. simpl. lia.
    + rewrite filter_cons_False by done. lia.
  - rewrite !(filter_cons_True _ f) by done. simpl. lia.
Qed.

Lemma used_clear fm :
  (length (filter (fun f => bp f ≠ 0%Z) (fmap_clear fm))
   <= length (filter (fun f => bp f ≠ 0%Z) fm))%nat.
Proof.
  induction fm as [|f rest IH]; simpl; [done|].
  destruct (Z.eqb_spec (bp f) 0) as [Hf|Hf]; [done|].
  rewrite filter_cons_False by (simpl; lia).
  rewrite filter_cons_True by done. simpl. lia.
Qed.

Lemma length_fmap_insert g fm : length (fmap_insert g fm) = length fm.
Proof.
  induction fm as [|f rest IH]; simpl; [done|].
  destruct (bp f =? 0); simpl; by rewrite ?IH.
Qed.

Lemma length_fmap_clear fm : length (fmap_clear fm) = length fm.
Proof.
  induction fm as [|f rest IH]; simpl; [done|].
  destruct (bp f =? 0); simpl; by rewrite ?IH.
Qed.

Lemma free_slot fm :
  (length (filter (fun f => bp f ≠ 0%Z) fm) < length fm)%nat ->
  Exists (fun f => bp f = 0) fm.
Proof.
  induction fm as [|f rest IH]; simpl; [lia|].
  destruct (Z.eq_dec (bp f) 0) as [Hf|Hf]; [by left|].
  rewrite filter_cons_True by done. simpl. intros H. right. apply IH. lia.
Qed.

(** The pending lists before the draining of list [i]: the old ones,
    but for one that took a fix-up for the word at the cursor. *)
Lemma deferral_lists n i c d c_pre t :
  deferral n i c d c_pre ->
  fmap (dat_at c_pre t) = fmap (dat_at c t)
  \/ exists u b l a, d = Some (u, b)
       /\ fmap (dat_at c_pre t) = fmap_insert (FixInfo b l a) (fmap (dat_at c t)).
Proof.
  destruct 1 as [c' (_&_&_&H)|c1 u b l a (_&_&_&H) _ _]; [by left|].
  rewrite fmap_dat_at_insert, H. case_decide; [right; eauto 6|by left].
Qed.

Lemma cap_init base count : cap 0 (init_context base count).
Proof.
  intros t. unfold pending_count.
  assert (fmap (dat_at (init_context base count) t)
          = replicate (Z.to_nat A64_MAX_REFERENCES) zero_fix_info) as ->.
  { unfold dat_at, init_context. cbn [dat].
    destruct (t <? 0); [done|].
    destruct (replicate _ zero_insns_info !! Z.to_nat t) as [d|] eqn:Hl; simpl; [|done].
    by apply lookup_replicate in Hl as [-> _]. }
  split; [|by rewrite length_replicate]. by vm_compute.
Qed.

Lemma cap_step n i c d c_pre :
  cap i c -> deferral n i c d c_pre -> cap (i + 1) (drain c_pre i).
Proof.
  intros Hc Hd t. destruct (Hc t) as [Hu Hl]. unfold pending_count in *.
  rewrite fmap_dat_at_drain.
  assert (Z.of_nat (length (filter (fun f => bp f ≠ 0) (fmap (dat_at c_pre t)))) <= i + 1
          /\ length (fmap (dat_at c_pre t)) = Z.to_nat A64_MAX_REFERENCES) as [Hu' Hl'].
  { destruct (deferral_lists n i c d c_pre t Hd) as [->|(u & b & l & a & _ & ->)];
      [split; [lia|done]|].
    rewrite length_fmap_insert. split; [|done].
    pose proof (used_insert (FixInfo b l a) (fmap (dat_at c t))). lia. }
  case_decide; [|done]. rewrite length_fmap_clear. split; [|done].
  pose proof (used_clear (fmap (dat_at c_pre t))). lia.
Qed.

Lemma cap_free i c t : cap i c -> i < A64_MAX_REFERENCES ->
  Exists (fun f => bp f = 0) (fmap (dat_at c t)).
Proof.
  intros Hc Hi. destruct (Hc t) as [Hu Hl]. apply free_slot.
  unfold pending_count in Hu. rewrite Hl. lia.
Qed.

(** ** A reference from one instruction of the window to another *)

Lemma tracked_start lo base n k j l mk w0 word s s' :
  window_inv lo base n k s -> 0 < lo -> k < n -> 0 <= j < n ->
  cap k (ctx s) ->
  reference_shape k j l mk w0 word s s' ->
  tracked k j l mk w0 word (k + 1) s'.
Proof.
  intros Hw Hlo Hk Hj Hcap (c1 & Hout & Hsp & Hinsp & Hsh).
  pose proof (wi_ctx _ _ _ _ _ Hw) as Hctx.
  pose proof (wi_lo _ _ _ _ _ Hw) as Hlo'.
  pose proof (wi_idx _ _ _ _ _ Hw) as Hidx.
  pose proof (wi_n _ _ _ _ _ Hw) as Hn.
  pose proof (wi_len _ _ _ _ _ Hw) as Hlen.
  destruct Hsp as (_ & _ & Hlen1 & Hfm).
  assert (forall u, quiet (outp s) (fmap (dat_at c1 u))) as Hq.
  { intros u. rewrite Hfm. destruct (Hctx u) as (_ & Hs & _).
    eapply quiet_slots; [exact Hs|lia|lia]. }
  unfold tracked. cbv zeta.
  destruct (Z.leb_spec j k) as [Hjk|Hjk].
  - destruct Hsh as [Hc Hld]. rewrite Hc, !insp_dat_at_drain, !Hinsp, Z.eqb_refl.
    rewrite orb_true_l. split; [lia|]. split; [|split; [lia|]].
    + intros u. rewrite fmap_dat_at_drain. case_decide; [|done].
      apply quiet_clear; [lia|done].
    + by rewrite Hld, Hinsp.
  - destruct Hsh as [Hc Hld].
    rewrite Hc, !insp_dat_at_drain, !insp_dat_at_insert, !Hinsp, Z.eqb_refl.
    destruct (Z.ltb_spec j (k + 1)); [lia|]. rewrite orb_false_l.
    split; [lia|]. split; [done|]. split.
    + rewrite fmap_dat_at_drain, fmap_dat_at_insert.
      case_decide; [lia|]. case_decide; [|unfold A64_MAX_INSTRUCTIONS in *; lia].
      apply awaits_new; [lia| |done|].
      * rewrite Hfm. apply (Hctx j).
      * rewrite Hfm. apply (cap_free k); [done|].
        unfold A64_MAX_REFERENCES, A64_MAX_INSTRUCTIONS in *. lia.
    + intros u Hu. rewrite fmap_dat_at_drain, fmap_dat_at_insert.
      case_decide; case_decide; try lia; try done.
      apply quiet_clear; [lia|done].
Qed.

(** The lists of a context after a deferral for the word at [b]. *)
Lemma deferral_quiet n i c d c_pre a u :
  deferral n i c d c_pre ->
  match d with Some (_, b) => b ≠ a | None => True end ->
  quiet a (fmap (dat_at c u)) -> quiet a (fmap (dat_at c_pre u)).
Proof.
  intros Hd Hb Hq.
  destruct (deferral_lists n i c d c_pre u Hd) as [->|(v & b & l & mk & -> & ->)];
    [done|].
  by apply quiet_insert.
Qed.

Lemma deferral_awaits n i c d c_pre a l mk u :
  deferral n i c d c_pre -> a ≠ 0 ->
  match d with Some (_, b) => b ≠ a | None => True end ->
  awaits a l mk (fmap (dat_at c u)) -> awaits a l mk (fmap (dat_at c_pre u)).
Proof.
  intros Hd Ha Hb Hq.
  destruct (deferral_lists n i c d c_pre u Hd) as [->|(v & b & l' & mk' & -> & ->)];
    [done|].
  by apply awaits_insert.
Qed.

Lemma tracked_step lo base n k j l mk w0 word i s s' :
  window_inv lo base n i s -> window_inv lo base n (i + 1) s' ->
  k < i -> i < n -> 0 <= j < n ->
  step_detail n i s s' ->
  tracked k j l mk w0 word i s ->
  tracked k j l mk w0 word (i + 1) s'.
Proof.
  intros Hw Hw' Hki Hin Hj (d & c_pre & Hd & Hc & Hb & Hmem & Hi1 & Hi2 & Hi3 & Hi4).
  unfold tracked. cbv zeta. intros [Ha Htr].
  pose proof (wi_ctx _ _ _ _ _ Hw') as Hctx'.
  rewrite Hc, !insp_dat_at_drain. rewrite (Hi4 k) by lia.
  set (a := insp (dat_at (ctx s) k)) in *.
  assert (match d with Some (_, b) => b ≠ a | None => True end) as Hba.
  { destruct d as [[u b]|]; [|done]. lia. }
  assert (forall u, quiet a (fmap (dat_at (ctx s) u)) ->
                    quiet a (fmap (dat_at (drain c_pre i) u))) as Hquiet.
  { intros u Hq. rewrite fmap_dat_at_drain.
    pose proof (deferral_quiet n i _ d c_pre a u Hd Hba Hq).
    case_decide; [|done]. apply quiet_clear; [lia|done]. }
  split; [lia|].
  destruct ((j <=? k) || (j <? i)) eqn:Hset.
  - assert (j ≠ i) as Hji.
    { apply orb_true_iff in Hset as [?%Z.leb_le|?%Z.ltb_lt]; lia. }
    assert ((j <=? k) || (j <? i + 1) = true) as ->.
    { apply orb_true_iff in Hset as [?%Z.leb_le|?%Z.ltb_lt];
        apply orb_true_iff; [left; lia|right; lia]. }
    destruct Htr as (Hq & Hlt & Hld). rewrite (Hi4 j) by done.
    split; [intros u; apply Hquiet, Hq|]. split; [done|].
    rewrite <- Hld. unfold load. f_equal. rewrite Hmem by lia.
    apply process_fix_map_quiet. eapply deferral_quiet; [exact Hd|exact Hba|apply Hq].
  - apply orb_false_iff in Hset as [Hjk%Z.leb_gt Hji%Z.ltb_ge].
    destruct Htr as (Hld & Haw & Hq).
    destruct (Z.leb_spec j k); [lia|]. rewrite orb_false_l.
    destruct (Z.eq_dec i j) as [->|Hne].
    + destruct (Z.ltb_spec j (j + 1)); [|lia].
      split; [|split; [lia|]].
      * intros u. destruct (Z.eq_dec u j) as [->|Hu]; [|by apply Hquiet, Hq].
        rewrite <- Hc. apply quiet_drained; [lia|]. apply (Hctx' j). lia.
      * unfold load at 1. rewrite Hmem by lia. fold (load (process_fix_map c_pre j (mem s)).2 a).
        rewrite (process_fix_map_awaits c_pre j (mem s) a l mk); [by rewrite Hld|lia|].
        eapply deferral_awaits; [exact Hd|lia|exact Hba|exact Haw].
    + destruct (Z.ltb_spec j (i + 1)); [lia|].
      split; [|split].
      * rewrite <- Hld. unfold load. f_equal. rewrite Hmem by lia.
        apply process_fix_map_quiet. eapply deferral_quiet; [exact Hd|exact Hba|].
        apply Hq. lia.
      * rewrite fmap_dat_at_drain. case_decide; [lia|].
        eapply deferral_awaits; [exact Hd|lia|exact Hba|exact Haw].
      * intros u Hu. by apply Hquiet, Hq.
Qed.

Lemma settled_step lo base n i s s' :
  window_inv lo base n i s -> step_detail n i s s' ->
  settled lo i s -> settled lo (i + 1) s'.
Proof.
  intros Hw (d & c_pre & Hd & Hc & Hb & Hmem & Hi1 & Hi2 & Hi3 & Hi4) Hs t Ht.
  pose proof (wi_lo _ _ _ _ _ Hw). rewrite Hc, insp_dat_at_drain.
  destruct (Z.eq_dec t i) as [->|Hne]; [split; [lia|done]|].
  rewrite Hi4 by done. destruct (Hs t) as [? ?]; [lia|]. split; [lia|done].
Qed.


Section Reference.

Variable fuel : nat.
Variable m : memory.
Variables base n out k j l mk w0 : Z.
Variable word : Z -> Z.

Hypothesis Hfuel : (3 <= fuel)%nat.
Hypothesis Hn : 0 <= n <= A64_MAX_INSTRUCTIONS.
Hypothesis Hbase : 0 <= base < 2 ^ 62.
Hypothesis Hal : out mod 4 = 0.
Hypothesis Hpos : 0 < out.
Hypothesis Hdisj : out + 40 * n <= base \/ base + 4 * n <= out.
Hypothesis Hk : 0 <= k < n.
Hypothesis Hj : 0 <= j < n.
Hypothesis Href : forall s s',
  window_inv out base n k s -> load (mem s) (inp s) = load m (base + 4 * k) ->
  fix_one fuel s = Some s' -> reference_shape k j l mk w0 word s s'.

Lemma reference_inv_step i s :
  reference_inv m base n out k j l mk w0 word i s -> i < n ->
  exists s', fix_one fuel s = Some s'
             /\ reference_inv m base n out k j l mk w0 word (i + 1) s'.
Proof.
  intros (Hw & Hpot & Hfr & Hcap & Hset & Htr) Hi.
  destruct (fix_one_step out base n i s fuel Hw Hi Hfuel) as (s' & Hone & Hstep).
  exists s'. split; [done|].
  pose proof (step_window _ _ _ _ _ _ Hw Hi Hstep) as Hw'.
  pose proof (fix_one_detail _ _ _ _ _ _ _ Hw Hi Hfuel Hone) as Hdet.
  pose proof (so_pot _ _ _ _ Hstep) as Hpot'.
  pose proof (so_out _ _ _ _ Hstep) as Hout'.
  pose proof (wi_idx _ _ _ _ _ Hw) as Hidx.
  split; [done|]. split; [lia|]. split; [|split; [|split]].
  - eapply touched_only_trans.
    + eapply touched_only_mono; [|exact Hfr]. cbv beta. lia.
    + exact (step_frame _ _ _ _ _ _ Hw Hstep).
  - destruct Hdet as (d & c_pre & Hd & Hc & _). rewrite Hc.
    by eapply cap_step.
  - by eapply settled_step.
  - intros Hki. destruct (Z.eq_dec i k) as [->|Hne].
    + eapply tracked_start; [exact Hw|done|lia|done|done|].
      apply Href; [done| |done].
      rewrite (wi_inp _ _ _ _ _ Hw). unfold load. f_equal. apply Hfr.
      unfold phi in Hpot. repeat case_match; lia.
    + eapply tracked_step; [exact Hw|exact Hw'|lia|done|done|done|].
      apply Htr. lia.
Qed.

Lemma reference_inv_loop (c : nat) :
  forall i s, reference_inv m base n out k j l mk w0 word i s ->
  i + Z.of_nat c <= n ->
  exists s', fix_loop fuel c s = Some s'
             /\ reference_inv m base n out k j l mk w0 word (i + Z.of_nat c) s'.
Proof.
  induction c as [|c IH]; intros i s Hs Hc.
  - exists s. simpl. by replace (i + Z.of_nat 0) with i by lia.
  - destruct (reference_inv_step i s Hs) as (s1 & H1 & Hs1); [lia|].
    destruct (IH (i + 1) s1 Hs1) as (s' & H2 & Hs'); [lia|].
    exists s'. simpl. rewrite H1, H2.
    by replace (i + Z.of_nat (S c)) with (i + 1 + Z.of_nat c) by lia.
Qed.

(** The relocated word of the reference, after the whole window. *)
Lemma reference_relocated lg :
  exists s',
    __fix_instructions fuel m lg base n out = Some s'
    /\ let a := insp (dat_at (ctx s') k) in
       let t := insp (dat_at (ctx s') j) in
       out <= a /\ a + 4 <= outp s' /\ a mod 4 = 0
       /\ out <= t /\ t + 4 <= outp s' /\ t mod 4 = 0
       /\ (k < j -> a < t)
       /\ outp s' <= out + 4 * (8 * n + 6)
       /\ load (mem s') a = (if j <=? k then word (t - a)
                             else u32 (Z.lor w0 (fix_value t a l mk))).
Proof.
  unfold __fix_instructions.
  destruct (Z.ltb_spec A64_MAX_INSTRUCTIONS n); [lia|].
  set (s0 := State base out (init_context base n) m lg).
  assert (reference_inv m base n out k j l mk w0 word 0 s0) as H0.
  { split; [by apply window_inv_init|]. unfold s0. cbn [inp outp ctx mem log].
    split; [lia|]. split; [apply touched_only_refl|]. split; [apply cap_init|].
    split; [intros t Ht; lia|lia]. }
  destruct (reference_inv_loop (Z.to_nat n) 0 s0 H0) as (s1 & -> & Hs1); [lia|].
  rewrite Z2Nat.id in Hs1 by lia. replace (0 + n) with n in Hs1 by lia.
  destruct Hs1 as (Hw & Hpot & _ & _ & Hset & Htr).
  destruct (tail_jump_spec s1 (wi_align _ _ _ _ _ Hw)) as (_ & Hctx & _ & Ht & Hft).
  eexists. split; [reflexivity|]. cbv zeta. rewrite Hctx.
  destruct (Hset k Hk) as [Hk1 Hk2]. destruct (Hset j Hj) as [Hj1 Hj2].
  destruct (Htr ltac:(lia)) as [Ha Hfin].
  assert ((j <=? k) || (j <? n) = true) as Hb.
  { apply orb_true_iff. right. apply Z.ltb_lt. lia. }
  rewrite Hb in Hfin. destruct Hfin as (_ & Hlt & Hld).
  split; [lia|]. split; [lia|]. split; [done|].
  split; [lia|]. split; [lia|]. split; [done|]. split; [done|].
  split; [unfold phi in Hpot; repeat case_match; lia|].
  rewrite <- Hld. unfold load. f_equal. apply Hft. lia.
Qed.

End Reference.

(** ** Branches between instructions of the window *)

Lemma in_window_range c base n j :
  basep c = base -> endp c = base + 4 * n -> 0 <= j < n ->
  is_in_fixing_range c (base + 4 * j) = true.
Proof.
  intros Hb He Hj. unfold is_in_fixing_range. rewrite Hb, He.
  apply andb_true_iff. split; [apply Z.leb_le|apply Z.ltb_lt]; lia.
Qed.

Lemma in_window_index c base n j :
  basep c = base -> n <= A64_MAX_INSTRUCTIONS -> 0 <= j < n ->
  get_ref_ins_index c (base + 4 * j) = j.
Proof.
  intros Hb Hn Hj. unfold A64_MAX_INSTRUCTIONS in *.
  rewrite get_ref_ins_index_small; rewrite Hb; lia.
Qed.

Lemma load_after_deferral lo hi n i c d c' m a :
  ctx_inv lo hi n i c -> deferral n i c d c' -> hi <= a ->
  load (process_fix_map c' i m).2 a = load m a.
Proof.
  intros Hinv Hd Ha. unfold load. f_equal.
  apply (touched_only_resolve (fun a => lo <= a < hi) n i c d c' m Hd).
  - intros b Hb. by eapply pending_bp_in_range.
  - lia.
Qed.

Lemma opcode_range x mask : 0 <= mask < 2 ^ 32 -> 0 <= Z.land x mask < 2 ^ 32.
Proof. intros H. rewrite Z.land_comm. by apply land_range. Qed.

Lemma fix_one_branch_reference fuel lo base n i j s s' :
  window_inv lo base n i s -> i < n -> 0 <= j < n ->
  let ins := load (mem s) (inp s) in
  Z.land ins 0xfc000000 = 0x14000000 \/ Z.land ins 0xfc000000 = 0x94000000 ->
  branch_target (inp s) ins = base + 4 * j ->
  fix_one fuel s = Some s' ->
  reference_shape i j 0 0x03ffffff (Z.land ins 0xfc000000)
                  (branch_word (Z.land ins 0xfc000000)) s s'.
Proof.
  intros Hw Hi Hj ins Hopc Htgt Hone.
  unfold fix_one in Hone.
  destruct (__fix_branch_imm s) as [b s1] eqn:Hrun.
  pose proof (window_current_idx _ _ _ _ _ Hw) as Hidx.
  pose proof (wi_ctx _ _ _ _ _ Hw) as Hctx.
  pose proof (wi_idx _ _ _ _ _ Hw) as Hidx0.
  subst ins. unfold reference_shape, branch_word, branch_target in *.
  destruct s as [pc out c m l]. window_facts Hw.
  pose proof (in_window_range c base n j ltac:(done) ltac:(done) Hj) as Hin.
  pose proof (in_window_index c base n j ltac:(done) ltac:(done) Hj) as Hix.
  unfold __fix_branch_imm, begin_ins, get_and_set_current_index in Hrun.
  cbn [inp outp ctx mem log] in Hrun.
  rewrite Hidx in Hrun. clear Hidx.
  cbv zeta in Hrun. cbn [with_ctx inp outp ctx mem log] in Hrun.
  rewrite Htgt in Hrun.
  rewrite ?is_in_fixing_range_dat_alter, ?get_ref_ins_index_dat_alter, Hin, Hix in Hrun.
  unfold A64_MAX_INSTRUCTIONS in *.
  repeat case_match; simplify_eq; bool_to_prop; try lia.
  all: exists (dat_alter (set_insp out) i c); state_simpl.
  all: split; [lia|]; split; [same_pending_tac|].
  all: split; [intros t; apply dat_at_set_insp; lia|].
  all: split; [done|].
  - erewrite load_after_resolve by (first [exact Hctx|same_pending_tac|lia]).
    load_tac. change (not32 4227858432) with 67108863.
    apply u32_small, lor_range; [lia| |apply land_range_mask26].
    by apply opcode_range.
  - erewrite load_after_deferral;
      [|exact Hctx|apply deferral_one; [same_pending_tac|lia|left; lia]|lia].
    load_tac. rewrite Z.land_0_l, Z.lor_0_r.
    by apply u32_small, opcode_range.
Qed.

Lemma s32_small x : - 2 ^ 31 <= x < 2 ^ 31 -> s32 x = x.
Proof.
  intros H. unfold s32, u32. change (2 ^ 31) with 2147483648 in *.
  change (2 ^ 32) with 4294967296.
  destruct (Z.ltb_spec (x mod 4294967296) 2147483648); lia.
Qed.

Lemma branch_fix_value opc t a :
  0 <= t - a < 2 ^ 27 ->
  Z.lor opc (fix_value t a 0 0x03ffffff) = branch_word opc (t - a).
Proof.
  intros H. unfold fix_value, branch_word.
  change (2 ^ 27) with 134217728 in H.
  rewrite s32_small by (change (2 ^ 31) with 2147483648; lia).
  rewrite Z.shiftl_0_r, u32_small; [done|].
  rewrite Z.shiftr_div_pow2 by lia. change (2 ^ 2) with 4.
  change (2 ^ 32) with 4294967296. lia.
Qed.

Lemma branch_word_range opc d :
  opc = 0x14000000 \/ opc = 0x94000000 -> 0 <= branch_word opc d < 2 ^ 32.
Proof.
  intros Hopc. unfold branch_word.
  apply lor_range; [lia| |apply land_range_mask26].
  change (2 ^ 32) with 4294967296. lia.
Qed.

(** X19: a [B] or [BL] of the window whose target is an instruction of the
    same window, before or after it, is relocated to one word with the
    same opcode that branches to the output address recorded for the
    target instruction. *)
Theorem window_branch_retargeted fuel m lg base n out k j :
  (3 <= fuel)%nat -> 0 <= n <= A64_MAX_INSTRUCTIONS -> 0 <= base < 2 ^ 62 ->
  0 < out -> out mod 4 = 0 ->
  out + 40 * n <= base \/ base + 4 * n <= out ->
  0 <= k < n -> 0 <= j < n ->
  let ins := load m (base + 4 * k) in
  Z.land ins 0xfc000000 = 0x14000000 \/ Z.land ins 0xfc000000 = 0x94000000 ->
  branch_target (base + 4 * k) ins = base + 4 * j ->
  exists s',
    __fix_instructions fuel m lg base n out = Some s'
    /\ let a := insp (dat_at (ctx s') k) in
       let w := load (mem s') a in
       out <= a < outp s'
       /\ Z.land w 0xfc000000 = Z.land ins 0xfc000000
       /\ branch_target a w = insp (dat_at (ctx s') j).
Proof.
  intros Hfuel Hn Hbase Hpos Hal Hdisj Hk Hj ins Hopc Htgt.
  destruct (reference_relocated fuel m base n out k j 0 0x03ffffff
              (Z.land ins 0xfc000000) (branch_word (Z.land ins 0xfc000000))
              Hfuel Hn Hbase Hal Hpos Hdisj Hk Hj) with (lg := lg)
    as (s' & Hrun & Ha1 & Ha2 & Ha3 & Ht1 & Ht2 & Ht3 & Hlt & Hsz & Hld).
  { intros s s1 Hw Hins Hone.
    assert (load (mem s) (inp s) = ins) as Hins' by done.
    pose proof (fix_one_branch_reference fuel out base n k j s s1
                  Hw ltac:(lia) Hj) as Hsh.
    cbv zeta in Hsh. rewrite Hins' in Hsh. apply Hsh; [done| |done].
    rewrite (wi_inp _ _ _ _ _ Hw). exact Htgt. }
  exists s'. split; [done|]. cbv zeta.
  set (a := insp (dat_at (ctx s') k)) in *.
  set (t := insp (dat_at (ctx s') j)) in *.
  unfold A64_MAX_INSTRUCTIONS in Hn.
  assert (load (mem s') a = branch_word (Z.land ins 0xfc000000) (t - a)) as ->.
  { rewrite Hld. destruct (Z.leb_spec j k); [done|].
    rewrite branch_fix_value by (change (2 ^ 27) with 134217728; lia).
    apply u32_small, branch_word_range, Hopc. }
  split; [lia|].
  destruct (branch_round_trip a (Z.land ins 0xfc000000) (t - a) Hopc) as [H1 H2];
    [lia|change (2 ^ 27) with 134217728; lia|].
  split; [done|]. rewrite H1. lia.
Qed.

Lemma window_branch_retargeted_witness :
  exists s',
    __fix_instructions 3 loop_memory [] 0x1000 3 0x2000 = Some s'
    /\ let a := insp (dat_at (ctx s') 0) in
       let w := load (mem s') a in
       0x2000 <= a < outp s'
       /\ Z.land w 0xfc000000 = Z.land (load loop_memory (0x1000 + 4 * 0)) 0xfc000000
       /\ branch_target a w = insp (dat_at (ctx s') 2).
Proof.
  apply (window_branch_retargeted 3 loop_memory [] 0x1000 3 0x2000 0 2).
  - lia.
  - unfold A64_MAX_INSTRUCTIONS. lia.
  - lia.
  - lia.
  - reflexivity.
  - right. lia.
  - lia.
  - lia.
  - left. reflexivity.
  - reflexivity.
Defined.

Lemma fix_one_cond_branch_reference fuel lo base n i j s s' lmask :
  window_inv lo base n i s -> i < n -> 0 <= j < n ->
  let ins := load (mem s) (inp s) in
  cond_branch_lmask ins = Some lmask ->
  cond_branch_target (inp s) ins lmask = base + 4 * j ->
  fix_one fuel s = Some s' ->
  reference_shape i j 5 (not32 lmask) (Z.land ins lmask)
                  (cond_branch_word ins lmask) s s'.
Proof.
  intros Hw Hi Hj ins Hlmask Htgt Hone.
  destruct (cond_branch_not_branch_imm _ _ Hlmask) as [Hn1 Hn2].
  unfold fix_one in Hone.
  rewrite (fix_branch_imm_skips s Hn1 Hn2) in Hone.
  destruct (__fix_cond_comp_test_branch s) as [b s1] eqn:Hrun.
  pose proof (window_current_idx _ _ _ _ _ Hw) as Hidx.
  pose proof (wi_ctx _ _ _ _ _ Hw) as Hctx.
  pose proof (wi_idx _ _ _ _ _ Hw) as Hidx0.
  pose proof (load_range (mem s) (inp s)) as Hins.
  pose proof (cond_branch_lmask_cases _ _ Hlmask) as Hcases.
  subst ins. unfold reference_shape, cond_branch_word, cond_branch_target in *.
  destruct s as [pc out c m l]. window_facts Hw.
  pose proof (in_window_range c base n j ltac:(done) ltac:(done) Hj) as Hin.
  pose proof (in_window_index c base n j ltac:(done) ltac:(done) Hj) as Hix.
  unfold __fix_cond_comp_test_branch, begin_ins, get_and_set_current_index in Hrun.
  cbn [inp outp ctx mem log] in Hrun. rewrite Hlmask in Hrun.
  rewrite Hidx in Hrun. clear Hidx.
  cbv zeta in Hrun. cbn [with_ctx inp outp ctx mem log] in Hrun.
  rewrite Htgt in Hrun.
  rewrite ?is_in_fixing_range_dat_alter, ?get_ref_ins_index_dat_alter, Hin, Hix in Hrun.
  unfold A64_MAX_INSTRUCTIONS in *.
  repeat case_match; simplify_eq; bool_to_prop; try lia.
  all: exists (dat_alter (set_insp out) i c); state_simpl.
  all: split; [lia|]; split; [same_pending_tac|].
  all: split; [intros t; apply dat_at_set_insp; lia|].
  all: split; [done|].
  - erewrite load_after_resolve by (first [exact Hctx|same_pending_tac|lia]).
    load_tac.
    apply u32_small, lor_range; [lia| |by apply land_range].
    apply land_range; [lia|]. unfold u32. by apply Z.mod_pos_bound.
  - erewrite load_after_deferral;
      [|exact Hctx|apply deferral_one; [same_pending_tac|lia|left; lia]|lia].
    load_tac. rewrite Z.shiftl_0_l. change (u32 0) with 0.
    rewrite Z.land_0_l, Z.lor_0_l.
    by apply u32_small, land_range.
Qed.

Lemma cond_fix_value ins lmask t a :
  0 <= t - a < 2 ^ 27 ->
  Z.lor (Z.land ins lmask) (fix_value t a 5 (not32 lmask))
  = cond_branch_word ins lmask (t - a).
Proof.
  intros H. unfold fix_value, cond_branch_word.
  change (2 ^ 27) with 134217728 in H.
  rewrite s32_small by (change (2 ^ 31) with 2147483648; lia).
  apply Z.lor_comm.
Qed.

(** X20: a [B.cond], [CBZ]/[CBNZ] or [TBZ]/[TBNZ] of the window whose
    target is an instruction of the same window, before or after it, is
    relocated to one word with the same condition, register and bit
    fields that branches to the output address recorded for the target
    instruction. *)
Theorem window_cond_branch_retargeted fuel m lg base n out k j lmask :
  (3 <= fuel)%nat -> 0 <= n <= A64_MAX_INSTRUCTIONS -> 0 <= base < 2 ^ 62 ->
  0 < out -> out mod 4 = 0 ->
  out + 40 * n <= base \/ base + 4 * n <= out ->
  0 <= k < n -> 0 <= j < n ->
  let ins := load m (base + 4 * k) in
  cond_branch_lmask ins = Some lmask ->
  cond_branch_target (base + 4 * k) ins lmask = base + 4 * j ->
  exists s',
    __fix_instructions fuel m lg base n out = Some s'
    /\ let a := insp (dat_at (ctx s') k) in
       let w := load (mem s') a in
       out <= a < outp s'
       /\ Z.land w lmask = Z.land ins lmask
       /\ cond_branch_target a w lmask = insp (dat_at (ctx s') j).
Proof.
  intros Hfuel Hn Hbase Hpos Hal Hdisj Hk Hj ins Hlmask Htgt.
  destruct (reference_relocated fuel m base n out k j 5 (not32 lmask)
              (Z.land ins lmask) (cond_branch_word ins lmask)
              Hfuel Hn Hbase Hal Hpos Hdisj Hk Hj) with (lg := lg)
    as (s' & Hrun & Ha1 & Ha2 & Ha3 & Ht1 & Ht2 & Ht3 & Hlt & Hsz & Hld).
  { intros s s1 Hw Hins Hone.
    assert (load (mem s) (inp s) = ins) as Hins' by done.
    pose proof (fix_one_cond_branch_reference fuel out base n k j s s1 lmask
                  Hw ltac:(lia) Hj) as Hsh.
    cbv zeta in Hsh. rewrite Hins' in Hsh. apply Hsh; [done| |done].
    rewrite (wi_inp _ _ _ _ _ Hw). exact Htgt. }
  exists s'. split; [done|]. cbv zeta.
  set (a := insp (dat_at (ctx s') k)) in *.
  set (t := insp (dat_at (ctx s') j)) in *.
  unfold A64_MAX_INSTRUCTIONS in Hn.
  pose proof (load_range m (base + 4 * k)) as Hir. fold ins in Hir.
  pose proof (cond_branch_lmask_cases _ _ Hlmask) as Hcases.
  assert (load (mem s') a = cond_branch_word ins lmask (t - a)) as ->.
  { rewrite Hld. destruct (Z.leb_spec j k); [done|].
    rewrite cond_fix_value by (change (2 ^ 27) with 134217728; lia).
    apply u32_small. unfold cond_branch_word.
    apply lor_range; [lia| |by apply land_range].
    apply land_range; [lia|]. unfold u32. by apply Z.mod_pos_bound. }
  split; [lia|].
  destruct (cond_branch_round_trip a ins lmask (t - a) Hir) as [H1 H2]; [lia| |].
  { change (2 ^ 20) with 1048576. change (2 ^ 15) with 32768.
    destruct Hcases as [-> | ->]; [left|right]; (split; [done|lia]). }
  split; [done|]. rewrite H1. lia.
Qed.

Lemma window_cond_branch_retargeted_witness :
  exists s',
    __fix_instructions 3 bcond_memory [] 0x10000000 2 0x20000000 = Some s'
    /\ let a := insp (dat_at (ctx s') 0) in
       let w := load (mem s') a in
       0x20000000 <= a < outp s'
       /\ Z.land w 0xff00001f
          = Z.land (load bcond_memory (0x10000000 + 4 * 0)) 0xff00001f
       /\ cond_branch_target a w 0xff00001f = insp (dat_at (ctx s') 1).
Proof.
  apply (window_cond_branch_retargeted 3 bcond_memory [] 0x10000000 2 0x20000000 0 1
           0xff00001f).
  - lia.
  - unfold A64_MAX_INSTRUCTIONS. lia.
  - lia.
  - lia.
  - reflexivity.
  - right. lia.
  - lia.
  - lia.
  - reflexivity.
  - reflexivity.
Defined.

(** ** The installer *)

Ltac store_frame :=
  unfold store64;
  repeat (eapply touched_only_trans; [|apply touched_only_store; cbv beta; lia]).

(** What a call of [A64HookFunctionV] does when the size precheck lets it
    through, whatever [mprotect] answers. *)
Lemma hook_function_v_spec mprotect errno fuel m l symbol replace rwx rwx_size :
  (3 <= fuel)%nat -> 0 <= symbol < 2 ^ 62 -> rwx mod 4 = 0 ->
  let N := displaced_count symbol replace in
  rwx = 0 \/ 10 * N <= rwx_size ->
  exists r,
    A64HookFunctionV mprotect errno fuel m l symbol replace rwx rwx_size = Some r
    /\ touched_only (fun a => (rwx ≠ 0 /\ rwx <= a < rwx + 4 * (8 * N + 6))
                              \/ symbol <= a < symbol + 4 * N) m (hmem r)
    /\ (__make_rwx mprotect symbol (patch_bytes symbol replace) = 0 ->
        ret r = rwx /\ prologue_installed symbol replace (hmem r))
    /\ (__make_rwx mprotect symbol (patch_bytes symbol replace) ≠ 0 ->
        ret r = 0
        /\ touched_only (fun a => rwx ≠ 0 /\ rwx <= a < rwx + 4 * (8 * N + 6)) m (hmem r)).
Proof.
  intros Hfuel Hsym Hal N. subst N.
  unfold patch_bytes, prologue_installed, displaced_count, long_patch.
  unfold A64HookFunctionV, backup_instructions. cbv zeta. rewrite land_7.
  intros Hsize.
  destruct (Z.leb_spec (Z.shiftr 67108863 1) (Z.abs (Z.shiftr (replace - symbol) 2))).
  - set (N := if negb ((symbol + 4 * 2) mod 8 =? 0) then 5 else 4) in *.
    assert (N = 4 \/ N = 5) as HN by (subst N; destruct (negb _); auto).
    assert (exists m1 l1,
      (if negb (rwx =? 0)
       then if rwx_size <? N * 10
            then BackupTooSmall
                   (A64_LOGE "rwx size is too small to hold %u bytes backup instructions!"
                             [N * 10] l)
            else match __fix_instructions fuel m l symbol N rwx with
                 | Some s => BackupDone (mem s) (log s)
                 | None => BackupDiverges
                 end
       else BackupDone m l) = BackupDone m1 l1
      /\ touched_only (fun a => rwx ≠ 0 /\ rwx <= a < rwx + 4 * (8 * N + 6)) m m1)
      as (m1 & l1 & -> & Hfr).
    { destruct (Z.eqb_spec rwx 0) as [->|Hrwx]; simpl negb; cbv iota.
      { eexists _, _. split; [reflexivity|apply touched_only_refl]. }
      destruct (Z.ltb_spec rwx_size (N * 10)); [lia|].
      destruct (fix_instructions_spec fuel m l symbol N rwx)
        as (s' & -> & _ & _ & Hout & Hfr); [done| |done|done|].
      { unfold A64_MAX_INSTRUCTIONS. lia. }
      eexists _, _. split; [reflexivity|].
      eapply touched_only_mono; [|exact Hfr]. cbv beta. lia. }
    destruct (Z.eqb_spec (__make_rwx mprotect symbol (5 * 4)) 0) as [Hmp|Hmp].
    + destruct HN as [HN|HN]; rewrite HN in *;
        [change (4 =? 5) with false|change (5 =? 5) with true]; cbv iota.
      all: eexists; split; [reflexivity|]; cbn [ret hmem].
      all: split; [eapply touched_only_trans;
                     [eapply touched_only_mono; [|exact Hfr]; cbv beta; tauto|];
                   store_frame; apply touched_only_refl|].
      all: split; [intros _|done].
      all: split; [done|]; load_tac; repeat split; try done; lia.
    + eexists; split; [reflexivity|]; cbn [ret hmem].
      split; [eapply touched_only_mono; [|exact Hfr]; cbv beta; tauto|].
      split; [done|]. intros _. split; [done|exact Hfr].
  - assert (exists m1 l1,
      (if negb (rwx =? 0)
       then if rwx_size <? 1 * 10
            then BackupTooSmall
                   (A64_LOGE "rwx size is too small to hold %u bytes backup instructions!"
                             [1 * 10] l)
            else match __fix_instructions fuel m l symbol 1 rwx with
                 | Some s => BackupDone (mem s) (log s)
                 | None => BackupDiverges
                 end
       else BackupDone m l) = BackupDone m1 l1
      /\ touched_only (fun a => rwx ≠ 0 /\ rwx <= a < rwx + 4 * (8 * 1 + 6)) m m1)
      as (m1 & l1 & -> & Hfr).
    { destruct (Z.eqb_spec rwx 0) as [->|Hrwx]; simpl negb; cbv iota.
      { eexists _, _. split; [reflexivity|apply touched_only_refl]. }
      destruct (Z.ltb_spec rwx_size (1 * 10)); [lia|].
      destruct (fix_instructions_spec fuel m l symbol 1 rwx)
        as (s' & -> & _ & _ & Hout & Hfr); [done| |done|done|].
      { unfold A64_MAX_INSTRUCTIONS. lia. }
      eexists _, _. split; [reflexivity|].
      eapply touched_only_mono; [|exact Hfr]. cbv beta. lia. }
    destruct (Z.eqb_spec (__make_rwx mprotect symbol (1 * 4)) 0) as [Hmp|Hmp].
    + eexists; split; [reflexivity|]; cbn [ret hmem].
      split; [eapply touched_only_trans;
                [eapply touched_only_mono; [|exact Hfr]; cbv beta; tauto|];
              store_frame; apply touched_only_refl|].
      split; [intros _|done]. split; [done|].
      load_tac. apply u32_small, lor_range; [lia|lia|apply land_range_mask26].
    + eexists; split; [reflexivity|]; cbn [ret hmem].
      split; [eapply touched_only_mono; [|exact Hfr]; cbv beta; tauto|].
      split; [done|]. intros _. split; [done|exact Hfr].
Qed.

(** X21: with a trampoline buffer that passes the size precheck and
    [mprotect] succeeding, [A64HookFunctionV] returns the buffer, leaves the
    diverting prologue at the target, and writes nothing outside the first
    [8 * N + 6] words of the buffer and the [N] displaced words of the
    target. *)
Theorem hook_with_trampoline mprotect errno fuel m l symbol replace rwx rwx_size :
  (3 <= fuel)%nat -> 0 <= symbol < 2 ^ 62 -> rwx ≠ 0 -> rwx mod 4 = 0 ->
  let N := displaced_count symbol replace in
  10 * N <= rwx_size ->
  __make_rwx mprotect symbol (patch_bytes symbol replace) = 0 ->
  exists r,
    A64HookFunctionV mprotect errno fuel m l symbol replace rwx rwx_size = Some r
    /\ ret r = rwx
    /\ prologue_installed symbol replace (hmem r)
    /\ touched_only (fun a => rwx <= a < rwx + 4 * (8 * N + 6)
                              \/ symbol <= a < symbol + 4 * N) m (hmem r).
Proof.
  intros Hfuel Hsym Hrwx Hal N Hsize Hmp.
  destruct (hook_function_v_spec mprotect errno fuel m l symbol replace rwx rwx_size)
    as (r & Hrun & Hfr & Hok & _); [done..|by right|].
  exists r. destruct (Hok Hmp) as [Hret Hpro].
  split; [done|]. split; [done|]. split; [done|].
  eapply touched_only_mono; [|exact Hfr]. cbv beta. tauto.
Qed.

Lemma hook_with_trampoline_witness :
  let N := displaced_count 0x1000 0x1100 in
  exists r,
    A64HookFunctionV (fun _ _ _ => 0) 0 3 add_ret_memory [] 0x1000 0x1100 0x2000 40
    = Some r
    /\ ret r = 0x2000
    /\ prologue_installed 0x1000 0x1100 (hmem r)
    /\ touched_only (fun a => 0x2000 <= a < 0x2000 + 4 * (8 * N + 6)
                              \/ 0x1000 <= a < 0x1000 + 4 * N) add_ret_memory (hmem r).
Proof.
  apply (hook_with_trampoline (fun _ _ _ => 0) 0 3 add_ret_memory []
                              0x1000 0x1100 0x2000 40);
    [lia|lia|lia|reflexivity|by vm_compute|reflexivity].
Defined.

(** X22: a non-null buffer whose [rwx_size] is below [10 * N] is refused
    before anything is written or [mprotect] is called: the result is
    null, the memory is unchanged and the log gains the one error line,
    which reports [10 * N]. *)
Theorem hook_buffer_refused mprotect errno fuel m l symbol replace rwx rwx_size :
  rwx ≠ 0 ->
  let N := displaced_count symbol replace in
  rwx_size < 10 * N ->
  A64HookFunctionV mprotect errno fuel m l symbol replace rwx rwx_size
  = Some (HookResult 0 m
            (l ++ [LogEntry ANDROID_LOG_ERROR
                     "rwx size is too small to hold %u bytes backup instructions!"
                     [10 * N]])).
Proof.
  intros Hrwx N. subst N. unfold displaced_count, long_patch.
  unfold A64HookFunctionV, backup_instructions, A64_LOGE. cbv zeta.
  destruct (Z.eqb_spec rwx 0); [done|]. simpl negb. cbv iota.
  destruct (Z.leb_spec (Z.shiftr 67108863 1) (Z.abs (Z.shiftr (replace - symbol) 2))).
  - destruct (negb _); intros Hsize.
    + destruct (Z.ltb_spec rwx_size (5 * 10)); [done|lia].
    + destruct (Z.ltb_spec rwx_size (4 * 10)); [done|lia].
  - intros Hsize. destruct (Z.ltb_spec rwx_size (1 * 10)); [done|lia].
Qed.

Lemma hook_buffer_refused_witness :
  let N := displaced_count 0x10000000 0x20000000 in
  A64HookFunctionV (fun _ _ _ => 0) 0 3 bl_prologue_memory [] 0x10000000 0x20000000
                   0x30000000 39
  = Some (HookResult 0 bl_prologue_memory
            ([] ++ [LogEntry ANDROID_LOG_ERROR
                      "rwx size is too small to hold %u bytes backup instructions!"
                      [10 * N]])).
Proof.
  apply (hook_buffer_refused (fun _ _ _ => 0) 0 3 bl_prologue_memory []
                             0x10000000 0x20000000 0x30000000 39);
    [lia|by vm_compute].
Defined.

Lemma load64_store64 m a v a' :
  a' = a -> 0 <= v < 2 ^ 64 -> load64 (store64 m a v) a' = v.
Proof.
  intros -> Hv. unfold load64, store64.
  rewrite load_store_ne, load_store_eq, load_store_eq by lia.
  unfold u32. rewrite Z.shiftr_div_pow2 by lia. lia.
Qed.

(** X23: the prologue [A64HookFunctionV] installs transfers control to
    [replace].  The one-word patch is a [B] whose decoded target is
    [replace]; the long patch is [LDR X17, #8; BR X17], after one [NOP]
    when five words are displaced, and the literal the [LDR] reads is
    8-byte aligned and holds [replace]. *)
Theorem prologue_diverts mprotect errno fuel m l symbol replace rwx rwx_size :
  (3 <= fuel)%nat -> 0 <= symbol < 2 ^ 62 -> symbol mod 4 = 0 -> rwx mod 4 = 0 ->
  0 <= replace < 2 ^ 64 -> replace mod 4 = 0 ->
  let N := displaced_count symbol replace in
  rwx = 0 \/ 10 * N <= rwx_size ->
  __make_rwx mprotect symbol (patch_bytes symbol replace) = 0 ->
  exists r,
    A64HookFunctionV mprotect errno fuel m l symbol replace rwx rwx_size = Some r
    /\ if long_patch symbol replace then
         let o := symbol + 4 * (N - 4) in
         (N = 4 \/ N = 5 /\ load (hmem r) symbol = A64_NOP)
         /\ load (hmem r) o = 0x58000051
         /\ loadlit_target o (load (hmem r) o) = o + 8
         /\ load (hmem r) (o + 4) = 0xd61f0220
         /\ (o + 8) mod 8 = 0
         /\ load64 (hmem r) (o + 8) = replace
       else
         N = 1
         /\ Z.land (load (hmem r) symbol) 0xfc000000 = 0x14000000
         /\ branch_target symbol (load (hmem r) symbol) = replace.
Proof.
  intros Hfuel Hsym Hsal Hal Hrep Hral N Hsize Hmp.
  destruct (hook_function_v_spec mprotect errno fuel m l symbol replace rwx rwx_size)
    as (r & Hrun & _ & Hok & _); [done..|].
  exists r. split; [done|]. destruct (Hok Hmp) as [_ Hpro]. clear Hok Hrun.
  subst N. revert Hpro. unfold prologue_installed, displaced_count.
  destruct (long_patch symbol replace) eqn:Hlong.
  - rewrite land_7. cbv zeta.
    destruct (Z.eqb_spec ((symbol + 4 * 2) mod 8) 0) as [H8|H8]; simpl negb; cbv iota.
    + change (4 =? 5) with false. cbv iota. intros (_ & H0 & H1 & H2 & H3).
      replace (symbol + 4 * (4 - 4)) with symbol by lia.
      split; [by left|]. split; [done|]. rewrite H0.
      split; [rewrite loadlit_target_rel; by change (loadlit_target 0 1476395089) with 8|]. split; [done|]. split; [lia|].
      unfold load64. replace (symbol + 8 + 4) with (symbol + 12) by lia.
      rewrite H2, H3. unfold u32. rewrite Z.shiftr_div_pow2 by lia. lia.
    + change (5 =? 5) with true. cbv iota. intros (Hnop & H0 & H1 & H2 & H3).
      replace (symbol + 4 * (5 - 4)) with (symbol + 4) by lia.
      split; [right; split; [done|apply Hnop; lia]|]. split; [done|]. rewrite H0.
      split; [rewrite loadlit_target_rel; by change (loadlit_target 0 1476395089) with 8|]. split; [done|]. split; [lia|].
      unfold load64. replace (symbol + 4 + 8 + 4) with (symbol + 4 + 12) by lia.
      rewrite H2, H3. unfold u32. rewrite Z.shiftr_div_pow2 by lia. lia.
  - intros ->. split; [done|].
    unfold long_patch in Hlong. apply Z.leb_gt in Hlong.
    change (Z.shiftr 67108863 1) with 33554431 in Hlong.
    rewrite Z.shiftr_div_pow2 in Hlong by lia. change (2 ^ 2) with 4 in Hlong.
    destruct (branch_round_trip symbol 0x14000000 (replace - symbol)) as [Ht Ho];
      [by left|lia|lia|].
    unfold branch_word in Ht, Ho. split; [exact Ho|]. rewrite Ht. lia.
Qed.

Lemma prologue_diverts_witness :
  let N := displaced_count 0x10000004 0x20000000 in
  exists r,
    A64HookFunctionV (fun _ _ _ => 0) 0 3 b_forward_memory [] 0x10000004 0x20000000 0 0
    = Some r
    /\ if long_patch 0x10000004 0x20000000 then
         let o := 0x10000004 + 4 * (N - 4) in
         (N = 4 \/ N = 5 /\ load (hmem r) 0x10000004 = A64_NOP)
         /\ load (hmem r) o = 0x58000051
         /\ loadlit_target o (load (hmem r) o) = o + 8
         /\ load (hmem r) (o + 4) = 0xd61f0220
         /\ (o + 8) mod 8 = 0
         /\ load64 (hmem r) (o + 8) = 0x20000000
       else
         N = 1
         /\ Z.land (load (hmem r) 0x10000004) 0xfc000000 = 0x14000000
         /\ branch_target 0x10000004 (load (hmem r) 0x10000004) = 0x20000000.
Proof.
  apply (prologue_diverts (fun _ _ _ => 0) 0 3 b_forward_memory []
                          0x10000004 0x20000000 0 0);
    [lia|lia|reflexivity|reflexivity|lia|reflexivity|by left|reflexivity].
Defined.

(** ** The pool and [A64HookFunction] *)

Lemma fast_allocate_slot pool index l :
  -1 <= index < A64_MAX_BACKUPS - 1 ->
  FastAllocateTrampoline pool index l = (pool + 200 * (index + 1), index + 1, l).
Proof.
  unfold A64_MAX_BACKUPS. intros Hi.
  unfold FastAllocateTrampoline, __atomic_increase, __insns_pool, s32, u32,
    A64_MAX_BACKUPS, A64_MAX_INSTRUCTIONS. cbv zeta. pow_consts.
  rewrite (Z.mod_small (index + 1)) by lia.
  destruct (Z.ltb_spec (index + 1) 2147483648); [|lia].
  destruct (Z.leb_spec 0 (index + 1)); [|lia].
  destruct (Z.ltb_spec (index + 1) 256); [|lia].
  replace ((index + 1) * (5 * 10 * 4)) with (200 * (index + 1)) by lia. reflexivity.
Qed.

Lemma fast_allocate_exhausted pool index l :
  A64_MAX_BACKUPS - 1 <= index <= 2 ^ 31 - 1 ->
  FastAllocateTrampoline pool index l
  = (0, s32 (index + 1), A64_LOGE "failed to allocate trampoline!" [] l).
Proof.
  unfold A64_MAX_BACKUPS. intros Hi.
  unfold FastAllocateTrampoline, __atomic_increase, A64_MAX_BACKUPS. cbv zeta.
  assert (s32 (index + 1) < 0 \/ 256 <= s32 (index + 1)) as Hs.
  { unfold s32, u32. pow_consts.
    destruct (Z.eq_dec index (2147483648 - 1)) as [->|]; [by left|].
    rewrite (Z.mod_small (index + 1)) by lia.
    destruct (Z.ltb_spec (index + 1) 2147483648); lia. }
  destruct (Z.leb_spec 0 (s32 (index + 1))), (Z.ltb_spec (s32 (index + 1)) 256);
    try done; lia.
Qed.

(** X24: while the counter is below [A64_MAX_BACKUPS - 1],
    [FastAllocateTrampoline] hands out the next row of the pool: two calls
    at different counter values return non-null, 8-byte aligned rows of 200
    bytes that lie inside the pool and do not overlap. *)
Theorem pool_rows_disjoint pool i j l l' :
  0 < pool -> pool mod 4096 = 0 -> -1 <= i -> i < j -> j < A64_MAX_BACKUPS - 1 ->
  let p := (FastAllocateTrampoline pool i l).1.1 in
  let q := (FastAllocateTrampoline pool j l').1.1 in
  p ≠ 0 /\ p mod 8 = 0 /\ q mod 8 = 0
  /\ pool <= p /\ p + 200 <= q /\ q + 200 <= pool + A64_MAX_BACKUPS * 200
  /\ (FastAllocateTrampoline pool i l).1.2 = i + 1.
Proof.
  intros Hpool Hal Hi Hij Hj. cbv zeta.
  rewrite !fast_allocate_slot by lia. cbn [fst snd].
  unfold A64_MAX_BACKUPS in *. lia.
Qed.

Lemma pool_rows_disjoint_witness :
  let p := (FastAllocateTrampoline 0x7000 (-1) []).1.1 in
  let q := (FastAllocateTrampoline 0x7000 254 []).1.1 in
  p ≠ 0 /\ p mod 8 = 0 /\ q mod 8 = 0
  /\ 0x7000 <= p /\ p + 200 <= q /\ q + 200 <= 0x7000 + A64_MAX_BACKUPS * 200
  /\ (FastAllocateTrampoline 0x7000 (-1) []).1.2 = -1 + 1.
Proof.
  apply (pool_rows_disjoint 0x7000 (-1) 254 [] []);
    [lia|reflexivity|lia|lia|unfold A64_MAX_BACKUPS; lia].
Defined.

(** X25: once [A64_MAX_BACKUPS] rows have been handed out,
    [FastAllocateTrampoline] returns null and logs the failure, and keeps
    counting: the counter wraps at [2^31 - 1]. *)
Theorem pool_exhausted pool index l :
  A64_MAX_BACKUPS - 1 <= index <= 2 ^ 31 - 1 ->
  let r := FastAllocateTrampoline pool index l in
  r.1.1 = 0
  /\ r.1.2 = (if index =? 2 ^ 31 - 1 then - 2 ^ 31 else index + 1)
  /\ r.2 = l ++ [LogEntry ANDROID_LOG_ERROR "failed to allocate trampoline!" []].
Proof.
  intros Hi. cbv zeta. rewrite fast_allocate_exhausted by done. cbn [fst snd].
  split; [done|]. split; [|done].
  unfold A64_MAX_BACKUPS in Hi. unfold s32, u32. pow_consts.
  destruct (Z.eqb_spec index (2147483648 - 1)) as [->|]; [done|].
  rewrite (Z.mod_small (index + 1)) by lia.
  destruct (Z.ltb_spec (index + 1) 2147483648); lia.
Qed.

Lemma pool_exhausted_witness :
  let r := FastAllocateTrampoline 0x7000 255 [] in
  r.1.1 = 0
  /\ r.1.2 = (if 255 =? 2 ^ 31 - 1 then - 2 ^ 31 else 255 + 1)
  /\ r.2 = [] ++ [LogEntry ANDROID_LOG_ERROR "failed to allocate trampoline!" []].
Proof.
  apply (pool_exhausted 0x7000 255 []). unfold A64_MAX_BACKUPS. lia.
Defined.

(** X26: [A64HookFunction] with a result pointer, while the pool has a free
    row: whatever [mprotect] answers the call returns, takes exactly one
    row, and writes nothing outside that 200-byte row, the pointer at
    [result] and the [N] displaced words of the target; the relocator's
    output never leaves the row. *)
Theorem hook_function_confined mprotect errno pool fuel index m l symbol replace result :
  (3 <= fuel)%nat -> 0 < pool -> pool mod 4096 = 0 -> 0 <= symbol < 2 ^ 62 ->
  -1 <= index < A64_MAX_BACKUPS - 1 -> result ≠ 0 ->
  let row := pool + 200 * (index + 1) in
  let N := displaced_count symbol replace in
  exists r,
    A64HookFunction mprotect errno pool fuel index m l symbol replace result = Some r
    /\ aindex r = index + 1
    /\ touched_only (fun a => a = result \/ a = result + 4
                              \/ row <= a < row + 200
                              \/ symbol <= a < symbol + 4 * N) m (amem r).
Proof.
  intros Hfuel Hpool Hal Hsym Hidx Hres row N.
  unfold A64HookFunction. cbv zeta.
  destruct (Z.eqb_spec result 0); [done|]. simpl negb. cbv iota.
  rewrite fast_allocate_slot by done. fold row.
  unfold A64_MAX_BACKUPS in Hidx.
  destruct (Z.eqb_spec row 0); [subst row; lia|].
  assert (N = 1 \/ N = 4 \/ N = 5) as HN.
  { subst N. unfold displaced_count. repeat case_match; auto. }
  destruct (hook_function_v_spec mprotect errno fuel (store64 m result row) l
              symbol replace row (A64_MAX_INSTRUCTIONS * 10))
    as (r & -> & Hfr & _); [done|done|subst row; lia| |].
  { right. fold N. unfold A64_MAX_INSTRUCTIONS. lia. }
  fold N in Hfr. eexists. split; [reflexivity|]. cbn [aindex amem].
  split; [done|].
  assert (touched_only (fun a => a = result \/ a = result + 4
                                 \/ row <= a < row + 200
                                 \/ symbol <= a < symbol + 4 * N) m (hmem r)) as Hfr'.
  { apply (touched_only_trans _ _ (store64 m result row)).
    - apply touched_only_store64; cbv beta; lia.
    - eapply touched_only_mono; [|exact Hfr]. cbv beta. lia. }
  destruct (_ && _); [|done].
  eapply touched_only_trans; [exact Hfr'|].
  apply touched_only_store64; cbv beta; lia.
Qed.

Lemma hook_function_confined_witness :
  let row := 0x7000 + 200 * (-1 + 1) in
  let N := displaced_count 0x1000 0x1100 in
  exists r,
    A64HookFunction (fun _ _ _ => 0) 0 0x7000 3 (-1) add_ret_memory [] 0x1000 0x1100 0x3000
    = Some r
    /\ aindex r = -1 + 1
    /\ touched_only (fun a => a = 0x3000 \/ a = 0x3000 + 4
                              \/ row <= a < row + 200
                              \/ 0x1000 <= a < 0x1000 + 4 * N) add_ret_memory (amem r).
Proof.
  apply (hook_function_confined (fun _ _ _ => 0) 0 0x7000 3 (-1) add_ret_memory []
                                0x1000 0x1100 0x3000);
    [lia|lia|reflexivity|lia|unfold A64_MAX_BACKUPS; lia|lia].
Defined.

(** X27: when the pool is exhausted, [A64HookFunction] with a result pointer
    stores null at [result] and returns at once: the target is not hooked
    and no other word of memory changes. *)
Theorem hook_function_pool_exhausted mprotect errno pool fuel index m l symbol replace result :
  A64_MAX_BACKUPS - 1 <= index <= 2 ^ 31 - 1 -> result ≠ 0 ->
  exists r,
    A64HookFunction mprotect errno pool fuel index m l symbol replace result = Some r
    /\ amem r = store64 m result 0
    /\ load (amem r) result = 0 /\ load (amem r) (result + 4) = 0
    /\ touched_only (fun a => a = result \/ a = result + 4) m (amem r)
    /\ alog r = l ++ [LogEntry ANDROID_LOG_ERROR "failed to allocate trampoline!" []].
Proof.
  intros Hidx Hres. unfold A64HookFunction. cbv zeta.
  destruct (Z.eqb_spec result 0); [done|]. simpl negb. cbv iota.
  rewrite fast_allocate_exhausted by done.
  change (0 =? 0) with true. cbv iota.
  eexists. split; [reflexivity|]. cbn [amem alog].
  split; [done|]. unfold store64. rewrite load_store_ne, !load_store_eq by lia.
  split; [done|]. split; [done|].
  split; [|done]. store_frame. apply touched_only_refl.
Qed.

Lemma hook_function_pool_exhausted_witness :
  exists r,
    A64HookFunction (fun _ _ _ => 0) 0 0x7000 3 255 add_ret_memory [] 0x1000 0x1100 0x3000
    = Some r
    /\ amem r = store64 add_ret_memory 0x3000 0
    /\ load (amem r) 0x3000 = 0 /\ load (amem r) (0x3000 + 4) = 0
    /\ touched_only (fun a => a = 0x3000 \/ a = 0x3000 + 4) add_ret_memory (amem r)
    /\ alog r = [] ++ [LogEntry ANDROID_LOG_ERROR "failed to allocate trampoline!" []].
Proof.
  apply (hook_function_pool_exhausted (fun _ _ _ => 0) 0 0x7000 3 255 add_ret_memory []
                                      0x1000 0x1100 0x3000);
    [unfold A64_MAX_BACKUPS; lia|lia].
Defined.

(** X28: the outcome of [A64HookFunction] as its caller sees it, with a
    result pointer and a free row: if [mprotect] succeeds the prologue is
    in place at the target and the pointer at [result], when it lies
    outside the row and the displaced words, is the address of the row;
    if it fails the pointer at [result] is null again although the row
    stays taken. *)
Theorem hook_function_outcome mprotect errno pool fuel index m l symbol replace result :
  (3 <= fuel)%nat -> 0 < pool -> pool mod 4096 = 0 ->
  pool + 200 * A64_MAX_BACKUPS <= 2 ^ 64 -> 0 <= symbol < 2 ^ 62 ->
  -1 <= index < A64_MAX_BACKUPS - 1 -> result ≠ 0 ->
  let row := pool + 200 * (index + 1) in
  let N := displaced_count symbol replace in
  exists r,
    A64HookFunction mprotect errno pool fuel index m l symbol replace result = Some r
    /\ aindex r = index + 1
    /\ (__make_rwx mprotect symbol (patch_bytes symbol replace) = 0 ->
        prologue_installed symbol replace (amem r)
        /\ (result + 8 <= row \/ row + 200 <= result ->
            result + 8 <= symbol \/ symbol + 4 * N <= result ->
            load64 (amem r) result = row))
    /\ (__make_rwx mprotect symbol (patch_bytes symbol replace) ≠ 0 ->
        load (amem r) result = 0 /\ load (amem r) (result + 4) = 0).
Proof.
  intros Hfuel Hpool Hal Hfit Hsym Hidx Hres row N.
  unfold A64HookFunction. cbv zeta.
  destruct (Z.eqb_spec result 0); [done|]. simpl negb. cbv iota.
  rewrite fast_allocate_slot by done.
  unfold A64_MAX_BACKUPS in Hidx, Hfit. fold row.
  destruct (Z.eqb_spec row 0); [subst row; lia|].
  assert (N = 1 \/ N = 4 \/ N = 5) as HN.
  { subst N. unfold displaced_count. repeat case_match; auto. }
  destruct (hook_function_v_spec mprotect errno fuel (store64 m result row) l
              symbol replace row (A64_MAX_INSTRUCTIONS * 10))
    as (r & -> & Hfr & Hok & Hfail); [done|done|subst row; lia| |].
  { right. fold N. unfold A64_MAX_INSTRUCTIONS. lia. }
  fold N in Hfr.
  eexists. split; [reflexivity|]. cbn [aindex amem]. split; [done|]. split.
  - intros Hmp. destruct (Hok Hmp) as [-> Hpro].
    destruct (Z.eqb_spec row 0); [done|]. cbn [andb]. split; [exact Hpro|].
    intros Hrow Hsymd.
    rewrite <- (load64_store64 m result row result eq_refl)
      by (change (2 ^ 64) with 18446744073709551616 in *; subst row; lia).
    unfold load64, load. by rewrite !Hfr by lia.
  - intros Hmp. destruct (Hfail Hmp) as [-> _].
    change (0 =? 0) with true. cbn [andb negb].
    unfold store64. by rewrite load_store_ne, !load_store_eq by lia.
Qed.

Lemma hook_function_outcome_witness :
  let row := 0x7000 + 200 * (-1 + 1) in
  let N := displaced_count 0x1000 0x1100 in
  exists r,
    A64HookFunction (fun _ _ _ => 0) 0 0x7000 3 (-1) add_ret_memory [] 0x1000 0x1100 0x3000
    = Some r
    /\ aindex r = -1 + 1
    /\ (__make_rwx (fun _ _ _ => 0) 0x1000 (patch_bytes 0x1000 0x1100) = 0 ->
        prologue_installed 0x1000 0x1100 (amem r)
        /\ (0x3000 + 8 <= row \/ row + 200 <= 0x3000 ->
            0x3000 + 8 <= 0x1000 \/ 0x1000 + 4 * N <= 0x3000 ->
            load64 (amem r) 0x3000 = row))
    /\ (__make_rwx (fun _ _ _ => 0) 0x1000 (patch_bytes 0x1000 0x1100) ≠ 0 ->
        load (amem r) 0x3000 = 0 /\ load (amem r) (0x3000 + 4) = 0).
Proof.
  apply (hook_function_outcome (fun _ _ _ => 0) 0 0x7000 3 (-1) add_ret_memory []
                               0x1000 0x1100 0x3000);
    [lia|lia|reflexivity|unfold A64_MAX_BACKUPS; lia|lia|unfold A64_MAX_BACKUPS; lia|lia].
Defined.
